(** * embedx: the unsupervised bipartite GraphSAGE instance reader

    A shallow embedding of
    [src/model/instance_reader/unsup_bipartite_graphsage_inst_reader.cc]:
    the node classifier [ParseUserAndItemFrom], the two batch builders
    [GetTrainBatch] and [GetPredictBatch], the unified index functions
    ([index_func], the lambda of the training path, and the member [Index]
    of the inference path), [FillIndex] and [FillInstance].

    Node identifiers ([int_t], an unsigned 64-bit integer) and every other
    machine integer are values of [Z]; the conversions the C++ performs are
    written out ([to_int_t], [to_int]).  The reader object, the instance it
    writes into and the log of requests sent to its collaborators form the
    [World] that the code threads through a small state-and-failure monad. *)

From Stdlib Require Import ZArith Lia.
From stdpp Require Import base gmap sets list strings.

Local Open Scope Z_scope.

(** ** Machine integers *)

Definition INT_MAX : Z := 2 ^ 31 - 1.

(** [(int_t)x]: conversion to the unsigned 64-bit node/index type. *)
Definition to_int_t (x : Z) : Z := x mod 2 ^ 64.

(** Conversion to [int]: reduction modulo [2^32], read as a signed value. *)
Definition to_int (x : Z) : Z := (x + 2 ^ 31) mod 2 ^ 32 - 2 ^ 31.

(** Addition of two unsigned 64-bit values. *)
Definition add_u64 (x y : Z) : Z := (x + y) mod 2 ^ 64.

(** ** Records read from the input ([src/io/value.h]) *)

Record EdgeValue := { src_node : Z; dst_node : Z }.
Record NodeValue := { node : Z }.

(** [Collect<T, int_t>(values, &T::field)] *)
Definition Collect {T : Type} (values : list T) (field : T → Z) : list Z :=
  field <$> values.

(** ** Sparse index tensors ([csr_t])

    A matrix under construction: the rows already closed by [add_row] and
    the entries [emplace]d since. *)

Record csr_t := { csr_rows : list (list (Z * Z)); csr_open : list (Z * Z) }.

Definition csr_clear (m : csr_t) : csr_t := {| csr_rows := []; csr_open := [] |}.
Definition csr_emplace (col value : Z) (m : csr_t) : csr_t :=
  {| csr_rows := csr_rows m; csr_open := csr_open m ++ [(col, value)] |}.
Definition csr_add_row (m : csr_t) : csr_t :=
  {| csr_rows := csr_rows m ++ [csr_open m]; csr_open := [] |}.

(** ** Results of a call that may hit a fatal check *)

Inductive outcome (A : Type) : Type :=
| Done (a : A)
| CheckFailed        (* a DXCHECK did not hold: the process is aborted *)
| OutOfRange.        (* operator[] outside the vector *)
Arguments Done {A} a.
Arguments CheckFailed {A}.
Arguments OutOfRange {A}.

Definition outcome_bind {A B} (f : A → outcome B) (x : outcome A) : outcome B :=
  match x with
  | Done a => f a
  | CheckFailed => CheckFailed
  | OutOfRange => OutOfRange
  end.

#[export] Instance outcome_ret : MRet outcome := @Done.
#[export] Instance outcome_mbind : MBind outcome := @outcome_bind.
#[export] Instance outcome_fmap : FMap outcome :=
  λ A B f x, outcome_bind (λ a, Done (f a)) x.

(** [x[i]] on a vector. *)
Definition at_index {A} (v : list A) (i : nat) : outcome A :=
  match v !! i with
  | Some a => Done a
  | None => OutOfRange
  end.

(** Modelled from the spec: the macro [DXCHECK] comes from [dx_log.h],
    outside this translation unit; a check that does not hold is fatal for
    the batch. *)
Definition DXCHECK (cond : bool) : outcome unit :=
  if cond then Done tt else CheckFailed.

(** Monadic map over a vector, left to right. *)
Fixpoint for_each {A B} (f : A → outcome B) (l : list A) : outcome (list B) :=
  match l with
  | [] => Done []
  | a :: l' => b ← f a; bs ← for_each f l'; Done (b :: bs)
  end.

(** ** Local index tables *)

(** Modelled from the spec: the class [Indexing] of [src/io/indexing.h]
    lies outside this translation unit.  A table maps each node placed into
    it to a dense index in [[0, size)]; the node at position [i] of
    [index_keys] has index [i]; [Get] answers an [int], negative for a node
    never inserted; [Size] answers the number of nodes. *)
Record Indexing := { index_keys : list Z }.

Fixpoint position (n : Z) (keys : list Z) (i : Z) : Z :=
  match keys with
  | [] => -1
  | k :: keys' => if k =? n then i else position n keys' (i + 1)
  end.

Definition Indexing_Get (t : Indexing) (n : Z) : Z := position n (index_keys t) 0.
Definition Indexing_Size (t : Indexing) : Z := Z.of_nat (length (index_keys t)).

(** ** The output instance

    The slots this reader writes itself are kept apart by their C++ type
    ([csr_t] for index tensors, [vec_int_t] for node lists); whatever the
    feature flow stores lives in [inst_flow], whose type is the flow's. *)

Record Instance (F : Type) := {
  inst_batch : Z;
  inst_csr : gmap string csr_t;
  inst_vec : gmap string (list Z);
  inst_flow : F
}.
Arguments inst_batch {F} _.
Arguments inst_csr {F} _.
Arguments inst_vec {F} _.
Arguments inst_flow {F} _.

Section InstanceOps.
Context {F : Type}.

Definition set_batch (n : Z) (i : Instance F) : Instance F :=
  {| inst_batch := n; inst_csr := inst_csr i; inst_vec := inst_vec i;
     inst_flow := inst_flow i |}.

(** Modelled from the spec: [clear_batch] belongs to the instance
    container, outside this translation unit; it marks the instance
    empty. *)
Definition clear_batch (i : Instance F) : Instance F := set_batch 0 i.

(** [inst->get_or_insert<csr_t>(name)] followed by writes through the
    returned pointer. *)
Definition get_or_insert_csr (name : string) (i : Instance F) : csr_t :=
  default {| csr_rows := []; csr_open := [] |} (inst_csr i !! name).
Definition put_csr (name : string) (m : csr_t) (i : Instance F) : Instance F :=
  {| inst_batch := inst_batch i; inst_csr := <[name := m]> (inst_csr i);
     inst_vec := inst_vec i; inst_flow := inst_flow i |}.
Definition put_vec (name : string) (v : list Z) (i : Instance F) : Instance F :=
  {| inst_batch := inst_batch i; inst_csr := inst_csr i;
     inst_vec := <[name := v]> (inst_vec i); inst_flow := inst_flow i |}.
End InstanceOps.

(** ** Collaborators

    Everything the translation unit calls but does not define: the type-tag
    extractor of [src/io/io_util.h], the tensor names of
    [src/model/instance_node_name.h], the line parser, the graph client and
    the neighbor aggregation flow.  They are an interface here; each claim
    states the part of their contract it relies on. *)

Class Collaborators := {
  (* io_util *)
  GetNodeType : Z → Z;
  (* instance_name and deepx_core names *)
  X_SRC_ID_NAME : string;
  X_DST_ID_NAME : string;
  Y_NAME : string;
  X_PREDICT_NODE_NAME : string;
  X_NODE_FEATURE_NAME : string;
  X_NEIGH_FEATURE_NAME : string;
  X_SELF_BLOCK_NAME : string;
  X_NEIGH_BLOCK_NAME : string;
  (* line_parser_ *)
  LineParser : Type;
  NextBatch_EdgeValue : Z → LineParser → option (list EdgeValue) * LineParser;
  NextBatch_NodeValue : Z → LineParser → option (list NodeValue) * LineParser;
  Close : LineParser → LineParser;
  (* graph_client_ *)
  SharedSampleNegative : Z → list Z → list Z → option (list (list Z));
  (* flow_ and inst_util: what the flow stores in an instance, the
     per-level neighbor maps, the traversal order of an unordered node
     set, and the tensors the flow makes of resolved edge indices *)
  FlowData : Type;
  map_neigh_t : Type;
  SampleSubGraph : list Z → list Z → list (gset Z) * list map_neigh_t;
  iteration_order : gset Z → list Z;
  FillLevelNodeFeature :
    string → list (gset Z) → Instance FlowData → Instance FlowData;
  FillLevelNeighFeature :
    string → list (gset Z) → Instance FlowData → Instance FlowData;
  FillSelfAndNeighGraphBlock :
    string → string → list (gset Z) → list map_neigh_t → list Indexing → bool →
    Instance FlowData → Instance FlowData;
  EdgeAndLabelLayout :
    string → string → string → list Z → list Z → list (list Z) →
    Instance FlowData → Instance FlowData
}.

(** *** Contracts of the collaborators

    The collaborators lie outside this translation unit; what the
    properties below need of them is stated here, in the spec's words, and
    named as a hypothesis wherever it is used. *)

(** Modelled from the spec: a table is built from a node set that holds
    each node once, in the order the set is traversed (an order the spec
    leaves open). *)
Definition IterationContract `{Collaborators} : Prop :=
  ∀ s : gset Z, iteration_order s ≡ₚ elements s.

(** Modelled from the spec: level 0 of a sampled subgraph is the set of
    seed nodes ([SampleSubGraph] of the neighbor aggregation flow). *)
Definition SubGraphContract `{Collaborators} : Prop :=
  ∀ nodes num_neighbors,
    (SampleSubGraph nodes num_neighbors).1 !! 0%nat = Some (list_to_set nodes).

(** Modelled from the spec: the graph client draws the negatives from the
    pool handed to it ([sample_negatives(k, anchors, pool)]). *)
Definition NegativePoolContract `{Collaborators} : Prop :=
  ∀ count nodes pool negs,
    SharedSampleNegative count nodes pool = Some negs →
    ∀ l n, l ∈ negs → n ∈ l → n ∈ pool.

(** Modelled from the spec: the record source answers a batch of the
    requested size, or a smaller final one. *)
Definition BatchSizeContract `{Collaborators} : Prop :=
  ∀ batch lp values lp',
    NextBatch_NodeValue batch lp = (Some values, lp') →
    Z.of_nat (length values) ≤ batch.

(** ** The reader and its world *)

Section Reader.
Context `{Collab : Collaborators}.

(** Requests sent to the collaborators and diagnostics written to the
    log, in the order they happen. *)
Inductive Event :=
| LogInvalidNode (n group user_group item_group : Z)
| CallNextBatch (batch : Z)
| CallClose
| CallSharedSampleNegative (count : Z) (nodes pool : list Z)
| CallSampleSubGraph (nodes num_neighbors : list Z)
| CallFillLevelNodeFeature (name : string)
| CallFillLevelNeighFeature (name : string)
| CallFillSelfAndNeighGraphBlock (self_name neigh_name : string)
| CallFillEdgeAndLabel (src dst : list Z) (negs : list (list Z)).

Record UnsupBipartiteInstReader := {
  is_train_ : bool;
  num_neg_ : Z;
  num_neighbors_ : list Z;
  use_neigh_feat_ : bool;
  user_ns_id_ : Z;
  item_ns_id_ : Z;
  batch_ : Z;
  line_parser_ : LineParser;
  src_nodes_ : list Z;
  dst_nodes_ : list Z;
  neg_nodes_list_ : list (list Z);
  user_indexings_ : list Indexing;
  item_indexings_ : list Indexing
}.

Record World := {
  reader : UnsupBipartiteInstReader;
  inst : Instance FlowData;
  trace : list Event
}.

(** Assignments to the members the batch builders write. *)

Definition set_line_parser_ (v : LineParser) (this : UnsupBipartiteInstReader) :
    UnsupBipartiteInstReader :=
  {| is_train_ := is_train_ this; num_neg_ := num_neg_ this;
     num_neighbors_ := num_neighbors_ this;
     use_neigh_feat_ := use_neigh_feat_ this;
     user_ns_id_ := user_ns_id_ this; item_ns_id_ := item_ns_id_ this;
     batch_ := batch_ this; line_parser_ := v;
     src_nodes_ := src_nodes_ this; dst_nodes_ := dst_nodes_ this;
     neg_nodes_list_ := neg_nodes_list_ this;
     user_indexings_ := user_indexings_ this;
     item_indexings_ := item_indexings_ this |}.

Definition set_src_nodes_ (v : list Z) (this : UnsupBipartiteInstReader) :
    UnsupBipartiteInstReader :=
  {| is_train_ := is_train_ this; num_neg_ := num_neg_ this;
     num_neighbors_ := num_neighbors_ this;
     use_neigh_feat_ := use_neigh_feat_ this;
     user_ns_id_ := user_ns_id_ this; item_ns_id_ := item_ns_id_ this;
     batch_ := batch_ this; line_parser_ := line_parser_ this;
     src_nodes_ := v; dst_nodes_ := dst_nodes_ this;
     neg_nodes_list_ := neg_nodes_list_ this;
     user_indexings_ := user_indexings_ this;
     item_indexings_ := item_indexings_ this |}.

Definition set_dst_nodes_ (v : list Z) (this : UnsupBipartiteInstReader) :
    UnsupBipartiteInstReader :=
  {| is_train_ := is_train_ this; num_neg_ := num_neg_ this;
     num_neighbors_ := num_neighbors_ this;
     use_neigh_feat_ := use_neigh_feat_ this;
     user_ns_id_ := user_ns_id_ this; item_ns_id_ := item_ns_id_ this;
     batch_ := batch_ this; line_parser_ := line_parser_ this;
     src_nodes_ := src_nodes_ this; dst_nodes_ := v;
     neg_nodes_list_ := neg_nodes_list_ this;
     user_indexings_ := user_indexings_ this;
     item_indexings_ := item_indexings_ this |}.

Definition set_neg_nodes_list_ (v : list (list Z)) (this : UnsupBipartiteInstReader) :
    UnsupBipartiteInstReader :=
  {| is_train_ := is_train_ this; num_neg_ := num_neg_ this;
     num_neighbors_ := num_neighbors_ this;
     use_neigh_feat_ := use_neigh_feat_ this;
     user_ns_id_ := user_ns_id_ this; item_ns_id_ := item_ns_id_ this;
     batch_ := batch_ this; line_parser_ := line_parser_ this;
     src_nodes_ := src_nodes_ this; dst_nodes_ := dst_nodes_ this;
     neg_nodes_list_ := v; user_indexings_ := user_indexings_ this;
     item_indexings_ := item_indexings_ this |}.

Definition set_user_indexings_ (v : list Indexing) (this : UnsupBipartiteInstReader) :
    UnsupBipartiteInstReader :=
  {| is_train_ := is_train_ this; num_neg_ := num_neg_ this;
     num_neighbors_ := num_neighbors_ this;
     use_neigh_feat_ := use_neigh_feat_ this;
     user_ns_id_ := user_ns_id_ this; item_ns_id_ := item_ns_id_ this;
     batch_ := batch_ this; line_parser_ := line_parser_ this;
     src_nodes_ := src_nodes_ this; dst_nodes_ := dst_nodes_ this;
     neg_nodes_list_ := neg_nodes_list_ this; user_indexings_ := v;
     item_indexings_ := item_indexings_ this |}.

Definition set_item_indexings_ (v : list Indexing) (this : UnsupBipartiteInstReader) :
    UnsupBipartiteInstReader :=
  {| is_train_ := is_train_ this; num_neg_ := num_neg_ this;
     num_neighbors_ := num_neighbors_ this;
     use_neigh_feat_ := use_neigh_feat_ this;
     user_ns_id_ := user_ns_id_ this; item_ns_id_ := item_ns_id_ this;
     batch_ := batch_ this; line_parser_ := line_parser_ this;
     src_nodes_ := src_nodes_ this; dst_nodes_ := dst_nodes_ this;
     neg_nodes_list_ := neg_nodes_list_ this;
     user_indexings_ := user_indexings_ this; item_indexings_ := v |}.

(** *** The monad of the member functions

    A member function runs in a world and leaves a world behind; when a
    check fails the run stops there, and the world is the one reached at
    that point. *)

Definition M (A : Type) : Type := World → outcome A * World.

#[export] Instance M_ret : MRet M := λ A a w, (Done a, w).
#[export] Instance M_bind : MBind M := λ A B f m w,
  match m w with
  | (Done a, w') => f a w'
  | (CheckFailed, w') => (CheckFailed, w')
  | (OutOfRange, w') => (OutOfRange, w')
  end.

Definition gets {A} (f : UnsupBipartiteInstReader → A) : M A :=
  λ w, (Done (f (reader w)), w).
Definition gets_inst {A} (f : Instance FlowData → A) : M A :=
  λ w, (Done (f (inst w)), w).
Definition lift {A} (o : outcome A) : M A := λ w, (o, w).
Definition on_reader (f : UnsupBipartiteInstReader → UnsupBipartiteInstReader) :
    M unit :=
  λ w, (Done tt, {| reader := f (reader w); inst := inst w; trace := trace w |}).
Definition on_inst (f : Instance FlowData → Instance FlowData) : M unit :=
  λ w, (Done tt, {| reader := reader w; inst := f (inst w); trace := trace w |}).
Definition emit (e : Event) : M unit :=
  λ w, (Done tt, {| reader := reader w; inst := inst w; trace := trace w ++ [e] |}).

(** [DXERROR("Invalid node: ... with ns_id: ..., expect ... or ...")] *)
Definition DXERROR_invalid_node (n group user_group item_group : Z) : M unit :=
  emit (LogInvalidNode n group user_group item_group).

(** *** Calls into the collaborators *)

Definition line_parser_NextBatch_EdgeValue (batch : Z) : M (option (list EdgeValue)) :=
  emit (CallNextBatch batch);;
  lp ← gets line_parser_;
  let '(values, lp') := NextBatch_EdgeValue batch lp in
  on_reader (set_line_parser_ lp');;
  mret values.

Definition line_parser_NextBatch_NodeValue (batch : Z) : M (option (list NodeValue)) :=
  emit (CallNextBatch batch);;
  lp ← gets line_parser_;
  let '(values, lp') := NextBatch_NodeValue batch lp in
  on_reader (set_line_parser_ lp');;
  mret values.

Definition line_parser_Close : M unit :=
  emit CallClose;;
  lp ← gets line_parser_;
  on_reader (set_line_parser_ (Close lp)).

(** [graph_client_->SharedSampleNegative(count, nodes, pool, &neg_nodes_list_)];
    the answer is stored when the call succeeds. *)
Definition graph_client_SharedSampleNegative (count : Z) (nodes pool : list Z) :
    M bool :=
  emit (CallSharedSampleNegative count nodes pool);;
  match SharedSampleNegative count nodes pool with
  | Some negs => on_reader (set_neg_nodes_list_ negs);; mret true
  | None => mret false
  end.

Definition flow_SampleSubGraph (nodes num_neighbors : list Z) :
    M (list (gset Z) * list map_neigh_t) :=
  emit (CallSampleSubGraph nodes num_neighbors);;
  mret (SampleSubGraph nodes num_neighbors).

Definition flow_FillLevelNodeFeature (name : string) (level_nodes : list (gset Z)) :
    M unit :=
  emit (CallFillLevelNodeFeature name);;
  on_inst (FillLevelNodeFeature name level_nodes).

Definition flow_FillLevelNeighFeature (name : string) (level_nodes : list (gset Z)) :
    M unit :=
  emit (CallFillLevelNeighFeature name);;
  on_inst (FillLevelNeighFeature name level_nodes).

Definition flow_FillSelfAndNeighGraphBlock (self_name neigh_name : string)
    (level_nodes : list (gset Z)) (level_neighs : list map_neigh_t)
    (indexings : list Indexing) (b : bool) : M unit :=
  emit (CallFillSelfAndNeighGraphBlock self_name neigh_name);;
  on_inst (FillSelfAndNeighGraphBlock self_name neigh_name level_nodes
             level_neighs indexings b).

(** Modelled from the spec: [FillEdgeAndLabel] of
    [src/model/data_flow/neighbor_aggregation_flow.h] lies outside this
    translation unit.  It fills the edge-endpoint index tensors and the
    label tensor for the sources, destinations and negatives, using the
    given index functions for the endpoints; how the resolved indices are
    laid out is the flow's own business ([EdgeAndLabelLayout]). *)
Definition flow_FillEdgeAndLabel (src_name dst_name y_name : string)
    (src dst : list Z) (negs : list (list Z))
    (src_index_func dst_index_func : Z → outcome Z) : M unit :=
  emit (CallFillEdgeAndLabel src dst negs);;
  src_index ← lift (for_each src_index_func src);
  dst_index ← lift (for_each dst_index_func dst);
  neg_index ← lift (for_each (for_each dst_index_func) negs);
  on_inst (EdgeAndLabelLayout src_name dst_name y_name src_index dst_index
             neg_index).

(** Modelled from the spec: [inst_util::CreateIndexings] of
    [src/model/instance_reader_util.h] lies outside this translation unit.
    It builds one fresh table per hop level from the level's node set,
    indices following the order in which the set is traversed. *)
Definition CreateIndexing (s : gset Z) : Indexing :=
  {| index_keys := iteration_order s |}.
Definition CreateIndexings (level_nodes : list (gset Z)) : list Indexing :=
  CreateIndexing <$> level_nodes.

(** *** The translation unit *)

Definition USER_ENCODER_NAME : string := "USER_ENCODER_NAME".
Definition ITEM_ENCODER_NAME : string := "ITEM_ENCODER_NAME".

(** [ParseUserAndItemFrom]: the two output vectors are passed in and
    handed back, each node appended to at most one of them. *)
Fixpoint ParseUserAndItemFrom (nodes : list Z) (user_group item_group : Z)
    (user_nodes item_nodes : list Z) : M (list Z * list Z) :=
  match nodes with
  | [] => mret (user_nodes, item_nodes)
  | n :: nodes' =>
    let group := GetNodeType n in
    if group =? user_group then
      ParseUserAndItemFrom nodes' user_group item_group (user_nodes ++ [n])
        item_nodes
    else if group =? item_group then
      ParseUserAndItemFrom nodes' user_group item_group user_nodes
        (item_nodes ++ [n])
    else
      DXERROR_invalid_node n group user_group item_group;;
      ParseUserAndItemFrom nodes' user_group item_group user_nodes item_nodes
  end.

(** The loop of [GetTrainBatch] over [neg_nodes_list_]. *)
Fixpoint ParseUserAndItemFrom_each (lists : list (list Z))
    (user_group item_group : Z) (user_nodes item_nodes : list Z) :
    M (list Z * list Z) :=
  match lists with
  | [] => mret (user_nodes, item_nodes)
  | neg_nodes :: lists' =>
    '(user_nodes', item_nodes') ←
      ParseUserAndItemFrom neg_nodes user_group item_group user_nodes item_nodes;
    ParseUserAndItemFrom_each lists' user_group item_group user_nodes' item_nodes'
  end.

(** The [indexings] argument of [FillInstance] points at one of the two
    members. *)
Inductive indexings_ptr := to_user_indexings_ | to_item_indexings_.

Definition store_indexings (p : indexings_ptr) (v : list Indexing) : M unit :=
  match p with
  | to_user_indexings_ => on_reader (set_user_indexings_ v)
  | to_item_indexings_ => on_reader (set_item_indexings_ v)
  end.

Definition FillInstance (encoder_name : string) (nodes num_neighbors : list Z)
    (indexings : indexings_ptr) : M unit :=
  (* Sample subgraph *)
  '(level_nodes, level_neighs) ← flow_SampleSubGraph nodes num_neighbors;
  (* Fill node feature *)
  flow_FillLevelNodeFeature (X_NODE_FEATURE_NAME +:+ encoder_name) level_nodes;;
  (* Fill neighbor feature *)
  use_neigh_feat ← gets use_neigh_feat_;
  (if use_neigh_feat : bool
   then flow_FillLevelNeighFeature (X_NEIGH_FEATURE_NAME +:+ encoder_name)
          level_nodes
   else mret tt);;
  (* Fill self and neighbor block *)
  let tables := CreateIndexings level_nodes in
  store_indexings indexings tables;;
  flow_FillSelfAndNeighGraphBlock (X_SELF_BLOCK_NAME +:+ encoder_name)
    (X_NEIGH_BLOCK_NAME +:+ encoder_name) level_nodes level_neighs tables false.

(** The lambda [index_func] of [GetTrainBatch]; both [return]s have the
    type [int_t]. *)
Definition index_func (this : UnsupBipartiteInstReader) (n : Z) : outcome Z :=
  let group := GetNodeType n in
  if group =? user_ns_id_ this then
    user0 ← at_index (user_indexings_ this) 0;
    let index := Indexing_Get user0 n in
    DXCHECK (0 <=? index);;
    mret (to_int_t index)
  else
    item0 ← at_index (item_indexings_ this) 0;
    let index := Indexing_Get item0 n in
    DXCHECK (0 <=? index);;
    user0 ← at_index (user_indexings_ this) 0;
    mret (add_u64 (to_int_t index) (Indexing_Size user0)).

(** The member [Index]: the same two [return] expressions, converted to
    the declared result type [int]. *)
Definition Index (this : UnsupBipartiteInstReader) (n : Z) : outcome Z :=
  let group := GetNodeType n in
  if group =? user_ns_id_ this then
    user0 ← at_index (user_indexings_ this) 0;
    let index := Indexing_Get user0 n in
    DXCHECK (0 <=? index);;
    mret (to_int (to_int_t index))
  else
    item0 ← at_index (item_indexings_ this) 0;
    let index := Indexing_Get item0 n in
    DXCHECK (0 <=? index);;
    user0 ← at_index (user_indexings_ this) 0;
    mret (to_int (add_u64 (to_int_t index) (Indexing_Size user0))).

(** A write through [id_ptr], the pointer [FillIndex] holds to the slot
    [name] of the instance: the slot changes in place, so what is written
    stays in the instance when a later check fails. *)
Definition through_id_ptr (name : string) (f : csr_t → csr_t) : M unit :=
  on_inst (λ i, put_csr name (f (get_or_insert_csr name i)) i).

(** The loop of [FillIndex]: one row per node, holding the node's index.
    [Index(node)] is evaluated before [emplace] is entered. *)
Fixpoint FillIndex_rows (name : string) (nodes : list Z) : M unit :=
  match nodes with
  | [] => mret tt
  | node :: nodes' =>
    this ← gets id;
    index ← lift (Index this node);
    through_id_ptr name (csr_emplace index 1);;
    through_id_ptr name csr_add_row;;
    FillIndex_rows name nodes'
  end.

Definition FillIndex (name : string) (nodes : list Z) : M unit :=
  (* auto* id_ptr = &inst->get_or_insert<csr_t>(name); *)
  through_id_ptr name (λ id_, id_);;
  through_id_ptr name csr_clear;;
  FillIndex_rows name nodes.

(** [GetTrainBatch], lines 131-151: from the collected endpoints to the
    two filled encoders.  Hands back the local vectors [user_nodes] and
    [item_nodes]. *)
Definition GetTrainBatch_indexed (values : list EdgeValue) : M (list Z * list Z) :=
  on_reader (set_src_nodes_ (Collect values src_node));;
  on_reader (set_dst_nodes_ (Collect values dst_node));;
  num_neg ← gets num_neg_;
  dst_nodes ← gets dst_nodes_;
  sampled ← graph_client_SharedSampleNegative num_neg dst_nodes dst_nodes;
  lift (DXCHECK sampled);;
  (* Parse user and item node from src, dst and neg nodes *)
  src_nodes ← gets src_nodes_;
  neg_nodes_list ← gets neg_nodes_list_;
  user_ns_id ← gets user_ns_id_;
  item_ns_id ← gets item_ns_id_;
  '(user_nodes, item_nodes) ←
    ParseUserAndItemFrom src_nodes user_ns_id item_ns_id [] [];
  '(user_nodes, item_nodes) ←
    ParseUserAndItemFrom dst_nodes user_ns_id item_ns_id user_nodes item_nodes;
  '(user_nodes, item_nodes) ←
    ParseUserAndItemFrom_each neg_nodes_list user_ns_id item_ns_id
      user_nodes item_nodes;
  (* Fill instance *)
  num_neighbors ← gets num_neighbors_;
  FillInstance USER_ENCODER_NAME user_nodes num_neighbors to_user_indexings_;;
  FillInstance ITEM_ENCODER_NAME item_nodes num_neighbors to_item_indexings_;;
  mret (user_nodes, item_nodes).

(** [GetTrainBatch], lines 153-172: edges, labels and the batch size. *)
Definition GetTrainBatch_edges : M bool :=
  this ← gets id;
  src_nodes ← gets src_nodes_;
  dst_nodes ← gets dst_nodes_;
  neg_nodes_list ← gets neg_nodes_list_;
  flow_FillEdgeAndLabel X_SRC_ID_NAME X_DST_ID_NAME Y_NAME src_nodes dst_nodes
    neg_nodes_list (index_func this) (index_func this);;
  on_inst (set_batch (to_int (Z.of_nat (length src_nodes))));;
  mret true.

Definition GetTrainBatch : M bool :=
  batch ← gets batch_;
  values ← line_parser_NextBatch_EdgeValue batch;
  match values with
  | None =>
    line_parser_Close;;
    on_inst clear_batch;;
    mret false
  | Some values =>
    GetTrainBatch_indexed values;;
    GetTrainBatch_edges
  end.

(** [GetPredictBatch], lines 186-197. *)
Definition GetPredictBatch_indexed (values : list NodeValue) :
    M (list Z * list Z) :=
  on_reader (set_src_nodes_ (Collect values node));;
  (* Parse user and item nodes from src nodes *)
  src_nodes ← gets src_nodes_;
  user_ns_id ← gets user_ns_id_;
  item_ns_id ← gets item_ns_id_;
  '(user_nodes, item_nodes) ←
    ParseUserAndItemFrom src_nodes user_ns_id item_ns_id [] [];
  (* Fill instance *)
  num_neighbors ← gets num_neighbors_;
  FillInstance USER_ENCODER_NAME user_nodes num_neighbors to_user_indexings_;;
  FillInstance ITEM_ENCODER_NAME item_nodes num_neighbors to_item_indexings_;;
  mret (user_nodes, item_nodes).

(** [GetPredictBatch], lines 199-208. *)
Definition GetPredictBatch_index : M bool :=
  src_nodes ← gets src_nodes_;
  (* Fill index *)
  FillIndex X_SRC_ID_NAME src_nodes;;
  (* set predict nodes *)
  on_inst (put_vec X_PREDICT_NODE_NAME src_nodes);;
  on_inst (set_batch (to_int (Z.of_nat (length src_nodes))));;
  mret true.

Definition GetPredictBatch : M bool :=
  batch ← gets batch_;
  values ← line_parser_NextBatch_NodeValue batch;
  match values with
  | None =>
    line_parser_Close;;
    on_inst clear_batch;;
    mret false
  | Some values =>
    GetPredictBatch_indexed values;;
    GetPredictBatch_index
  end.

Definition GetBatch : M bool :=
  is_train ← gets is_train_;
  if is_train : bool then GetTrainBatch else GetPredictBatch.

(** *** Vocabulary of the statements *)

(** The nodes of a sequence that the classifier sends to the user list, to
    the item list, and the diagnostics for the others. *)
Definition users_of (user_group : Z) (nodes : list Z) : list Z :=
  filter (λ n, GetNodeType n = user_group) nodes.
Definition items_of (user_group item_group : Z) (nodes : list Z) : list Z :=
  filter (λ n, GetNodeType n ≠ user_group ∧ GetNodeType n = item_group) nodes.
Definition invalid_of (user_group item_group : Z) (nodes : list Z) : list Z :=
  filter (λ n, GetNodeType n ≠ user_group ∧ GetNodeType n ≠ item_group) nodes.
Definition invalid_log (user_group item_group : Z) (nodes : list Z) : list Event :=
  (λ n, LogInvalidNode n (GetNodeType n) user_group item_group)
    <$> invalid_of user_group item_group nodes.

(** The flat indices of the nodes before the first one that [f] does not
    resolve: what a loop over [nodes] gets through before it stops. *)
Fixpoint resolved_prefix (f : Z → outcome Z) (nodes : list Z) : list Z :=
  match nodes with
  | [] => []
  | n :: nodes' =>
    match f n with
    | Done i => i :: resolved_prefix f nodes'
    | _ => []
    end
  end.

(** The index tensor with one closed row per flat index. *)
Definition index_rows (flat : list Z) : csr_t :=
  {| csr_rows := (λ i, [(i, 1)]) <$> flat; csr_open := [] |}.

(** The world after more events. *)
Definition log_events (es : list Event) (w : World) : World :=
  {| reader := reader w; inst := inst w; trace := trace w ++ es |}.

(** [m] is a merge of [l] and [r] that keeps the order within each: a
    stable partition of [m] has this shape. *)
Inductive Interleave : list Z → list Z → list Z → Prop :=
| Interleave_nil : Interleave [] [] []
| Interleave_left x l r m : Interleave l r m → Interleave (x :: l) r (x :: m)
| Interleave_right x l r m : Interleave l r m → Interleave l (x :: r) (x :: m).

(** The table the unified index consults for a node. *)
Definition consulted (this : UnsupBipartiteInstReader) (user0 item0 : Indexing)
    (n : Z) : Indexing :=
  if GetNodeType n =? user_ns_id_ this then user0 else item0.

(** Every index of the table fits the result type [int] of [Get]. *)
Definition int_indexed (t : Indexing) : Prop := Indexing_Size t ≤ INT_MAX + 1.

(** A request for negative samples. *)
Definition is_negative_request (e : Event) : bool :=
  match e with
  | CallSharedSampleNegative _ _ _ => true
  | _ => false
  end.

(** What [FillInstance] leaves behind. *)
Definition assign_indexings (p : indexings_ptr) (v : list Indexing)
    (this : UnsupBipartiteInstReader) : UnsupBipartiteInstReader :=
  match p with
  | to_user_indexings_ => set_user_indexings_ v this
  | to_item_indexings_ => set_item_indexings_ v this
  end.

Definition FillInstance_events (encoder_name : string) (nodes num_neighbors : list Z)
    (use_neigh_feat : bool) : list Event :=
  [CallSampleSubGraph nodes num_neighbors;
   CallFillLevelNodeFeature (X_NODE_FEATURE_NAME +:+ encoder_name)]
  ++ (if use_neigh_feat
      then [CallFillLevelNeighFeature (X_NEIGH_FEATURE_NAME +:+ encoder_name)]
      else [])
  ++ [CallFillSelfAndNeighGraphBlock (X_SELF_BLOCK_NAME +:+ encoder_name)
        (X_NEIGH_BLOCK_NAME +:+ encoder_name)].

Definition FillInstance_world (encoder_name : string) (nodes num_neighbors : list Z)
    (p : indexings_ptr) (w : World) : World :=
  let sub := SampleSubGraph nodes num_neighbors in
  let tables := CreateIndexings sub.1 in
  let i1 := FillLevelNodeFeature (X_NODE_FEATURE_NAME +:+ encoder_name) sub.1 (inst w) in
  let i2 := if use_neigh_feat_ (reader w)
            then FillLevelNeighFeature (X_NEIGH_FEATURE_NAME +:+ encoder_name) sub.1 i1
            else i1 in
  {| reader := assign_indexings p tables (reader w);
     inst := FillSelfAndNeighGraphBlock (X_SELF_BLOCK_NAME +:+ encoder_name)
               (X_NEIGH_BLOCK_NAME +:+ encoder_name) sub.1 sub.2 tables false i2;
     trace := trace w
              ++ FillInstance_events encoder_name nodes num_neighbors
                   (use_neigh_feat_ (reader w)) |}.
(** What lines 131-151 of [GetTrainBatch] leave behind when the sampler
    answers [negs]. *)
Definition GetTrainBatch_indexed_world (values : list EdgeValue)
    (negs : list (list Z)) (w : World) : World :=
  let src := Collect values src_node in
  let dst := Collect values dst_node in
  let all := src ++ dst ++ concat negs in
  let user_group := user_ns_id_ (reader w) in
  let item_group := item_ns_id_ (reader w) in
  let w1 :=
    {| reader := set_neg_nodes_list_ negs
                   (set_dst_nodes_ dst (set_src_nodes_ src (reader w)));
       inst := inst w;
       trace := trace w
                ++ CallSharedSampleNegative (num_neg_ (reader w)) dst dst
                   :: invalid_log user_group item_group all |} in
  FillInstance_world ITEM_ENCODER_NAME (items_of user_group item_group all)
    (num_neighbors_ (reader w)) to_item_indexings_
    (FillInstance_world USER_ENCODER_NAME (users_of user_group all)
       (num_neighbors_ (reader w)) to_user_indexings_ w1).

(** What lines 186-197 of [GetPredictBatch] leave behind. *)
Definition GetPredictBatch_indexed_world (values : list NodeValue) (w : World) :
    World :=
  let src := Collect values node in
  let user_group := user_ns_id_ (reader w) in
  let item_group := item_ns_id_ (reader w) in
  let w1 :=
    {| reader := set_src_nodes_ src (reader w);
       inst := inst w;
       trace := trace w ++ invalid_log user_group item_group src |} in
  FillInstance_world ITEM_ENCODER_NAME (items_of user_group item_group src)
    (num_neighbors_ (reader w)) to_item_indexings_
    (FillInstance_world USER_ENCODER_NAME (users_of user_group src)
       (num_neighbors_ (reader w)) to_user_indexings_ w1).
(** The world once the line parser has answered a request for a batch. *)
Definition after_NextBatch (lp : LineParser) (w : World) : World :=
  {| reader := set_line_parser_ lp (reader w);
     inst := inst w;
     trace := trace w ++ [CallNextBatch (batch_ (reader w))] |}.

(** The world at the end of the stream: source closed, instance empty. *)
Definition end_of_stream (lp : LineParser) (w : World) : World :=
  {| reader := set_line_parser_ (Close lp) (reader w);
     inst := clear_batch (inst w);
     trace := trace w ++ [CallNextBatch (batch_ (reader w)); CallClose] |}.
End Reader.

(** ** A concrete set of collaborators

    Used to run the reader on examples: the type tag sits in the upper 16
    bits of a node identifier, the record source is a list of pending
    records, a subgraph is its seed set at every level, and the flow writes
    one single-entry row per resolved endpoint. *)

Module Demo.

Record Source := {
  pending_edges : list EdgeValue;
  pending_nodes : list NodeValue;
  is_open : bool
}.

Definition next_edges (batch : Z) (s : Source) : option (list EdgeValue) * Source :=
  match take (Z.to_nat batch) (pending_edges s) with
  | [] => (None, s)
  | values =>
    (Some values,
     {| pending_edges := drop (Z.to_nat batch) (pending_edges s);
        pending_nodes := pending_nodes s; is_open := is_open s |})
  end.

Definition next_nodes (batch : Z) (s : Source) : option (list NodeValue) * Source :=
  match take (Z.to_nat batch) (pending_nodes s) with
  | [] => (None, s)
  | values =>
    (Some values,
     {| pending_edges := pending_edges s;
        pending_nodes := drop (Z.to_nat batch) (pending_nodes s);
        is_open := is_open s |})
  end.

Definition close (s : Source) : Source :=
  {| pending_edges := pending_edges s; pending_nodes := pending_nodes s;
     is_open := false |}.

Definition node_type (n : Z) : Z := Z.shiftr n 48 `mod` 2 ^ 16.

(** Every anchor receives the first [count] nodes of the pool. *)
Definition from_pool (count : Z) (nodes pool : list Z) : option (list (list Z)) :=
  Some ((λ _, take (Z.to_nat count) pool) <$> nodes).

(** Every anchor receives [count] copies of one fixed node. *)
Definition from_corpus (n : Z) (count : Z) (nodes pool : list Z) :
    option (list (list Z)) :=
  Some ((λ _, replicate (Z.to_nat count) n) <$> nodes).

Definition sample_subgraph (nodes num_neighbors : list Z) :
    list (gset Z) * list unit :=
  (list_to_set nodes :: ((λ _, list_to_set nodes) <$> num_neighbors),
   (λ _, tt) <$> num_neighbors).

Definition one_per_row (cols : list Z) : csr_t :=
  {| csr_rows := (λ c, [(c, 1)]) <$> cols; csr_open := [] |}.

(** One row for the positive edge, then one per negative of that edge. *)
Definition edge_rows (src dst : list Z) (negs : list (list Z)) :
    list Z * list Z * list Z :=
  let per_edge := zip (zip src dst) negs in
  (concat ((λ e, replicate (S (length e.2)) e.1.1) <$> per_edge),
   concat ((λ e, e.1.2 :: e.2) <$> per_edge),
   concat ((λ e, 1 :: replicate (length e.2) 0) <$> per_edge)).

Definition edge_layout (src_name dst_name y_name : string) (src dst : list Z)
    (negs : list (list Z)) (i : Instance (list string)) : Instance (list string) :=
  let '(s, d, y) := edge_rows src dst negs in
  put_vec y_name y (put_csr dst_name (one_per_row d)
                      (put_csr src_name (one_per_row s) i)).

Definition note (name : string) (i : Instance (list string)) :
    Instance (list string) :=
  {| inst_batch := inst_batch i; inst_csr := inst_csr i; inst_vec := inst_vec i;
     inst_flow := inst_flow i ++ [name] |}.

Definition collaborators
    (sampler : Z → list Z → list Z → option (list (list Z))) : Collaborators :=
  {| GetNodeType := node_type;
     X_SRC_ID_NAME := "X_SRC_ID";
     X_DST_ID_NAME := "X_DST_ID";
     Y_NAME := "Y";
     X_PREDICT_NODE_NAME := "X_PREDICT_NODE";
     X_NODE_FEATURE_NAME := "X_NODE_FEATURE_";
     X_NEIGH_FEATURE_NAME := "X_NEIGH_FEATURE_";
     X_SELF_BLOCK_NAME := "X_SELF_BLOCK_";
     X_NEIGH_BLOCK_NAME := "X_NEIGH_BLOCK_";
     LineParser := Source;
     NextBatch_EdgeValue := next_edges;
     NextBatch_NodeValue := next_nodes;
     Close := close;
     SharedSampleNegative := sampler;
     FlowData := list string;
     map_neigh_t := unit;
     SampleSubGraph := sample_subgraph;
     iteration_order := elements;
     FillLevelNodeFeature := λ name _, note name;
     FillLevelNeighFeature := λ name _, note name;
     FillSelfAndNeighGraphBlock := λ self neigh _ _ _ _ i, note neigh (note self i);
     EdgeAndLabelLayout := edge_layout |}.

(** Nodes: two users, two items and one node of an unregistered type. *)
Definition U1 : Z := 1.
Definition U2 : Z := 2.
Definition U3 : Z := 3.
Definition I1 : Z := 2 ^ 48 + 1.
Definition I5 : Z := 2 ^ 48 + 5.
Definition X9 : Z := 2 * 2 ^ 48 + 9.

Definition empty_instance : Instance (list string) :=
  {| inst_batch := 0; inst_csr := ∅; inst_vec := ∅; inst_flow := [] |}.

Definition fresh_reader `{C : Collaborators} (train : bool) (batch : Z)
    (lp : LineParser) (num_neg : Z) : UnsupBipartiteInstReader :=
  {| is_train_ := train; num_neg_ := num_neg; num_neighbors_ := [2];
     use_neigh_feat_ := false; user_ns_id_ := 0; item_ns_id_ := 1;
     batch_ := batch; line_parser_ := lp;
     src_nodes_ := []; dst_nodes_ := []; neg_nodes_list_ := [];
     user_indexings_ := []; item_indexings_ := [] |}.

Definition source (edges : list (Z * Z)) (nodes : list Z) : Source :=
  {| pending_edges := (λ e, {| src_node := e.1; dst_node := e.2 |}) <$> edges;
     pending_nodes := (λ n, {| node := n |}) <$> nodes;
     is_open := true |}.

Definition world (sampler : Z → list Z → list Z → option (list (list Z)))
    (train : bool) (batch : Z) (edges : list (Z * Z)) (nodes : list Z)
    (num_neg : Z) : @World (collaborators sampler) :=
  {| reader := @fresh_reader (collaborators sampler) train batch
                 (source edges nodes) num_neg;
     inst := empty_instance; trace := [] |}.

(** The two sets of collaborators of the examples: a sampler that draws
    from its pool, and one that answers the unregistered node. *)
Definition pool : Collaborators := collaborators from_pool.
Definition corpus : Collaborators := collaborators (from_corpus X9).

(** A reader in the middle of a batch: both level-0 tables are built. *)
Definition indexed_reader : @UnsupBipartiteInstReader pool :=
  @Build_UnsupBipartiteInstReader pool true 1 [2] false 0 1 32 (source [] [])
    [U1; U2] [I1; I1] [[I1]; [I1]]
    [{| index_keys := [U2; U1] |}] [{| index_keys := [I1] |}].

Definition indexed_world : @World pool :=
  @Build_World pool indexed_reader empty_instance [].

Definition train_edges : list EdgeValue :=
  [{| src_node := U1; dst_node := I1 |}; {| src_node := U2; dst_node := I1 |}].
(** A reader whose user table holds the [2^31] users [0 .. 2^31 - 1]: the
    largest table whose indices are still [int]s. *)
Definition full_users : Indexing := {| index_keys := seqZ 0 (2 ^ 31) |}.

Definition full_reader : @UnsupBipartiteInstReader pool :=
  @Build_UnsupBipartiteInstReader pool false 1 [2] false 0 1 32 (source [] [])
    [I1] [] [] [full_users] [{| index_keys := [I1] |}].

Definition full_world : @World pool :=
  @Build_World pool full_reader empty_instance [].
End Demo.

(** * Configuration

    [InitConfigKV] of the reader.  It parses numbers with [std::stoi] and
    leaves two jobs to code outside this translation unit: the keys of the
    base class, and the splitting of a comma-separated list. *)

(** ** [std::stoi]

    The base-10 conversion of the C++ standard library: leading white
    space is skipped, an optional sign is read, then as many decimal digits
    as follow; whatever comes after them is ignored.  Without a digit the
    call throws [invalid_argument]; a value outside [int] throws
    [out_of_range]. *)

Definition INT_MIN : Z := - 2 ^ 31.

Inductive stoi_error := invalid_argument | out_of_range.

Inductive stoi_result :=
| Parsed (val : Z)
| Throws (e : stoi_error).

Definition isspace (c : Ascii.ascii) : bool :=
  let n := Ascii.nat_of_ascii c in
  ((n =? 32) || ((9 <=? n) && (n <=? 13)))%nat.

Definition digit_of (c : Ascii.ascii) : option Z :=
  let n := Z.of_nat (Ascii.nat_of_ascii c) in
  if (48 <=? n) && (n <=? 57) then Some (n - 48) else None.

Fixpoint skip_space (s : string) : string :=
  match s with
  | String c s' => if isspace c then skip_space s' else s
  | EmptyString => s
  end.

Fixpoint read_digits (s : string) (acc : Z) : Z :=
  match s with
  | String c s' =>
    match digit_of c with
    | Some d => read_digits s' (10 * acc + d)
    | None => acc
    end
  | EmptyString => acc
  end.

Definition read_sign (s : string) : bool * string :=
  match s with
  | String c s' =>
    if (Ascii.nat_of_ascii c =? 45)%nat then (* - *) (true, s')
    else if (Ascii.nat_of_ascii c =? 43)%nat then (* + *) (false, s')
    else (false, s)
  | EmptyString => (false, s)
  end.

Definition stoi (v : string) : stoi_result :=
  let '(negative, digits) := read_sign (skip_space v) in
  match digits with
  | String c _ =>
    match digit_of c with
    | Some _ =>
      let magnitude := read_digits digits 0 in
      let val := if negative then - magnitude else magnitude in
      if (INT_MIN <=? val) && (val <=? INT_MAX) then Parsed val
      else Throws out_of_range
    | None => Throws invalid_argument
    end
  | EmptyString => Throws invalid_argument
  end.

(** Conversion of an [int] to [uint16_t] and to [bool]. *)
Definition to_uint16 (x : Z) : Z := x mod 2 ^ 16.
Definition to_bool (x : Z) : bool := negb (x =? 0).

(** ** The reader's configuration members *)

Section Configuration.
Context `{Collab : Collaborators}.

Definition set_is_train_ (v : bool) (this : UnsupBipartiteInstReader) :
    UnsupBipartiteInstReader :=
  {| is_train_ := v; num_neg_ := num_neg_ this;
     num_neighbors_ := num_neighbors_ this;
     use_neigh_feat_ := use_neigh_feat_ this;
     user_ns_id_ := user_ns_id_ this; item_ns_id_ := item_ns_id_ this;
     batch_ := batch_ this; line_parser_ := line_parser_ this;
     src_nodes_ := src_nodes_ this; dst_nodes_ := dst_nodes_ this;
     neg_nodes_list_ := neg_nodes_list_ this;
     user_indexings_ := user_indexings_ this;
     item_indexings_ := item_indexings_ this |}.

Definition set_num_neg_ (v : Z) (this : UnsupBipartiteInstReader) :
    UnsupBipartiteInstReader :=
  {| is_train_ := is_train_ this; num_neg_ := v;
     num_neighbors_ := num_neighbors_ this;
     use_neigh_feat_ := use_neigh_feat_ this;
     user_ns_id_ := user_ns_id_ this; item_ns_id_ := item_ns_id_ this;
     batch_ := batch_ this; line_parser_ := line_parser_ this;
     src_nodes_ := src_nodes_ this; dst_nodes_ := dst_nodes_ this;
     neg_nodes_list_ := neg_nodes_list_ this;
     user_indexings_ := user_indexings_ this;
     item_indexings_ := item_indexings_ this |}.

Definition set_num_neighbors_ (v : list Z) (this : UnsupBipartiteInstReader) :
    UnsupBipartiteInstReader :=
  {| is_train_ := is_train_ this; num_neg_ := num_neg_ this;
     num_neighbors_ := v; use_neigh_feat_ := use_neigh_feat_ this;
     user_ns_id_ := user_ns_id_ this; item_ns_id_ := item_ns_id_ this;
     batch_ := batch_ this; line_parser_ := line_parser_ this;
     src_nodes_ := src_nodes_ this; dst_nodes_ := dst_nodes_ this;
     neg_nodes_list_ := neg_nodes_list_ this;
     user_indexings_ := user_indexings_ this;
     item_indexings_ := item_indexings_ this |}.

Definition set_use_neigh_feat_ (v : bool) (this : UnsupBipartiteInstReader) :
    UnsupBipartiteInstReader :=
  {| is_train_ := is_train_ this; num_neg_ := num_neg_ this;
     num_neighbors_ := num_neighbors_ this; use_neigh_feat_ := v;
     user_ns_id_ := user_ns_id_ this; item_ns_id_ := item_ns_id_ this;
     batch_ := batch_ this; line_parser_ := line_parser_ this;
     src_nodes_ := src_nodes_ this; dst_nodes_ := dst_nodes_ this;
     neg_nodes_list_ := neg_nodes_list_ this;
     user_indexings_ := user_indexings_ this;
     item_indexings_ := item_indexings_ this |}.

Definition set_user_ns_id_ (v : Z) (this : UnsupBipartiteInstReader) :
    UnsupBipartiteInstReader :=
  {| is_train_ := is_train_ this; num_neg_ := num_neg_ this;
     num_neighbors_ := num_neighbors_ this;
     use_neigh_feat_ := use_neigh_feat_ this; user_ns_id_ := v;
     item_ns_id_ := item_ns_id_ this; batch_ := batch_ this;
     line_parser_ := line_parser_ this; src_nodes_ := src_nodes_ this;
     dst_nodes_ := dst_nodes_ this; neg_nodes_list_ := neg_nodes_list_ this;
     user_indexings_ := user_indexings_ this;
     item_indexings_ := item_indexings_ this |}.

Definition set_item_ns_id_ (v : Z) (this : UnsupBipartiteInstReader) :
    UnsupBipartiteInstReader :=
  {| is_train_ := is_train_ this; num_neg_ := num_neg_ this;
     num_neighbors_ := num_neighbors_ this;
     use_neigh_feat_ := use_neigh_feat_ this;
     user_ns_id_ := user_ns_id_ this; item_ns_id_ := v;
     batch_ := batch_ this; line_parser_ := line_parser_ this;
     src_nodes_ := src_nodes_ this; dst_nodes_ := dst_nodes_ this;
     neg_nodes_list_ := neg_nodes_list_ this;
     user_indexings_ := user_indexings_ this;
     item_indexings_ := item_indexings_ this |}.

Definition set_batch_ (v : Z) (this : UnsupBipartiteInstReader) :
    UnsupBipartiteInstReader :=
  {| is_train_ := is_train_ this; num_neg_ := num_neg_ this;
     num_neighbors_ := num_neighbors_ this;
     use_neigh_feat_ := use_neigh_feat_ this;
     user_ns_id_ := user_ns_id_ this; item_ns_id_ := item_ns_id_ this;
     batch_ := v; line_parser_ := line_parser_ this;
     src_nodes_ := src_nodes_ this; dst_nodes_ := dst_nodes_ this;
     neg_nodes_list_ := neg_nodes_list_ this;
     user_indexings_ := user_indexings_ this;
     item_indexings_ := item_indexings_ this |}.

(** The members as their initialisers leave them. *)
Definition new_reader (batch : Z) (lp : LineParser) : UnsupBipartiteInstReader :=
  {| is_train_ := true; num_neg_ := 5; num_neighbors_ := [];
     use_neigh_feat_ := false; user_ns_id_ := 0; item_ns_id_ := 1;
     batch_ := batch; line_parser_ := lp;
     src_nodes_ := []; dst_nodes_ := []; neg_nodes_list_ := [];
     user_indexings_ := []; item_indexings_ := [] |}.

(** What a call may end in, and what it writes to the log. *)
Inductive config_outcome :=
| Returned (b : bool)
| CheckAborted                (* a DXCHECK did not hold *)
| Thrown (e : stoi_error).    (* [std::stoi] threw *)

Inductive ConfigLog :=
| LogUnexpectedConfig (k v : string)
| LogInstanceReaderArgument (k v : string).

(** The code [InitConfigKV] calls but does not define:
    [InstanceReaderImpl::InitConfigKV], which sees the members of the base
    class only ([batch_] and [line_parser_] here) and answers whether the key
    was its own, and [deepx_core::Split<int>], which writes through its
    output pointer and answers whether the list was well formed. *)
Class ConfigCollaborators := {
  InstanceReaderImpl_InitConfigKV :
    string → string → Z * LineParser → bool * (Z * LineParser);
  Split_int : string → string → list Z → bool * list Z
}.

Context `{Config : ConfigCollaborators}.

(** The common exit: [DXINFO("Instance reader argument: ...")],
    [return true]. *)
Definition accepted (k v : string) (this : UnsupBipartiteInstReader) :
    config_outcome * UnsupBipartiteInstReader * list ConfigLog :=
  (Returned true, this, [LogInstanceReaderArgument k v]).

Definition InitConfigKV (k v : string) (this : UnsupBipartiteInstReader) :
    config_outcome * UnsupBipartiteInstReader * list ConfigLog :=
  let '(handled, (batch, lp)) :=
    InstanceReaderImpl_InitConfigKV k v (batch_ this, line_parser_ this) in
  let this := set_line_parser_ lp (set_batch_ batch this) in
  if handled then accepted k v this
  else if decide (k = "is_train") then
    match stoi v with
    | Parsed val =>
      if (val =? 1) || (val =? 0)
      then accepted k v (set_is_train_ (to_bool val) this)
      else (CheckAborted, this, [])
    | Throws e => (Thrown e, this, [])
    end
  else if decide (k = "num_neg") then
    match stoi v with
    | Parsed val =>
      let this := set_num_neg_ val this in
      if 0 <? num_neg_ this then accepted k v this else (CheckAborted, this, [])
    | Throws e => (Thrown e, this, [])
    end
  else if decide (k = "num_neighbors") then
    let '(well_formed, num_neighbors) := Split_int v "," (num_neighbors_ this) in
    let this := set_num_neighbors_ num_neighbors this in
    if well_formed then accepted k v this else (CheckAborted, this, [])
  else if decide (k = "use_neigh_feat") then
    match stoi v with
    | Parsed val =>
      if (val =? 1) || (val =? 0)
      then accepted k v (set_use_neigh_feat_ (to_bool val) this)
      else (CheckAborted, this, [])
    | Throws e => (Thrown e, this, [])
    end
  else if decide (k = "user_ns_id") then
    match stoi v with
    | Parsed val => accepted k v (set_user_ns_id_ (to_uint16 val) this)
    | Throws e => (Thrown e, this, [])
    end
  else if decide (k = "item_ns_id") then
    match stoi v with
    | Parsed val => accepted k v (set_item_ns_id_ (to_uint16 val) this)
    | Throws e => (Thrown e, this, [])
    end
  else (Returned false, this, [LogUnexpectedConfig k v]).

(** The readers that calls of [InitConfigKV] can make of a new one. *)
Inductive configured : UnsupBipartiteInstReader → Prop :=
| configured_new batch lp : configured (new_reader batch lp)
| configured_step k v this b this' log :
    configured this →
    InitConfigKV k v this = (Returned b, this', log) →
    configured this'.

(** The ranges of the configuration members. *)
Definition config_in_range (this : UnsupBipartiteInstReader) : Prop :=
  0 < num_neg_ this ≤ INT_MAX
  ∧ 0 ≤ user_ns_id_ this < 2 ^ 16
  ∧ 0 ≤ item_ns_id_ this < 2 ^ 16.

(** The keys this reader handles itself. *)
Definition own_keys : list string :=
  ["is_train"; "num_neg"; "num_neighbors"; "use_neigh_feat"; "user_ns_id";
   "item_ns_id"].

End Configuration.

(** ** Members that a batch fills anew

    [src_nodes_], [dst_nodes_], [neg_nodes_list_] and the two lists of
    tables are members of the reader only so that their storage is reused:
    [GetTrainBatch] assigns each of them before it reads it. *)

Section Scratch.
Context `{Collab : Collaborators}.


(** The requests that only [GetTrainBatch] makes. *)
Definition is_training_request (e : Event) : bool :=
  match e with
  | CallSharedSampleNegative _ _ _ | CallFillEdgeAndLabel _ _ _ => true
  | _ => false
  end.
End Scratch.

(** ** Concrete configuration collaborators

    Used to run [InitConfigKV] on examples: the base class handles the key
    [batch], and a list is split at its commas, each piece read by
    [std::stoi]. *)

Module DemoConfig.

Definition base_keys (k v : string) (members : Z * Demo.Source) :
    bool * (Z * Demo.Source) :=
  if decide (k = "batch") then
    match stoi v with
    | Parsed batch => (true, (batch, members.2))
    | Throws _ => (false, members)
    end
  else (false, members).

Fixpoint split_commas (s cur : string) : list string :=
  match s with
  | EmptyString => [cur]
  | String c s' =>
    if (Ascii.nat_of_ascii c =? 44)%nat then cur :: split_commas s' ""
    else split_commas s' (cur +:+ String c "")
  end.

Definition parsed (r : stoi_result) : option Z :=
  match r with
  | Parsed val => Some val
  | Throws _ => None
  end.

Definition split_int (v sep : string) (old : list Z) : bool * list Z :=
  match mapM (λ piece, parsed (stoi piece)) (split_commas v "") with
  | Some values => (true, values)
  | None => (false, old)
  end.

Definition config : @ConfigCollaborators Demo.pool :=
  {| InstanceReaderImpl_InitConfigKV := base_keys : string → string →
       Z * @LineParser Demo.pool → bool * (Z * @LineParser Demo.pool);
     Split_int := split_int |}.

Definition new : @UnsupBipartiteInstReader Demo.pool :=
  @new_reader Demo.pool 32 (Demo.source [] []).

End DemoConfig.

(** * Properties *)

Section Properties.
Context `{Collab : Collaborators}.

(** ** Machine integers *)

Lemma to_int_t_small x : 0 ≤ x < 2 ^ 64 → to_int_t x = x.
Proof. intros ?. unfold to_int_t. by apply Z.mod_small. Qed.

Lemma to_int_t_range x : 0 ≤ to_int_t x < 2 ^ 64.
Proof. unfold to_int_t. apply Z.mod_pos_bound. lia. Qed.

Lemma add_u64_range x y : 0 ≤ add_u64 x y < 2 ^ 64.
Proof. unfold add_u64. apply Z.mod_pos_bound. lia. Qed.

Lemma add_u64_small x y : 0 ≤ x + y < 2 ^ 64 → add_u64 x y = x + y.
Proof. intros ?. unfold add_u64. by apply Z.mod_small. Qed.

Lemma to_int_range x : - 2 ^ 31 ≤ to_int x ≤ INT_MAX.
Proof.
  unfold to_int, INT_MAX.
  pose proof (Z.mod_pos_bound (x + 2 ^ 31) (2 ^ 32)). lia.
Qed.

Lemma to_int_fits x : to_int x = x ↔ - 2 ^ 31 ≤ x ≤ INT_MAX.
Proof.
  split.
  - intros <-. apply to_int_range.
  - unfold to_int, INT_MAX. intros ?. rewrite Z.mod_small; lia.
Qed.

Lemma to_int_congruent x : (to_int x) `mod` 2 ^ 32 = x `mod` 2 ^ 32.
Proof.
  unfold to_int.
  rewrite Zminus_mod, Zmod_mod, <- Zminus_mod.
  f_equal. lia.
Qed.

(** ** Local index tables *)

Lemma position_absent n keys i : n ∉ keys → position n keys i = -1.
Proof.
  revert i. induction keys as [|k keys IH]; intros i Hn; simpl; [done|].
  apply not_elem_of_cons in Hn as [Hk Hn].
  destruct (Z.eqb_spec k n); [congruence|]. by apply IH.
Qed.

Lemma position_present n keys i :
  n ∈ keys →
  i ≤ position n keys i < i + Z.of_nat (length keys)
  ∧ keys !! Z.to_nat (position n keys i - i) = Some n.
Proof.
  revert i. induction keys as [|k keys IH]; intros i Hn; simpl.
  - by apply elem_of_nil in Hn.
  - destruct (Z.eqb_spec k n) as [->|Hk].
    + split; [lia|]. by replace (i - i) with 0 by lia.
    + apply elem_of_cons in Hn as [->|Hn]; [done|].
      destruct (IH (i + 1) Hn) as [Hr Hl]. split; [lia|].
      replace (position n keys (i + 1) - i) with (Z.succ (position n keys (i + 1) - (i + 1))) by lia.
      rewrite Z2Nat.inj_succ by lia. done.
Qed.

Lemma position_nonneg n keys i : 0 ≤ i → 0 ≤ position n keys i → n ∈ keys.
Proof.
  intros Hi Hp. destruct (decide (n ∈ keys)) as [|Hn]; [done|].
  rewrite (position_absent _ _ _ Hn) in Hp. lia.
Qed.

Lemma Indexing_Get_absent t n : n ∉ index_keys t → Indexing_Get t n = -1.
Proof. apply position_absent. Qed.

Lemma Indexing_Get_present t n :
  n ∈ index_keys t → 0 ≤ Indexing_Get t n < Indexing_Size t.
Proof. intros Hn. by destruct (position_present n (index_keys t) 0 Hn). Qed.

Lemma Indexing_Get_nonneg t n : 0 ≤ Indexing_Get t n ↔ n ∈ index_keys t.
Proof.
  split.
  - by apply position_nonneg.
  - intros Hn. by apply Indexing_Get_present.
Qed.

Lemma Indexing_Get_lookup t n :
  n ∈ index_keys t → index_keys t !! Z.to_nat (Indexing_Get t n) = Some n.
Proof.
  intros Hn. destruct (position_present n (index_keys t) 0 Hn) as [_ Hl].
  unfold Indexing_Get. by rewrite Z.sub_0_r in Hl.
Qed.

Lemma Indexing_Get_inj t n1 n2 :
  n1 ∈ index_keys t → n2 ∈ index_keys t →
  Indexing_Get t n1 = Indexing_Get t n2 → n1 = n2.
Proof.
  intros H1 H2 Heq.
  pose proof (Indexing_Get_lookup t n1 H1) as L1.
  pose proof (Indexing_Get_lookup t n2 H2) as L2.
  rewrite Heq in L1. congruence.
Qed.

(** Density (the spec's index density): a table without repeated keys
    assigns every index below its size. *)
Lemma Indexing_Get_dense t i :
  NoDup (index_keys t) → 0 ≤ i < Indexing_Size t →
  ∃ n, n ∈ index_keys t ∧ Indexing_Get t n = i.
Proof.
  intros Hnd Hi. unfold Indexing_Size in Hi.
  destruct (lookup_lt_is_Some_2 (index_keys t) (Z.to_nat i)) as [n Hn]; [lia|].
  exists n. assert (Hin : n ∈ index_keys t) by (by eapply list_elem_of_lookup_2).
  split; [done|].
  pose proof (Indexing_Get_lookup t n Hin) as Hl.
  pose proof (Indexing_Get_present t n Hin) as Hr.
  pose proof (NoDup_lookup _ _ _ _ Hnd Hl Hn). lia.
Qed.

(** ** Lists *)

Lemma elem_of_concat {A} (x : A) (ls : list (list A)) :
  x ∈ concat ls ↔ ∃ l, l ∈ ls ∧ x ∈ l.
Proof.
  induction ls as [|l ls IH]; simpl.
  - split; [by intros ?%elem_of_nil|]. by intros (l & ?%elem_of_nil & _).
  - rewrite elem_of_app, IH. split.
    + intros [?|(l' & ? & ?)]; [exists l|exists l']; split; try done; by constructor.
    + intros (l' & [->|?]%elem_of_cons & ?); [by left|]. right. by exists l'.
Qed.

(** ** Results of fallible calls *)

Lemma for_each_Done {A B} (f : A → outcome B) (g : A → B) (l : list A) :
  (∀ a, a ∈ l → f a = Done (g a)) → for_each f l = Done (g <$> l).
Proof.
  induction l as [|a l IH]; intros Hf; simpl; [done|].
  rewrite (Hf a) by left. simpl.
  rewrite IH; [done|]. intros b Hb. apply Hf. by right.
Qed.

Lemma for_each_CheckFailed {A B} (f : A → outcome B) (l : list A) (a : A) :
  a ∈ l → f a = CheckFailed → (∀ b, b ∈ l → f b ≠ OutOfRange) →
  for_each f l = CheckFailed.
Proof.
  induction l as [|b l IH]; intros Ha Hfa Hl; [by apply elem_of_nil in Ha|].
  simpl. destruct (f b) eqn:Hfb; simpl.
  - apply elem_of_cons in Ha as [->|Ha]; [congruence|].
    rewrite IH; [done..|]. intros c Hc. apply Hl. by right.
  - done.
  - exfalso. by apply (Hl b); [left|].
Qed.

Lemma for_each_no_OutOfRange {A B} (f : A → outcome B) (l : list A) :
  (∀ b, b ∈ l → f b ≠ OutOfRange) → for_each f l ≠ OutOfRange.
Proof.
  induction l as [|b l IH]; intros Hl; simpl; [done|].
  destruct (f b) eqn:Hfb; simpl; [|done|].
  - destruct (for_each f l) eqn:Hr; simpl; [done..|].
    exfalso. apply IH; [|done]. intros c Hc. apply Hl. by right.
  - exfalso. by apply (Hl b); [left|].
Qed.

(** ** The unified index *)

Section UnifiedIndex.
Context (this : UnsupBipartiteInstReader) (user0 item0 : Indexing).
Context (Huser0 : user_indexings_ this !! 0%nat = Some user0).
Context (Hitem0 : item_indexings_ this !! 0%nat = Some item0).

Lemma index_func_user n :
  GetNodeType n = user_ns_id_ this →
  index_func this n =
    if 0 <=? Indexing_Get user0 n then Done (to_int_t (Indexing_Get user0 n))
    else CheckFailed.
Proof.
  intros Hn. unfold index_func, at_index.
  rewrite (proj2 (Z.eqb_eq _ _) Hn), Huser0. simpl.
  by destruct (0 <=? Indexing_Get user0 n).
Qed.

Lemma index_func_item n :
  GetNodeType n ≠ user_ns_id_ this →
  index_func this n =
    if 0 <=? Indexing_Get item0 n
    then Done (add_u64 (to_int_t (Indexing_Get item0 n)) (Indexing_Size user0))
    else CheckFailed.
Proof.
  intros Hn. unfold index_func, at_index.
  rewrite (proj2 (Z.eqb_neq _ _) Hn), Hitem0, Huser0. simpl.
  by destruct (0 <=? Indexing_Get item0 n).
Qed.

Lemma index_func_consulted n :
  index_func this n =
    if 0 <=? Indexing_Get (consulted this user0 item0 n) n
    then Done (if GetNodeType n =? user_ns_id_ this
               then to_int_t (Indexing_Get user0 n)
               else add_u64 (to_int_t (Indexing_Get item0 n)) (Indexing_Size user0))
    else CheckFailed.
Proof.
  unfold consulted. destruct (Z.eqb_spec (GetNodeType n) (user_ns_id_ this)).
  - by apply index_func_user.
  - by apply index_func_item.
Qed.

Lemma index_func_not_OutOfRange n : index_func this n ≠ OutOfRange.
Proof. rewrite index_func_consulted. by case_match. Qed.

End UnifiedIndex.

Lemma Index_index_func this n : Index this n = to_int <$> index_func this n.
Proof.
  unfold Index, index_func.
  destruct (GetNodeType n =? user_ns_id_ this).
  - destruct (at_index (user_indexings_ this) 0) as [user0| |]; simpl; [|done..].
    by destruct (0 <=? Indexing_Get user0 n).
  - destruct (at_index (item_indexings_ this) 0) as [item0| |]; simpl; [|done..].
    destruct (0 <=? Indexing_Get item0 n); simpl; [|done].
    by destruct (at_index (user_indexings_ this) 0).
Qed.

Lemma index_func_range this n v : index_func this n = Done v → 0 ≤ v < 2 ^ 64.
Proof.
  unfold index_func.
  destruct (GetNodeType n =? user_ns_id_ this).
  - destruct (at_index (user_indexings_ this) 0) as [user0| |]; simpl; [|done..].
    destruct (0 <=? Indexing_Get user0 n); simpl; [|done].
    intros [= <-]. apply to_int_t_range.
  - destruct (at_index (item_indexings_ this) 0) as [item0| |]; simpl; [|done..].
    destruct (0 <=? Indexing_Get item0 n); simpl; [|done].
    destruct (at_index (user_indexings_ this) 0); simpl; [|done..].
    intros [= <-]. apply add_u64_range.
Qed.

(** *** [FillIndex]: what the slot holds, whether or not a check fails *)

Lemma put_csr_put_csr {F} name (a b : csr_t) (i : Instance F) :
  put_csr name b (put_csr name a i) = put_csr name b i.
Proof. unfold put_csr. cbn. f_equal. apply insert_insert_eq. Qed.

Lemma get_or_insert_csr_put_csr {F} name (a : csr_t) (i : Instance F) :
  get_or_insert_csr name (put_csr name a i) = a.
Proof. unfold get_or_insert_csr, put_csr. cbn. by rewrite lookup_insert_eq. Qed.

Lemma resolved_prefix_Done f nodes flat :
  for_each f nodes = Done flat → resolved_prefix f nodes = flat.
Proof.
  revert flat. induction nodes as [|n nodes IH]; intros flat; simpl.
  - by intros [= <-].
  - destruct (f n) as [i| |]; simpl; [|done..].
    destruct (for_each f nodes) as [flat'| |]; simpl; [|done..].
    intros [= <-]. by rewrite (IH flat').
Qed.

Lemma resolved_prefix_stops f before n after flat :
  for_each f before = Done flat → f n = CheckFailed →
  resolved_prefix f (before ++ n :: after) = flat
  ∧ for_each f (before ++ n :: after) = CheckFailed.
Proof.
  revert flat. induction before as [|b before IH]; intros flat; simpl.
  - intros [= <-] ->. done.
  - destruct (f b) as [i| |]; simpl; [|done..].
    destruct (for_each f before) as [flat'| |]; simpl; [|done..].
    intros [= <-] Hn. destruct (IH flat' eq_refl Hn) as [-> ->]. done.
Qed.

Lemma FillIndex_rows_run name nodes rows this i t :
  FillIndex_rows name nodes
    {| reader := this;
       inst := put_csr name {| csr_rows := rows; csr_open := [] |} i;
       trace := t |}
  = ((λ _, tt) <$> for_each (Index this) nodes,
     {| reader := this;
        inst := put_csr name
                  {| csr_rows := rows ++ csr_rows (index_rows
                                           (resolved_prefix (Index this) nodes));
                     csr_open := [] |} i;
        trace := t |}).
Proof.
  revert rows. induction nodes as [|n nodes IH]; intros rows.
  - simpl. by rewrite app_nil_r.
  - cbn [FillIndex_rows for_each resolved_prefix].
    unfold mbind at 1 2, M_bind, gets, lift, id. cbn [reader inst trace].
    destruct (Index this n) as [index| |]; cbn [fst snd];
      [|by rewrite app_nil_r..].
    unfold through_id_ptr, on_inst, mbind, M_bind. cbn [reader inst trace].
    rewrite !get_or_insert_csr_put_csr, !put_csr_put_csr.
    unfold csr_add_row, csr_emplace. cbn [csr_rows csr_open app].
    rewrite IH. f_equal.
    + by destruct (for_each (Index this) nodes).
    + unfold index_rows. cbn [csr_rows fmap list_fmap].
      by rewrite <- app_assoc.
Qed.

Lemma FillIndex_run name nodes w :
  FillIndex name nodes w
  = ((λ _, tt) <$> for_each (Index (reader w)) nodes,
     {| reader := reader w;
        inst := put_csr name
                  (index_rows (resolved_prefix (Index (reader w)) nodes)) (inst w);
        trace := trace w |}).
Proof.
  unfold FillIndex, through_id_ptr, on_inst, mbind, M_bind.
  cbn [reader inst trace].
  rewrite get_or_insert_csr_put_csr, put_csr_put_csr. unfold csr_clear.
  by rewrite FillIndex_rows_run.
Qed.

Lemma FillIndex_Done name nodes w flat :
  for_each (Index (reader w)) nodes = Done flat →
  FillIndex name nodes w
  = (Done tt,
     {| reader := reader w;
        inst := put_csr name
                  {| csr_rows := (λ i, [(i, 1)]) <$> flat; csr_open := [] |} (inst w);
        trace := trace w |}).
Proof.
  intros Hflat. by rewrite FillIndex_run, (resolved_prefix_Done _ _ _ Hflat), Hflat.
Qed.

Lemma FillIndex_stops name before n after w flat :
  for_each (Index (reader w)) before = Done flat →
  Index (reader w) n = CheckFailed →
  FillIndex name (before ++ n :: after) w
  = (CheckFailed,
     {| reader := reader w;
        inst := put_csr name
                  {| csr_rows := (λ i, [(i, 1)]) <$> flat; csr_open := [] |} (inst w);
        trace := trace w |}).
Proof.
  intros Hflat Hn. rewrite FillIndex_run.
  by destruct (resolved_prefix_stops _ _ _ after _ Hflat Hn) as [-> ->].
Qed.

Lemma Index_not_OutOfRange this user0 item0 n :
  user_indexings_ this !! 0%nat = Some user0 →
  item_indexings_ this !! 0%nat = Some item0 →
  Index this n ≠ OutOfRange.
Proof.
  intros Hu Hi. rewrite Index_index_func.
  pose proof (index_func_not_OutOfRange this user0 item0 Hu Hi n).
  by destruct (index_func this n).
Qed.

Lemma FillIndex_CheckFailed name nodes w user0 item0 n :
  user_indexings_ (reader w) !! 0%nat = Some user0 →
  item_indexings_ (reader w) !! 0%nat = Some item0 →
  n ∈ nodes → Index (reader w) n = CheckFailed →
  (FillIndex name nodes w).1 = CheckFailed.
Proof.
  intros Hu Hi Hn Hf. rewrite FillIndex_run. cbn [fst].
  rewrite (for_each_CheckFailed _ _ n); [done..|].
  intros b _. by eapply Index_not_OutOfRange.
Qed.

Lemma GetPredictBatch_index_CheckFailed w user0 item0 n :
  user_indexings_ (reader w) !! 0%nat = Some user0 →
  item_indexings_ (reader w) !! 0%nat = Some item0 →
  n ∈ src_nodes_ (reader w) → Index (reader w) n = CheckFailed →
  (GetPredictBatch_index w).1 = CheckFailed.
Proof.
  intros Hu Hi Hn Hf.
  pose proof (FillIndex_CheckFailed X_SRC_ID_NAME _ w _ _ n Hu Hi Hn Hf) as Hrun.
  unfold GetPredictBatch_index, mbind, M_bind, gets. cbn [reader].
  destruct (FillIndex X_SRC_ID_NAME (src_nodes_ (reader w)) w) as [[[]| |] w'];
    by cbn in *.
Qed.

Lemma flow_FillEdgeAndLabel_CheckFailed src_name dst_name y_name src dst negs
    this user0 item0 w n :
  user_indexings_ this !! 0%nat = Some user0 →
  item_indexings_ this !! 0%nat = Some item0 →
  n ∈ src ++ dst ++ concat negs → index_func this n = CheckFailed →
  flow_FillEdgeAndLabel src_name dst_name y_name src dst negs
    (index_func this) (index_func this) w
  = (CheckFailed, log_events [CallFillEdgeAndLabel src dst negs] w).
Proof.
  intros Hu Hi Hn Hf.
  assert (Hno : ∀ l : list Z, ∀ b, b ∈ l → index_func this b ≠ OutOfRange).
  { intros l b _. by eapply index_func_not_OutOfRange. }
  assert (Hno2 : ∀ l, l ∈ negs → for_each (index_func this) l ≠ OutOfRange).
  { intros l _. by apply for_each_no_OutOfRange, Hno. }
  unfold flow_FillEdgeAndLabel, mbind, M_bind, emit, lift, on_inst, log_events. simpl.
  destruct (for_each (index_func this) src) as [si| |] eqn:Hsrc; [|done|].
  2:{ exfalso. by apply (for_each_no_OutOfRange _ _ (Hno src)). }
  destruct (for_each (index_func this) dst) as [di| |] eqn:Hdst; [|done|].
  2:{ exfalso. by apply (for_each_no_OutOfRange _ _ (Hno dst)). }
  destruct (for_each (for_each (index_func this)) negs) as [ni| |] eqn:Hneg; [|done|].
  2:{ exfalso. by apply (for_each_no_OutOfRange _ _ Hno2). }
  exfalso.
  apply elem_of_app in Hn as [Hn|Hn].
  { rewrite (for_each_CheckFailed _ _ n) in Hsrc; [done..|]. apply Hno. }
  apply elem_of_app in Hn as [Hn|Hn].
  { rewrite (for_each_CheckFailed _ _ n) in Hdst; [done..|]. apply Hno. }
  apply elem_of_concat in Hn as (l & Hl & Hnl).
  rewrite (for_each_CheckFailed _ _ l) in Hneg; [done..| |done].
  apply (for_each_CheckFailed _ _ n); [done..|]. apply Hno.
Qed.

Lemma for_each_Index this nodes vs :
  for_each (index_func this) nodes = Done vs →
  for_each (Index this) nodes = Done (to_int <$> vs).
Proof.
  revert vs. induction nodes as [|n nodes IH]; intros vs; simpl.
  - by intros [= <-].
  - rewrite Index_index_func.
    destruct (index_func this n) as [v| |]; simpl; [|done..].
    destruct (for_each (index_func this) nodes) as [vs'| |]; simpl; [|done..].
    intros [= <-]. by rewrite (IH vs' eq_refl).
Qed.

(** C10: the member [Index] is [index_func] narrowed to [int].  The value
    it yields is the one [index_func] computes in 64 unsigned bits reduced
    modulo [2^32] and read as signed; it equals that value exactly when the
    value fits a signed 32-bit [int], while [index_func] hands back the
    full 64-bit value.  The narrowed value is what [FillIndex] writes: for
    nodes that [index_func] resolves to [vs], the slot ends up with one row
    [(to_int v, 1)] per node, and so does the source-id tensor of an
    inference batch. *)
Theorem Index_narrows_to_int (this : UnsupBipartiteInstReader) (n : Z) :
  Index this n = to_int <$> index_func this n
  ∧ (∀ v, index_func this n = Done v →
       0 ≤ v < 2 ^ 64
       ∧ Index this n = Done (to_int v)
       ∧ - 2 ^ 31 ≤ to_int v ≤ INT_MAX
       ∧ to_int v `mod` 2 ^ 32 = v `mod` 2 ^ 32
       ∧ (to_int v = v ↔ v ≤ INT_MAX))
  ∧ (∀ item0 user0,
       GetNodeType n ≠ user_ns_id_ this →
       item_indexings_ this !! 0%nat = Some item0 →
       user_indexings_ this !! 0%nat = Some user0 →
       0 ≤ Indexing_Get item0 n →
       index_func this n =
         Done (add_u64 (to_int_t (Indexing_Get item0 n)) (Indexing_Size user0))
       ∧ Index this n =
         Done (to_int (add_u64 (to_int_t (Indexing_Get item0 n))
                         (Indexing_Size user0))))
  ∧ (∀ name nodes vs w,
       reader w = this →
       for_each (index_func this) nodes = Done vs →
       FillIndex name nodes w
       = (Done tt,
          {| reader := this;
             inst := put_csr name
                       {| csr_rows := (λ v, [(to_int v, 1)]) <$> vs;
                          csr_open := [] |} (inst w);
             trace := trace w |}))
  ∧ (∀ vs w,
       reader w = this →
       for_each (index_func this) (src_nodes_ this) = Done vs →
       ∃ w', GetPredictBatch_index w = (Done true, w')
             ∧ inst_csr (inst w') !! X_SRC_ID_NAME
               = Some {| csr_rows := (λ v, [(to_int v, 1)]) <$> vs;
                         csr_open := [] |}).
Proof.
  split; [apply Index_index_func|]. split; [|split; [|split]].
  - intros v Hv. pose proof (index_func_range _ _ _ Hv) as Hr.
    split; [done|]. split; [by rewrite Index_index_func, Hv|].
    split; [apply to_int_range|]. split; [apply to_int_congruent|].
    rewrite to_int_fits. lia.
  - intros item0 user0 Hn Hi Hu Hget.
    assert (index_func this n =
      Done (add_u64 (to_int_t (Indexing_Get item0 n)) (Indexing_Size user0))) as Hf.
    { rewrite (index_func_item this user0 item0 Hu Hi n Hn).
      by rewrite (proj2 (Z.leb_le _ _) Hget). }
    split; [done|]. by rewrite Index_index_func, Hf.
  - intros name nodes vs w <- Hvs.
    rewrite (FillIndex_Done _ _ _ _ (for_each_Index _ _ _ Hvs)).
    by rewrite <- list_fmap_compose.
  - intros vs w <- Hvs.
    unfold GetPredictBatch_index, mbind, M_bind, mret, M_ret, on_inst, gets.
    cbn [reader inst trace].
    rewrite (FillIndex_Done _ _ _ _ (for_each_Index _ _ _ Hvs)).
    cbn [reader inst trace]. eexists. split; [reflexivity|].
    cbn [inst]. unfold set_batch, put_vec, put_csr. cbn [inst_csr].
    rewrite lookup_insert_eq. by rewrite <- list_fmap_compose.
Qed.

(** C1: the unified index function hands back the level-0 user-table
    index of a node tagged as user, and the level-0 item-table index plus
    the size of the user table for any other node; so, with tables of sizes
    [U] and [I], resolved user indices lie in [[0, U)], resolved item
    indices in [[U, U + I)], and two distinct resolved nodes never share a
    flat index.  The member [Index] agrees with it as long as [U + I] fits
    an [int]. *)
Theorem unified_index_disjoint (this : UnsupBipartiteInstReader)
    (user0 item0 : Indexing) :
  user_indexings_ this !! 0%nat = Some user0 →
  item_indexings_ this !! 0%nat = Some item0 →
  int_indexed user0 → int_indexed item0 →
  let U := Indexing_Size user0 in
  let I := Indexing_Size item0 in
  (∀ n, GetNodeType n = user_ns_id_ this → n ∈ index_keys user0 →
     index_func this n = Done (Indexing_Get user0 n))
  ∧ (∀ n, GetNodeType n ≠ user_ns_id_ this → n ∈ index_keys item0 →
     index_func this n = Done (Indexing_Get item0 n + U))
  ∧ (∀ n v, GetNodeType n = user_ns_id_ this → index_func this n = Done v →
     0 ≤ v < U)
  ∧ (∀ n v, GetNodeType n ≠ user_ns_id_ this → index_func this n = Done v →
     U ≤ v < U + I)
  ∧ (∀ n1 n2 v1 v2, n1 ≠ n2 →
     index_func this n1 = Done v1 → index_func this n2 = Done v2 → v1 ≠ v2)
  ∧ (U + I ≤ INT_MAX + 1 → ∀ n, Index this n = index_func this n).
Proof.
  intros Hu Hi HU HI U I. unfold int_indexed, INT_MAX in HU, HI.
  assert (HU0 : 0 ≤ U) by (unfold U, Indexing_Size; lia).
  assert (Huser : ∀ n v, GetNodeType n = user_ns_id_ this →
            index_func this n = Done v →
            n ∈ index_keys user0 ∧ v = Indexing_Get user0 n ∧ 0 ≤ v < U).
  { intros n v Hn. rewrite (index_func_user this user0 Hu n Hn).
    destruct (Z.leb_spec 0 (Indexing_Get user0 n)) as [Hge|]; [|done].
    intros [= <-]. apply Indexing_Get_nonneg in Hge.
    pose proof (Indexing_Get_present _ _ Hge).
    rewrite to_int_t_small by (fold U in H; lia). fold U in H. repeat split; (done || lia). }
  assert (Hitem : ∀ n v, GetNodeType n ≠ user_ns_id_ this →
            index_func this n = Done v →
            n ∈ index_keys item0 ∧ v = Indexing_Get item0 n + U ∧ U ≤ v < U + I).
  { intros n v Hn. rewrite (index_func_item this user0 item0 Hu Hi n Hn).
    destruct (Z.leb_spec 0 (Indexing_Get item0 n)) as [Hge|]; [|done].
    intros [= <-]. apply Indexing_Get_nonneg in Hge.
    pose proof (Indexing_Get_present _ _ Hge). fold I in H. fold U.
    rewrite to_int_t_small by lia. rewrite add_u64_small by lia.
    repeat split; (done || lia). }
  split; [|split; [|split; [|split; [|split]]]].
  - intros n Hn Hin. rewrite (index_func_user this user0 Hu n Hn).
    pose proof (Indexing_Get_present _ _ Hin). fold U in H.
    rewrite (proj2 (Z.leb_le _ _)) by lia. by rewrite to_int_t_small by lia.
  - intros n Hn Hin. rewrite (index_func_item this user0 item0 Hu Hi n Hn).
    pose proof (Indexing_Get_present _ _ Hin). fold I in H. fold U.
    rewrite (proj2 (Z.leb_le _ _)) by lia.
    rewrite to_int_t_small by lia. by rewrite add_u64_small by lia.
  - intros n v Hn Hv. by destruct (Huser n v Hn Hv) as (_ & _ & ?).
  - intros n v Hn Hv. by destruct (Hitem n v Hn Hv) as (_ & _ & ?).
  - intros n1 n2 v1 v2 Hne H1 H2 ->.
    destruct (decide (GetNodeType n1 = user_ns_id_ this)) as [T1|T1];
      destruct (decide (GetNodeType n2 = user_ns_id_ this)) as [T2|T2].
    + destruct (Huser _ _ T1 H1) as (I1 & E1 & _), (Huser _ _ T2 H2) as (I2 & E2 & _).
      apply Hne, (Indexing_Get_inj user0); [done..|congruence].
    + destruct (Huser _ _ T1 H1) as (_ & _ & ?), (Hitem _ _ T2 H2) as (_ & _ & ?). lia.
    + destruct (Hitem _ _ T1 H1) as (_ & _ & ?), (Huser _ _ T2 H2) as (_ & _ & ?). lia.
    + destruct (Hitem _ _ T1 H1) as (I1 & E1 & _), (Hitem _ _ T2 H2) as (I2 & E2 & _).
      apply Hne, (Indexing_Get_inj item0); [done..|lia].
  - intros Hfit n. rewrite Index_index_func.
    destruct (index_func this n) as [v| |] eqn:Hv; [|done..]. simpl. f_equal.
    apply to_int_fits. unfold INT_MAX in *.
    destruct (decide (GetNodeType n = user_ns_id_ this)) as [T|T].
    + destruct (Huser _ _ T Hv) as (_ & _ & ?). lia.
    + destruct (Hitem _ _ T Hv) as (_ & _ & ?). lia.
Qed.

(** C4: a node absent from the level-0 table consulted for it gets a
    negative index from the lookup, and the check that follows stops the
    run: neither index function yields a value for it, and the step of
    batch construction that resolves it ([FillIndex], the edge-and-label
    fill) ends in the failed check.  [FillIndex] stops at that node: the
    slot, which it fills in place, then holds the rows of the nodes before
    it and nothing for it or for a node after it. *)
Theorem absent_node_aborts (this : UnsupBipartiteInstReader)
    (user0 item0 : Indexing) (n : Z) :
  user_indexings_ this !! 0%nat = Some user0 →
  item_indexings_ this !! 0%nat = Some item0 →
  n ∉ index_keys (consulted this user0 item0 n) →
  Indexing_Get (consulted this user0 item0 n) n < 0
  ∧ index_func this n = CheckFailed
  ∧ Index this n = CheckFailed
  ∧ (∀ v, index_func this n ≠ Done v ∧ Index this n ≠ Done v)
  ∧ (∀ w name nodes, reader w = this → n ∈ nodes →
       (FillIndex name nodes w).1 = CheckFailed)
  ∧ (∀ w name before after flat, reader w = this →
       for_each (Index this) before = Done flat →
       FillIndex name (before ++ n :: after) w
       = (CheckFailed,
          {| reader := this;
             inst := put_csr name
                       {| csr_rows := (λ i, [(i, 1)]) <$> flat; csr_open := [] |}
                       (inst w);
             trace := trace w |}))
  ∧ (∀ w, reader w = this → n ∈ src_nodes_ this →
       (GetPredictBatch_index w).1 = CheckFailed)
  ∧ (∀ w src_name dst_name y_name src dst negs,
       n ∈ src ++ dst ++ concat negs →
       (flow_FillEdgeAndLabel src_name dst_name y_name src dst negs
          (index_func this) (index_func this) w).1 = CheckFailed)
  ∧ (∀ w, reader w = this →
       n ∈ src_nodes_ this ++ dst_nodes_ this ++ concat (neg_nodes_list_ this) →
       (GetTrainBatch_edges w).1 = CheckFailed).
Proof.
  intros Hu Hi Hn.
  assert (Hget : Indexing_Get (consulted this user0 item0 n) n = -1)
    by by apply Indexing_Get_absent.
  assert (Hf : index_func this n = CheckFailed).
  { rewrite (index_func_consulted this user0 item0 Hu Hi n), Hget. done. }
  assert (HI : Index this n = CheckFailed) by by rewrite Index_index_func, Hf.
  split; [lia|]. split; [done|]. split; [done|].
  split; [intros v; by rewrite Hf, HI|].
  split; [|split; [|split; [|split]]].
  - intros w name nodes <- Hin. by eapply FillIndex_CheckFailed.
  - intros w name before after flat <- Hflat. by apply FillIndex_stops.
  - intros w <- Hin. by eapply GetPredictBatch_index_CheckFailed.
  - intros w src_name dst_name y_name src dst negs Hin.
    by erewrite flow_FillEdgeAndLabel_CheckFailed.
  - intros w <- Hin. unfold GetTrainBatch_edges, mbind, M_bind, gets. simpl.
    by erewrite flow_FillEdgeAndLabel_CheckFailed.
Qed.

(** ** The classifier *)

Lemma log_events_nil w : log_events [] w = w.
Proof. destruct w. unfold log_events. simpl. by rewrite app_nil_r. Qed.

Lemma log_events_app es1 es2 w :
  log_events es2 (log_events es1 w) = log_events (es1 ++ es2) w.
Proof. unfold log_events. simpl. by rewrite app_assoc. Qed.

Lemma ParseUserAndItemFrom_run nodes ug ig us its w :
  ParseUserAndItemFrom nodes ug ig us its w
  = (Done (us ++ users_of ug nodes, its ++ items_of ug ig nodes),
     log_events (invalid_log ug ig nodes) w).
Proof.
  unfold users_of, items_of, invalid_log, invalid_of.
  revert us its w. induction nodes as [|n nodes IH]; intros us its w.
  - simpl. by rewrite !app_nil_r, log_events_nil.
  - simpl ParseUserAndItemFrom. rewrite !filter_cons.
    destruct (Z.eqb_spec (GetNodeType n) ug) as [Hu|Hu];
      [|destruct (Z.eqb_spec (GetNodeType n) ig) as [Hi|Hi]];
      unfold DXERROR_invalid_node, mbind, M_bind, emit; rewrite IH;
      repeat case_decide; try tauto.
    + by rewrite <- app_assoc.
    + by rewrite <- app_assoc.
    + rewrite fmap_cons. unfold log_events. simpl. by rewrite <- app_assoc.
Qed.

Lemma users_of_app ug l1 l2 : users_of ug (l1 ++ l2) = users_of ug l1 ++ users_of ug l2.
Proof. apply filter_app. Qed.

Lemma items_of_app ug ig l1 l2 :
  items_of ug ig (l1 ++ l2) = items_of ug ig l1 ++ items_of ug ig l2.
Proof. apply filter_app. Qed.

Lemma invalid_log_app ug ig l1 l2 :
  invalid_log ug ig (l1 ++ l2) = invalid_log ug ig l1 ++ invalid_log ug ig l2.
Proof. unfold invalid_log, invalid_of. by rewrite filter_app, fmap_app. Qed.

Lemma ParseUserAndItemFrom_each_run lists ug ig us its w :
  ParseUserAndItemFrom_each lists ug ig us its w
  = (Done (us ++ users_of ug (concat lists), its ++ items_of ug ig (concat lists)),
     log_events (invalid_log ug ig (concat lists)) w).
Proof.
  revert us its w. induction lists as [|l lists IH]; intros us its w.
  - simpl. unfold users_of, items_of, invalid_log, invalid_of. simpl.
    by rewrite !app_nil_r, log_events_nil.
  - simpl. unfold mbind, M_bind. rewrite ParseUserAndItemFrom_run, IH.
    rewrite users_of_app, items_of_app, invalid_log_app, log_events_app.
    by rewrite <- !app_assoc.
Qed.

Lemma elem_of_users_of ug nodes n :
  n ∈ users_of ug nodes ↔ GetNodeType n = ug ∧ n ∈ nodes.
Proof. unfold users_of. by rewrite list_elem_of_filter. Qed.

Lemma elem_of_items_of ug ig nodes n :
  n ∈ items_of ug ig nodes ↔ (GetNodeType n ≠ ug ∧ GetNodeType n = ig) ∧ n ∈ nodes.
Proof. unfold items_of. by rewrite list_elem_of_filter. Qed.

Lemma Interleave_filter (P : Z → Prop) `{!∀ n, Decision (P n)} (l : list Z) :
  Interleave (filter P l) (filter (λ n, ¬ P n) l) l.
Proof.
  induction l as [|n l IH]; [constructor|].
  rewrite !filter_cons. repeat case_decide; try tauto; by constructor.
Qed.

Lemma Interleave_length l r m : Interleave l r m → (length l + length r = length m)%nat.
Proof. induction 1; simpl; lia. Qed.

Lemma items_of_recognized ug ig nodes :
  (∀ n, n ∈ nodes → GetNodeType n = ug ∨ GetNodeType n = ig) →
  items_of ug ig nodes = filter (λ n, ¬ GetNodeType n = ug) nodes
  ∧ invalid_of ug ig nodes = [].
Proof.
  unfold items_of, invalid_of. induction nodes as [|n nodes IH]; intros Hrec; [done|].
  destruct IH as [IH1 IH2]; [intros m Hm; apply Hrec; by right|].
  rewrite !filter_cons, IH1, IH2.
  destruct (Hrec n) as [Hn|Hn]; [by left|..]; repeat case_decide; tauto.
Qed.

(** C2: when every node of the input carries the user tag or the item
    tag, the classifier appends each node to exactly one of the two lists
    and logs nothing: the appended parts together are as long as the input,
    they share no node, and the input is a merge of them that keeps the
    order within each (a stable partition by the user tag). *)
Theorem classification_partitions (nodes : list Z) (user_group item_group : Z)
    (user_nodes item_nodes : list Z) (w : World) :
  (∀ n, n ∈ nodes → GetNodeType n = user_group ∨ GetNodeType n = item_group) →
  ∃ new_users new_items,
    ParseUserAndItemFrom nodes user_group item_group user_nodes item_nodes w
    = (Done (user_nodes ++ new_users, item_nodes ++ new_items), w)
    ∧ (length new_users + length new_items = length nodes)%nat
    ∧ Interleave new_users new_items nodes
    ∧ new_users = filter (λ n, GetNodeType n = user_group) nodes
    ∧ new_items = filter (λ n, ¬ GetNodeType n = user_group) nodes
    ∧ (∀ n, n ∈ nodes → (n ∈ new_users ∧ ¬ n ∈ new_items)
                        ∨ (¬ n ∈ new_users ∧ n ∈ new_items)).
Proof.
  intros Hrec. destruct (items_of_recognized _ _ _ Hrec) as [Hitems Hinv].
  exists (users_of user_group nodes), (items_of user_group item_group nodes).
  assert (HI : Interleave (users_of user_group nodes)
                 (items_of user_group item_group nodes) nodes).
  { rewrite Hitems. apply (Interleave_filter (λ n, GetNodeType n = user_group)). }
  split; [|split; [|split; [|split; [|split]]]].
  - rewrite ParseUserAndItemFrom_run. unfold invalid_log. rewrite Hinv. simpl.
    by rewrite log_events_nil.
  - by apply Interleave_length.
  - done.
  - done.
  - done.
  - intros n Hn. rewrite elem_of_users_of, Hitems, list_elem_of_filter.
    destruct (decide (GetNodeType n = user_group)); [left|right]; tauto.
Qed.

Lemma ParseUserAndItemFrom_invalid (before after : list Z) (n : Z)
    (user_group item_group : Z) (user_nodes item_nodes : list Z) (w : World) :
  GetNodeType n ≠ user_group → GetNodeType n ≠ item_group →
  ParseUserAndItemFrom (before ++ n :: after) user_group item_group
    user_nodes item_nodes w
  = (Done (user_nodes ++ users_of user_group (before ++ after),
           item_nodes ++ items_of user_group item_group (before ++ after)),
     log_events (invalid_log user_group item_group before
                 ++ LogInvalidNode n (GetNodeType n) user_group item_group
                    :: invalid_log user_group item_group after) w).
Proof.
  intros Hu Hi. rewrite ParseUserAndItemFrom_run.
  rewrite !users_of_app, !items_of_app, invalid_log_app.
  unfold users_of, items_of, invalid_log, invalid_of. rewrite !filter_cons.
  repeat case_decide; tauto.
Qed.

(** ** Filling an encoder *)

Lemma FillInstance_run encoder_name nodes num_neighbors p w :
  FillInstance encoder_name nodes num_neighbors p w
  = (Done tt, FillInstance_world encoder_name nodes num_neighbors p w).
Proof.
  unfold FillInstance, FillInstance_world, FillInstance_events,
    flow_SampleSubGraph, flow_FillLevelNodeFeature, flow_FillLevelNeighFeature,
    flow_FillSelfAndNeighGraphBlock, store_indexings, assign_indexings,
    mbind, M_bind, mret, M_ret, emit, on_inst, on_reader, gets.
  simpl. destruct (SampleSubGraph nodes num_neighbors) as [level_nodes level_neighs].
  simpl. destruct p, (use_neigh_feat_ (reader w)); simpl;
    by rewrite <- !app_assoc.
Qed.

Lemma GetTrainBatch_indexed_run values negs w :
  SharedSampleNegative (num_neg_ (reader w)) (Collect values dst_node)
    (Collect values dst_node) = Some negs →
  GetTrainBatch_indexed values w
  = (Done (users_of (user_ns_id_ (reader w))
             (Collect values src_node ++ Collect values dst_node ++ concat negs),
           items_of (user_ns_id_ (reader w)) (item_ns_id_ (reader w))
             (Collect values src_node ++ Collect values dst_node ++ concat negs)),
     GetTrainBatch_indexed_world values negs w).
Proof.
  intros Hs.
  unfold GetTrainBatch_indexed, GetTrainBatch_indexed_world,
    graph_client_SharedSampleNegative,
    mbind, M_bind, mret, M_ret, emit, on_inst, on_reader, gets, lift.
  simpl. rewrite Hs. simpl.
  rewrite !ParseUserAndItemFrom_run. simpl.
  rewrite ParseUserAndItemFrom_each_run. simpl.
  rewrite !FillInstance_run.
  rewrite !users_of_app, !items_of_app, !invalid_log_app.
  unfold log_events. simpl. rewrite <- !app_assoc. simpl. done.
Qed.

Lemma GetTrainBatch_indexed_no_samples values w :
  SharedSampleNegative (num_neg_ (reader w)) (Collect values dst_node)
    (Collect values dst_node) = None →
  GetTrainBatch_indexed values w
  = (CheckFailed,
     {| reader := set_dst_nodes_ (Collect values dst_node)
                    (set_src_nodes_ (Collect values src_node) (reader w));
        inst := inst w;
        trace := trace w
                 ++ [CallSharedSampleNegative (num_neg_ (reader w))
                       (Collect values dst_node) (Collect values dst_node)] |}).
Proof.
  intros Hs.
  unfold GetTrainBatch_indexed, graph_client_SharedSampleNegative,
    mbind, M_bind, mret, M_ret, emit, on_inst, on_reader, gets, lift.
  simpl. rewrite Hs. simpl. done.
Qed.

Lemma GetPredictBatch_indexed_run values w :
  GetPredictBatch_indexed values w
  = (Done (users_of (user_ns_id_ (reader w)) (Collect values node),
           items_of (user_ns_id_ (reader w)) (item_ns_id_ (reader w))
             (Collect values node)),
     GetPredictBatch_indexed_world values w).
Proof.
  unfold GetPredictBatch_indexed, GetPredictBatch_indexed_world,
    mbind, M_bind, mret, M_ret, emit, on_inst, on_reader, gets, lift.
  simpl. rewrite ParseUserAndItemFrom_run. simpl.
  rewrite !FillInstance_run. done.
Qed.

(** ** The batch builders *)

Lemma GetTrainBatch_end w lp :
  NextBatch_EdgeValue (batch_ (reader w)) (line_parser_ (reader w)) = (None, lp) →
  GetTrainBatch w = (Done false, end_of_stream lp w).
Proof.
  intros Hn.
  unfold GetTrainBatch, line_parser_NextBatch_EdgeValue, line_parser_Close,
    end_of_stream, mbind, M_bind, mret, M_ret, emit, on_inst, on_reader, gets.
  simpl. rewrite Hn. simpl. by rewrite <- app_assoc.
Qed.

Lemma GetPredictBatch_end w lp :
  NextBatch_NodeValue (batch_ (reader w)) (line_parser_ (reader w)) = (None, lp) →
  GetPredictBatch w = (Done false, end_of_stream lp w).
Proof.
  intros Hn.
  unfold GetPredictBatch, line_parser_NextBatch_NodeValue, line_parser_Close,
    end_of_stream, mbind, M_bind, mret, M_ret, emit, on_inst, on_reader, gets.
  simpl. rewrite Hn. simpl. by rewrite <- app_assoc.
Qed.

Lemma GetTrainBatch_run w values lp :
  NextBatch_EdgeValue (batch_ (reader w)) (line_parser_ (reader w))
    = (Some values, lp) →
  GetTrainBatch w
  = (GetTrainBatch_indexed values;; GetTrainBatch_edges) (after_NextBatch lp w).
Proof.
  intros Hn.
  unfold GetTrainBatch, line_parser_NextBatch_EdgeValue, after_NextBatch,
    mbind, M_bind, mret, M_ret, emit, on_reader, gets.
  cbn [reader inst trace]. rewrite Hn. done.
Qed.

Lemma GetPredictBatch_run w values lp :
  NextBatch_NodeValue (batch_ (reader w)) (line_parser_ (reader w))
    = (Some values, lp) →
  GetPredictBatch w
  = (GetPredictBatch_indexed values;; GetPredictBatch_index) (after_NextBatch lp w).
Proof.
  intros Hn.
  unfold GetPredictBatch, line_parser_NextBatch_NodeValue, after_NextBatch,
    mbind, M_bind, mret, M_ret, emit, on_reader, gets.
  cbn [reader inst trace]. rewrite Hn. done.
Qed.

(** C6: at the end of the stream either builder closes the record source,
    clears the batch of the instance and answers [false]; nothing else is
    requested from any collaborator and no other member or slot changes. *)
Theorem end_of_stream_closes_and_clears (w : World) (lp : LineParser) :
  (NextBatch_EdgeValue (batch_ (reader w)) (line_parser_ (reader w)) = (None, lp) →
   GetTrainBatch w = (Done false, end_of_stream lp w))
  ∧ (NextBatch_NodeValue (batch_ (reader w)) (line_parser_ (reader w)) = (None, lp) →
     GetPredictBatch w = (Done false, end_of_stream lp w))
  ∧ inst_batch (inst (end_of_stream lp w)) = 0
  ∧ inst_csr (inst (end_of_stream lp w)) = inst_csr (inst w)
  ∧ inst_vec (inst (end_of_stream lp w)) = inst_vec (inst w)
  ∧ inst_flow (inst (end_of_stream lp w)) = inst_flow (inst w)
  ∧ line_parser_ (reader (end_of_stream lp w)) = Close lp
  ∧ set_line_parser_ (line_parser_ (reader w)) (reader (end_of_stream lp w))
    = reader w
  ∧ trace (end_of_stream lp w)
    = trace w ++ [CallNextBatch (batch_ (reader w)); CallClose].
Proof.
  split; [apply GetTrainBatch_end|]. split; [apply GetPredictBatch_end|].
  repeat split. by destruct w as [[] ? ?].
Qed.

(** ** Tables built from a sampled subgraph *)

Arguments FillInstance_events : simpl never.
Arguments invalid_log : simpl never.
Arguments users_of : simpl never.
Arguments items_of : simpl never.

Lemma CreateIndexing_keys (s : gset Z) n :
  IterationContract → n ∈ index_keys (CreateIndexing s) ↔ n ∈ s.
Proof. intros HI. simpl. by rewrite (HI s), elem_of_elements. Qed.

Lemma CreateIndexing_NoDup (s : gset Z) :
  IterationContract → NoDup (index_keys (CreateIndexing s)).
Proof. intros HI. simpl. rewrite (HI s). apply NoDup_elements. Qed.

Lemma CreateIndexing_Size (s : gset Z) :
  IterationContract → Indexing_Size (CreateIndexing s) = Z.of_nat (size s).
Proof. intros HI. unfold Indexing_Size. simpl. by rewrite (HI s). Qed.

Lemma CreateIndexings_level0 nodes num_neighbors :
  SubGraphContract →
  CreateIndexings (SampleSubGraph nodes num_neighbors).1 !! 0%nat
  = Some (CreateIndexing (list_to_set nodes)).
Proof.
  intros HS. unfold CreateIndexings. by rewrite list_lookup_fmap, (HS nodes num_neighbors).
Qed.

Lemma GetTrainBatch_indexed_world_members values negs w :
  user_ns_id_ (reader (GetTrainBatch_indexed_world values negs w))
    = user_ns_id_ (reader w)
  ∧ item_ns_id_ (reader (GetTrainBatch_indexed_world values negs w))
    = item_ns_id_ (reader w)
  ∧ src_nodes_ (reader (GetTrainBatch_indexed_world values negs w))
    = Collect values src_node
  ∧ dst_nodes_ (reader (GetTrainBatch_indexed_world values negs w))
    = Collect values dst_node
  ∧ neg_nodes_list_ (reader (GetTrainBatch_indexed_world values negs w)) = negs.
Proof. done. Qed.

Lemma GetTrainBatch_indexed_world_tables values negs w :
  SubGraphContract →
  user_indexings_ (reader (GetTrainBatch_indexed_world values negs w)) !! 0%nat
    = Some (CreateIndexing
              (list_to_set
                 (users_of (user_ns_id_ (reader w))
                    (Collect values src_node ++ Collect values dst_node
                     ++ concat negs))))
  ∧ item_indexings_ (reader (GetTrainBatch_indexed_world values negs w)) !! 0%nat
    = Some (CreateIndexing
              (list_to_set
                 (items_of (user_ns_id_ (reader w)) (item_ns_id_ (reader w))
                    (Collect values src_node ++ Collect values dst_node
                     ++ concat negs)))).
Proof. intros HS. split; by apply CreateIndexings_level0. Qed.

Lemma GetTrainBatch_indexed_world_trace values negs w :
  trace (GetTrainBatch_indexed_world values negs w)
  = trace w
    ++ CallSharedSampleNegative (num_neg_ (reader w)) (Collect values dst_node)
         (Collect values dst_node)
       :: (invalid_log (user_ns_id_ (reader w)) (item_ns_id_ (reader w))
             (Collect values src_node ++ Collect values dst_node ++ concat negs)
           ++ FillInstance_events USER_ENCODER_NAME
                (users_of (user_ns_id_ (reader w))
                   (Collect values src_node ++ Collect values dst_node
                    ++ concat negs))
                (num_neighbors_ (reader w)) (use_neigh_feat_ (reader w))
           ++ FillInstance_events ITEM_ENCODER_NAME
                (items_of (user_ns_id_ (reader w)) (item_ns_id_ (reader w))
                   (Collect values src_node ++ Collect values dst_node
                    ++ concat negs))
                (num_neighbors_ (reader w)) (use_neigh_feat_ (reader w))).
Proof.
  unfold GetTrainBatch_indexed_world, FillInstance_world.
  cbn [trace reader]. rewrite <- !app_assoc. reflexivity.
Qed.

Lemma GetPredictBatch_indexed_world_tables values w :
  SubGraphContract →
  user_indexings_ (reader (GetPredictBatch_indexed_world values w)) !! 0%nat
    = Some (CreateIndexing
              (list_to_set (users_of (user_ns_id_ (reader w)) (Collect values node))))
  ∧ item_indexings_ (reader (GetPredictBatch_indexed_world values w)) !! 0%nat
    = Some (CreateIndexing
              (list_to_set (items_of (user_ns_id_ (reader w))
                              (item_ns_id_ (reader w)) (Collect values node)))).
Proof. intros HS. split; by apply CreateIndexings_level0. Qed.

Lemma quiet_invalid_log ug ig nodes e :
  e ∈ invalid_log ug ig nodes → is_negative_request e = false.
Proof. unfold invalid_log. by intros (n & -> & _)%list_elem_of_fmap. Qed.

Lemma quiet_FillInstance_events enc nodes nn b e :
  e ∈ FillInstance_events enc nodes nn b → is_negative_request e = false.
Proof.
  unfold FillInstance_events. destruct b; simpl;
    rewrite ?elem_of_cons, elem_of_nil; intros H; by destruct_or!; subst.
Qed.

Lemma GetTrainBatch_edges_world w :
  reader (GetTrainBatch_edges w).2 = reader w
  ∧ trace (GetTrainBatch_edges w).2
    = trace w ++ [CallFillEdgeAndLabel (src_nodes_ (reader w)) (dst_nodes_ (reader w))
                    (neg_nodes_list_ (reader w))].
Proof.
  unfold GetTrainBatch_edges, flow_FillEdgeAndLabel,
    mbind, M_bind, mret, M_ret, emit, on_inst, gets, lift. simpl.
  destruct (for_each _ (src_nodes_ _)); [|done..].
  destruct (for_each _ (dst_nodes_ _)); [|done..].
  by destruct (for_each _ (neg_nodes_list_ _)).
Qed.

Lemma GetTrainBatch_edges_Done w src_index dst_index neg_index :
  for_each (index_func (reader w)) (src_nodes_ (reader w)) = Done src_index →
  for_each (index_func (reader w)) (dst_nodes_ (reader w)) = Done dst_index →
  for_each (for_each (index_func (reader w))) (neg_nodes_list_ (reader w))
    = Done neg_index →
  GetTrainBatch_edges w
  = (Done true,
     {| reader := reader w;
        inst := set_batch (to_int (Z.of_nat (length (src_nodes_ (reader w)))))
                  (EdgeAndLabelLayout X_SRC_ID_NAME X_DST_ID_NAME Y_NAME
                     src_index dst_index neg_index (inst w));
        trace := trace w
                 ++ [CallFillEdgeAndLabel (src_nodes_ (reader w))
                       (dst_nodes_ (reader w)) (neg_nodes_list_ (reader w))] |}).
Proof.
  intros Hs Hd Hn.
  unfold GetTrainBatch_edges, flow_FillEdgeAndLabel,
    mbind, M_bind, mret, M_ret, emit, on_inst, gets, lift. simpl.
  by rewrite Hs, Hd, Hn.
Qed.

(** C5: a training batch asks for negatives once, with [num_neg_] as the
    count and the destinations collected from the batch both as the anchors
    and as the pool; the answer becomes [neg_nodes_list_], and with a
    sampler that draws from the pool it was given every negative is a
    destination of this batch. *)
Theorem negatives_requested_from_destinations (w : World)
    (values : list EdgeValue) (lp : LineParser) :
  NextBatch_EdgeValue (batch_ (reader w)) (line_parser_ (reader w))
    = (Some values, lp) →
  let dst := Collect values dst_node in
  let request := CallSharedSampleNegative (num_neg_ (reader w)) dst dst in
  ∃ later,
    trace (GetTrainBatch w).2
    = trace w ++ [CallNextBatch (batch_ (reader w)); request] ++ later
    ∧ (∀ e, e ∈ later → is_negative_request e = false)
    ∧ dst_nodes_ (reader (GetTrainBatch w).2) = dst
    ∧ (∀ negs, SharedSampleNegative (num_neg_ (reader w)) dst dst = Some negs →
         neg_nodes_list_ (reader (GetTrainBatch w).2) = negs
         ∧ (NegativePoolContract → ∀ l n, l ∈ negs → n ∈ l → n ∈ dst))
    ∧ (SharedSampleNegative (num_neg_ (reader w)) dst dst = None →
         (GetTrainBatch w).1 = CheckFailed).
Proof.
  intros Hn dst request. rewrite (GetTrainBatch_run _ _ _ Hn).
  set (w0 := after_NextBatch lp w).
  assert (Hk : num_neg_ (reader w0) = num_neg_ (reader w)) by done.
  destruct (SharedSampleNegative (num_neg_ (reader w)) dst dst) as [negs|] eqn:Hs.
  - unfold mbind, M_bind.
    rewrite (GetTrainBatch_indexed_run values negs w0) by by rewrite Hk.
    set (w1 := GetTrainBatch_indexed_world values negs w0).
    destruct (GetTrainBatch_edges_world w1) as [Hr Ht].
    set (all := Collect values src_node ++ Collect values dst_node ++ concat negs).
    exists (invalid_log (user_ns_id_ (reader w)) (item_ns_id_ (reader w)) all
            ++ FillInstance_events USER_ENCODER_NAME
                 (users_of (user_ns_id_ (reader w)) all)
                 (num_neighbors_ (reader w)) (use_neigh_feat_ (reader w))
            ++ FillInstance_events ITEM_ENCODER_NAME
                 (items_of (user_ns_id_ (reader w)) (item_ns_id_ (reader w)) all)
                 (num_neighbors_ (reader w)) (use_neigh_feat_ (reader w))
            ++ [CallFillEdgeAndLabel (src_nodes_ (reader w1)) (dst_nodes_ (reader w1))
                  (neg_nodes_list_ (reader w1))]).
    split; [|split; [|split; [|split]]].
    + rewrite Ht. unfold w1. rewrite GetTrainBatch_indexed_world_trace.
      unfold w0, after_NextBatch. cbn [trace reader].
      rewrite <- !app_assoc. cbn [app]. rewrite <- !app_assoc. reflexivity.
    + intros e. rewrite !elem_of_app, list_elem_of_singleton.
      intros [?|[?|[?|?]]]; subst;
        eauto using quiet_invalid_log, quiet_FillInstance_events.
    + by rewrite Hr.
    + intros ? [= <-]. split; [by rewrite Hr|].
      intros HP l n. by apply (HP _ _ _ _ Hs).
    + done.
  - unfold mbind, M_bind.
    rewrite (GetTrainBatch_indexed_no_samples values w0) by by rewrite Hk.
    exists []. split; [|split; [|split; [|split]]]; try done.
    + unfold w0. simpl. by rewrite <- !app_assoc.
    + by intros e ?%elem_of_nil.
Qed.

(** C7: in a training batch a node whose tag is neither registered tag,
    such as one that the sampler answered as a negative, is left out of the
    user node list and of the item node list; it is therefore a key of
    neither level-0 table, and the index function has no flat index for it:
    its lookup is negative and the check fails. *)
Theorem unrecognized_negative_not_indexed (values : list EdgeValue)
    (negs : list (list Z)) (w : World) (n : Z) :
  SubGraphContract → IterationContract →
  SharedSampleNegative (num_neg_ (reader w)) (Collect values dst_node)
    (Collect values dst_node) = Some negs →
  n ∈ concat negs →
  GetNodeType n ≠ user_ns_id_ (reader w) →
  GetNodeType n ≠ item_ns_id_ (reader w) →
  ∃ user_nodes item_nodes w' user0 item0,
    GetTrainBatch_indexed values w = (Done (user_nodes, item_nodes), w')
    ∧ ¬ n ∈ user_nodes
    ∧ ¬ n ∈ item_nodes
    ∧ n ∈ concat (neg_nodes_list_ (reader w'))
    ∧ user_indexings_ (reader w') !! 0%nat = Some user0
    ∧ item_indexings_ (reader w') !! 0%nat = Some item0
    ∧ ¬ n ∈ index_keys user0
    ∧ ¬ n ∈ index_keys item0
    ∧ Indexing_Get user0 n < 0
    ∧ Indexing_Get item0 n < 0
    ∧ index_func (reader w') n = CheckFailed.
Proof.
  intros HS HI Hs Hneg Hu Hi.
  destruct (GetTrainBatch_indexed_world_tables values negs w HS) as [Hut Hit].
  assert (Hnu : ¬ n ∈ users_of (user_ns_id_ (reader w))
            (Collect values src_node ++ Collect values dst_node ++ concat negs))
    by (rewrite elem_of_users_of; tauto).
  assert (Hni : ¬ n ∈ items_of (user_ns_id_ (reader w)) (item_ns_id_ (reader w))
            (Collect values src_node ++ Collect values dst_node ++ concat negs))
    by (rewrite elem_of_items_of; tauto).
  do 5 eexists. split; [by apply GetTrainBatch_indexed_run|].
  split; [done|]. split; [done|]. split; [done|].
  split; [exact Hut|]. split; [exact Hit|].
  assert (Hku : ¬ n ∈ index_keys (CreateIndexing (list_to_set (users_of
            (user_ns_id_ (reader w))
            (Collect values src_node ++ Collect values dst_node ++ concat negs))))).
  { rewrite CreateIndexing_keys by done. by rewrite elem_of_list_to_set. }
  assert (Hki : ¬ n ∈ index_keys (CreateIndexing (list_to_set (items_of
            (user_ns_id_ (reader w)) (item_ns_id_ (reader w))
            (Collect values src_node ++ Collect values dst_node ++ concat negs))))).
  { rewrite CreateIndexing_keys by done. by rewrite elem_of_list_to_set. }
  split; [done|]. split; [done|].
  rewrite !Indexing_Get_absent by done.
  split; [lia|]. split; [lia|].
  rewrite (index_func_item _ _ _ Hut Hit) by done.
  by rewrite Indexing_Get_absent.
Qed.

(** ** The first end-to-end scenario *)

Lemma keys_singleton (l : list Z) (a : Z) :
  NoDup l → (∀ n, n ∈ l ↔ n = a) → l = [a].
Proof.
  intros Hnd Hl. destruct l as [|x l].
  - exfalso. by apply (elem_of_nil a), Hl.
  - assert (x = a) as -> by (apply Hl; by left).
    destruct l as [|y l]; [done|].
    assert (y = a) as -> by (apply Hl; right; by left).
    apply NoDup_cons in Hnd as [Hnd _]. exfalso. apply Hnd. by left.
Qed.

Lemma keys_pair (l : list Z) (a b : Z) :
  NoDup l → (∀ n, n ∈ l ↔ n = a ∨ n = b) → a ≠ b → l = [a; b] ∨ l = [b; a].
Proof.
  intros Hnd Hl Hab.
  assert (Hrest : ∀ (x y : Z) (l' : list Z), NoDup (x :: l') → x ≠ y →
            (∀ n, n ∈ x :: l' ↔ n = x ∨ n = y) → l' = [y]).
  { intros x y l' Hnd' Hxy Hl'. apply NoDup_cons in Hnd' as [Hx Hnd'].
    apply keys_singleton; [done|]. intros n. split.
    - intros Hn. destruct (proj1 (Hl' n)) as [-> | ->]; [by right|done..].
    - intros ->. assert (y ∈ x :: l') as [Heq|Hin]%elem_of_cons
        by (apply Hl'; by right); [congruence|done]. }
  destruct l as [|x l].
  - exfalso. apply (elem_of_nil a), Hl. by left.
  - destruct (proj1 (Hl x)) as [-> | ->]; [by left|..].
    + left. f_equal. by apply (Hrest a b).
    + right. f_equal. apply (Hrest b a); [done..|]. intros n. rewrite Hl. tauto.
Qed.

Lemma users_of_none ug l : (∀ n, n ∈ l → GetNodeType n ≠ ug) → users_of ug l = [].
Proof.
  unfold users_of. induction l as [|n l IH]; intros Hl; [done|].
  rewrite filter_cons, decide_False by (apply Hl; by left).
  apply IH. intros m Hm. apply Hl. by right.
Qed.

Lemma items_of_all ug ig l :
  (∀ n, n ∈ l → GetNodeType n ≠ ug ∧ GetNodeType n = ig) → items_of ug ig l = l.
Proof.
  unfold items_of. induction l as [|n l IH]; intros Hl; [done|].
  rewrite filter_cons, decide_True by (apply Hl; by left).
  f_equal. apply IH. intros m Hm. apply Hl. by right.
Qed.

(** C8: for the edges [(U1, I1)] and [(U2, I1)] with one negative per
    edge, user tag 0 and item tag 1, the batch is built: the user table
    holds the two users at indices 0 and 1 in some order, the item table
    holds [I1] alone, [I1] resolves to the flat index 2, the edge-and-label
    fill receives these flat indices for sources, destinations and
    negatives, and the batch size is 2. *)
Theorem two_users_one_item_scenario (w : World) (U1 U2 I1 : Z) (lp : LineParser)
    (negs : list (list Z)) :
  SubGraphContract → IterationContract → NegativePoolContract →
  GetNodeType U1 = 0 → GetNodeType U2 = 0 → GetNodeType I1 = 1 → U1 ≠ U2 →
  num_neg_ (reader w) = 1 → user_ns_id_ (reader w) = 0 → item_ns_id_ (reader w) = 1 →
  NextBatch_EdgeValue (batch_ (reader w)) (line_parser_ (reader w))
    = (Some [{| src_node := U1; dst_node := I1 |};
             {| src_node := U2; dst_node := I1 |}], lp) →
  SharedSampleNegative 1 [I1; I1] [I1; I1] = Some negs →
  ∃ w' user0 item0 i1 i2,
    GetTrainBatch w = (Done true, w')
    ∧ user_indexings_ (reader w') !! 0%nat = Some user0
    ∧ item_indexings_ (reader w') !! 0%nat = Some item0
    ∧ Indexing_Size user0 = 2
    ∧ Indexing_Size item0 = 1
    ∧ Indexing_Get user0 U1 = i1
    ∧ Indexing_Get user0 U2 = i2
    ∧ 0 ≤ i1 < 2 ∧ 0 ≤ i2 < 2 ∧ i1 ≠ i2
    ∧ Indexing_Get item0 I1 = 0
    ∧ index_func (reader w') U1 = Done i1
    ∧ index_func (reader w') U2 = Done i2
    ∧ index_func (reader w') I1 = Done 2
    ∧ inst w'
      = set_batch 2
          (EdgeAndLabelLayout X_SRC_ID_NAME X_DST_ID_NAME Y_NAME
             [i1; i2] [2; 2] ((λ l : list Z, (λ _, 2) <$> l) <$> negs)
             (inst (GetTrainBatch_indexed_world
                      [{| src_node := U1; dst_node := I1 |};
                       {| src_node := U2; dst_node := I1 |}] negs
                      (after_NextBatch lp w))))
    ∧ inst_batch (inst w') = 2.
Proof.
  intros HS HI HP T1 T2 TI Hne Hk Hug Hig Hnext Hs.
  set (values := [{| src_node := U1; dst_node := I1 |};
                  {| src_node := U2; dst_node := I1 |}]) in *.
  set (w0 := after_NextBatch lp w).
  assert (Hneg : ∀ n, n ∈ concat negs → n = I1).
  { intros n (l & Hl & Hn)%elem_of_concat.
    pose proof (HP _ _ _ _ Hs l n Hl Hn) as Hin.
    rewrite !elem_of_cons, elem_of_nil in Hin. tauto. }
  assert (Husers : users_of 0 (Collect values src_node ++ Collect values dst_node
                                ++ concat negs) = [U1; U2]).
  { rewrite !users_of_app. rewrite (users_of_none 0 (concat negs)).
    2:{ intros n ->%Hneg. lia. }
    unfold users_of. simpl. rewrite !filter_cons, filter_nil.
    by repeat case_decide; try lia. }
  assert (Hitems : items_of 0 1 (Collect values src_node ++ Collect values dst_node
                                   ++ concat negs) = I1 :: I1 :: concat negs).
  { rewrite !items_of_app. rewrite (items_of_all 0 1 (concat negs)).
    2:{ intros n ->%Hneg. lia. }
    unfold items_of. simpl. rewrite !filter_cons, filter_nil.
    by repeat case_decide; try lia. }
  set (w1 := GetTrainBatch_indexed_world values negs w0).
  destruct (GetTrainBatch_indexed_world_tables values negs w0 HS) as [Hut Hit].
  fold w1 in Hut, Hit.
  change (user_ns_id_ (reader w0)) with (user_ns_id_ (reader w)) in Hut, Hit.
  change (item_ns_id_ (reader w0)) with (item_ns_id_ (reader w)) in Hit.
  rewrite Hug in Hut, Hit. rewrite Hig in Hit. rewrite Husers in Hut.
  rewrite Hitems in Hit.
  set (user0 := CreateIndexing (list_to_set [U1; U2])) in *.
  set (item0 := CreateIndexing (list_to_set (I1 :: I1 :: concat negs))) in *.
  assert (Hik : index_keys item0 = [I1]).
  { apply keys_singleton; [by apply CreateIndexing_NoDup|].
    intros n. unfold item0. rewrite CreateIndexing_keys by done.
    rewrite elem_of_list_to_set, !elem_of_cons. specialize (Hneg n). tauto. }
  assert (Huk : index_keys user0 = [U1; U2] ∨ index_keys user0 = [U2; U1]).
  { apply keys_pair; [by apply CreateIndexing_NoDup| |done].
    intros n. unfold user0. rewrite CreateIndexing_keys by done.
    rewrite elem_of_list_to_set, !elem_of_cons, elem_of_nil. tauto. }
  assert (Hsize_i : Indexing_Size item0 = 1) by (unfold Indexing_Size; by rewrite Hik).
  assert (Hsize_u : Indexing_Size user0 = 2)
    by (unfold Indexing_Size; by destruct Huk as [-> | ->]).
  assert (Hget_i : Indexing_Get item0 I1 = 0).
  { unfold Indexing_Get. rewrite Hik. simpl. by rewrite Z.eqb_refl. }
  assert (Hget_u : (Indexing_Get user0 U1 = 0 ∧ Indexing_Get user0 U2 = 1)
                   ∨ (Indexing_Get user0 U1 = 1 ∧ Indexing_Get user0 U2 = 0)).
  { unfold Indexing_Get. destruct Huk as [-> | ->]; [left|right]; simpl;
      rewrite !Z.eqb_refl;
      destruct (Z.eqb_spec U1 U2); destruct (Z.eqb_spec U2 U1); done. }
  assert (Huser_ns : user_ns_id_ (reader w1) = 0) by (by rewrite <- Hug).
  assert (F1 : index_func (reader w1) U1 = Done (Indexing_Get user0 U1)).
  { rewrite (index_func_user _ _ Hut) by by rewrite Huser_ns.
    by destruct Hget_u as [[-> _]|[-> _]]. }
  assert (F2 : index_func (reader w1) U2 = Done (Indexing_Get user0 U2)).
  { rewrite (index_func_user _ _ Hut) by by rewrite Huser_ns.
    by destruct Hget_u as [[_ ->]|[_ ->]]. }
  assert (FI : index_func (reader w1) I1 = Done 2).
  { rewrite (index_func_item _ _ _ Hut Hit) by (rewrite Huser_ns; lia).
    by rewrite Hget_i, Hsize_u. }
  assert (Hneg_index : for_each (for_each (index_func (reader w1))) negs
                       = Done ((λ l : list Z, (λ _, 2) <$> l) <$> negs)).
  { apply for_each_Done. intros l Hl. apply for_each_Done. intros n Hn.
    rewrite (Hneg n); [done|]. apply elem_of_concat. by exists l. }
  exists {| reader := reader w1;
            inst := set_batch 2
                      (EdgeAndLabelLayout X_SRC_ID_NAME X_DST_ID_NAME Y_NAME
                         [Indexing_Get user0 U1; Indexing_Get user0 U2] [2; 2]
                         ((λ l : list Z, (λ _, 2) <$> l) <$> negs) (inst w1));
            trace := trace w1 ++ [CallFillEdgeAndLabel [U1; U2] [I1; I1] negs] |},
         user0, item0, (Indexing_Get user0 U1), (Indexing_Get user0 U2).
  split.
  { rewrite (GetTrainBatch_run _ _ _ Hnext). unfold mbind, M_bind. fold w0.
    rewrite (GetTrainBatch_indexed_run values negs w0).
    2:{ change (num_neg_ (reader w0)) with (num_neg_ (reader w)). by rewrite Hk. }
    fold w1.
    rewrite (GetTrainBatch_edges_Done w1
               [Indexing_Get user0 U1; Indexing_Get user0 U2] [2; 2]
               ((λ l : list Z, (λ _, 2) <$> l) <$> negs)); [done|..].
    - change (src_nodes_ (reader w1)) with [U1; U2]. cbn [for_each].
      by rewrite F1, F2.
    - change (dst_nodes_ (reader w1)) with [I1; I1]. cbn [for_each].
      by rewrite FI.
    - exact Hneg_index. }
  cbn [reader inst].
  repeat (split; [first [done | lia | by destruct Hget_u as [[-> ->]|[-> ->]]]|]).
  done.
Qed.

(** ** The inference batch *)

Lemma for_each_total {A B} (f : A → outcome B) (l : list A) :
  (∀ a, a ∈ l → ∃ b, f a = Done b) → ∃ bs, for_each f l = Done bs.
Proof.
  induction l as [|a l IH]; intros Hf; [by exists []|].
  destruct (Hf a) as [b Hb]; [by left|].
  destruct IH as [bs Hbs]; [intros c Hc; apply Hf; by right|].
  exists (b :: bs). simpl. by rewrite Hb, Hbs.
Qed.

Lemma GetPredictBatch_index_cases w :
  GetPredictBatch_index w
  = match for_each (Index (reader w)) (src_nodes_ (reader w)) with
    | Done flat =>
      (Done true,
       {| reader := reader w;
          inst := set_batch (to_int (Z.of_nat (length (src_nodes_ (reader w)))))
                    (put_vec X_PREDICT_NODE_NAME (src_nodes_ (reader w))
                       (put_csr X_SRC_ID_NAME (index_rows flat) (inst w)));
          trace := trace w |})
    | failed =>
      ((λ _, true) <$> failed,
       {| reader := reader w;
          inst := put_csr X_SRC_ID_NAME
                    (index_rows (resolved_prefix (Index (reader w))
                                   (src_nodes_ (reader w)))) (inst w);
          trace := trace w |})
    end.
Proof.
  unfold GetPredictBatch_index, mbind, M_bind, mret, M_ret, on_inst, gets.
  cbn [reader inst trace]. rewrite FillIndex_run.
  destruct (for_each (Index (reader w)) (src_nodes_ (reader w))) as [flat| |] eqn:Hflat;
    cbn; [|done..].
  by rewrite (resolved_prefix_Done _ _ _ Hflat).
Qed.

Lemma GetPredictBatch_index_Done w flat :
  for_each (Index (reader w)) (src_nodes_ (reader w)) = Done flat →
  GetPredictBatch_index w
  = (Done true,
     {| reader := reader w;
        inst := set_batch (to_int (Z.of_nat (length (src_nodes_ (reader w)))))
                  (put_vec X_PREDICT_NODE_NAME (src_nodes_ (reader w))
                     (put_csr X_SRC_ID_NAME
                        {| csr_rows := (λ i, [(i, 1)]) <$> flat; csr_open := [] |}
                        (inst w)));
        trace := trace w |}).
Proof. intros Hflat. by rewrite GetPredictBatch_index_cases, Hflat. Qed.

Lemma GetPredictBatch_index_failed w :
  (∀ flat, for_each (Index (reader w)) (src_nodes_ (reader w)) ≠ Done flat) →
  (GetPredictBatch_index w).1 ≠ Done true.
Proof.
  intros Hm. rewrite GetPredictBatch_index_cases.
  destruct (for_each _ _) as [flat| |] eqn:Hflat; [|done..].
  by destruct (Hm flat).
Qed.

(** Every node of an inference batch that carries a registered tag is in
    the table consulted for it, so the batch is built. *)
Lemma GetPredictBatch_succeeds w values lp :
  SubGraphContract → IterationContract →
  NextBatch_NodeValue (batch_ (reader w)) (line_parser_ (reader w))
    = (Some values, lp) →
  (∀ n, n ∈ Collect values node →
     GetNodeType n = user_ns_id_ (reader w) ∨ GetNodeType n = item_ns_id_ (reader w)) →
  ∃ w', GetPredictBatch w = (Done true, w').
Proof.
  intros HS HI Hnext Hrec.
  rewrite (GetPredictBatch_run _ _ _ Hnext). unfold mbind, M_bind.
  set (w0 := after_NextBatch lp w).
  rewrite GetPredictBatch_indexed_run. set (w1 := GetPredictBatch_indexed_world values w0).
  destruct (GetPredictBatch_indexed_world_tables values w0 HS) as [Hut Hit].
  fold w1 in Hut, Hit.
  change (user_ns_id_ (reader w0)) with (user_ns_id_ (reader w)) in Hut, Hit.
  change (item_ns_id_ (reader w0)) with (item_ns_id_ (reader w)) in Hit.
  set (user0 := CreateIndexing (list_to_set (users_of _ _))) in Hut.
  set (item0 := CreateIndexing (list_to_set (items_of _ _ _))) in Hit.
  destruct (for_each_total (index_func (reader w1)) (src_nodes_ (reader w1)))
    as [vs Hvs].
  { intros n Hn. change (src_nodes_ (reader w1)) with (Collect values node) in Hn.
    rewrite (index_func_consulted _ _ _ Hut Hit).
    assert (Hin : n ∈ index_keys (consulted (reader w1) user0 item0 n)).
    { unfold consulted, user0, item0.
      change (user_ns_id_ (reader w1)) with (user_ns_id_ (reader w)).
      destruct (Z.eqb_spec (GetNodeType n) (user_ns_id_ (reader w))) as [Hu|Hu];
        rewrite CreateIndexing_keys, elem_of_list_to_set by done.
      - by apply elem_of_users_of.
      - apply elem_of_items_of. destruct (Hrec n Hn); tauto. }
    apply Indexing_Get_nonneg, Z.leb_le in Hin. rewrite Hin. eauto. }
  eexists. apply (GetPredictBatch_index_Done _ (to_int <$> vs)).
  by apply for_each_Index.
Qed.

(** C9: whenever an inference batch is built, the predict-node list
    stored in the instance is the sequence of nodes read from the record
    source, identifier for identifier and in the same order, whatever the
    tables made of them, and the batch size is the number of records
    read. *)
Theorem predict_nodes_verbatim (w w' : World) :
  BatchSizeContract → batch_ (reader w) ≤ INT_MAX →
  GetPredictBatch w = (Done true, w') →
  ∃ values lp,
    NextBatch_NodeValue (batch_ (reader w)) (line_parser_ (reader w))
      = (Some values, lp)
    ∧ inst_vec (inst w') !! X_PREDICT_NODE_NAME = Some (node <$> values)
    ∧ src_nodes_ (reader w') = node <$> values
    ∧ inst_batch (inst w') = Z.of_nat (length values).
Proof.
  intros HB Hbatch Hrun.
  destruct (NextBatch_NodeValue (batch_ (reader w)) (line_parser_ (reader w)))
    as [[values|] lp] eqn:Hnext.
  2:{ by rewrite (GetPredictBatch_end _ _ Hnext) in Hrun. }
  exists values, lp. split; [done|].
  pose proof (HB _ _ _ _ Hnext) as Hlen.
  rewrite (GetPredictBatch_run _ _ _ Hnext) in Hrun. unfold mbind, M_bind in Hrun.
  rewrite GetPredictBatch_indexed_run in Hrun.
  set (w1 := GetPredictBatch_indexed_world values (after_NextBatch lp w)) in *.
  destruct (for_each (Index (reader w1)) (src_nodes_ (reader w1)))
    as [flat| |] eqn:Hrows.
  - rewrite (GetPredictBatch_index_Done _ _ Hrows) in Hrun.
    injection Hrun as <-. cbn [inst reader].
    change (src_nodes_ (reader w1)) with (node <$> values).
    split; [|split; [done|]].
    + unfold set_batch, put_vec. cbn [inst_vec]. apply lookup_insert_eq.
    + unfold set_batch, Collect. cbn [inst_batch]. rewrite length_fmap.
      apply to_int_fits. unfold INT_MAX in *. lia.
  - exfalso. apply (GetPredictBatch_index_failed w1); [|by rewrite Hrun].
    intros id. by rewrite Hrows.
  - exfalso. apply (GetPredictBatch_index_failed w1); [|by rewrite Hrun].
    intros id. by rewrite Hrows.
Qed.

(** ** What an unregistered tag costs later

    The classifier only logs such a node; the node is then missing from
    both tables, so the step that resolves the nodes of the batch fails its
    check. *)

Lemma unrecognized_not_consulted (this : UnsupBipartiteInstReader)
    (users items : list Z) (item_group n : Z) :
  IterationContract →
  GetNodeType n ≠ user_ns_id_ this → GetNodeType n ≠ item_group →
  ¬ n ∈ index_keys
          (consulted this (CreateIndexing (list_to_set users))
             (CreateIndexing
                (list_to_set (items_of (user_ns_id_ this) item_group items))) n).
Proof.
  intros HI Hu Hi. unfold consulted.
  rewrite (proj2 (Z.eqb_neq _ _) Hu).
  rewrite CreateIndexing_keys, elem_of_list_to_set, elem_of_items_of by done. tauto.
Qed.

Lemma GetPredictBatch_unrecognized_aborts w values lp n :
  SubGraphContract → IterationContract →
  NextBatch_NodeValue (batch_ (reader w)) (line_parser_ (reader w))
    = (Some values, lp) →
  n ∈ Collect values node →
  GetNodeType n ≠ user_ns_id_ (reader w) →
  GetNodeType n ≠ item_ns_id_ (reader w) →
  (GetPredictBatch w).1 = CheckFailed.
Proof.
  intros HS HI Hnext Hn Hu Hi.
  rewrite (GetPredictBatch_run _ _ _ Hnext). unfold mbind, M_bind.
  set (w0 := after_NextBatch lp w).
  rewrite GetPredictBatch_indexed_run.
  set (w1 := GetPredictBatch_indexed_world values w0).
  destruct (GetPredictBatch_indexed_world_tables values w0 HS) as [Hut Hit].
  fold w1 in Hut, Hit.
  pose proof (unrecognized_not_consulted (reader w1)
                (users_of (user_ns_id_ (reader w0)) (Collect values node))
                (Collect values node) (item_ns_id_ (reader w0)) n HI Hu Hi) as Habs.
  assert (Hf : index_func (reader w1) n = CheckFailed).
  { rewrite (index_func_consulted _ _ _ Hut Hit).
    rewrite (Indexing_Get_absent (consulted _ _ _ _) n); [done|exact Habs]. }
  apply (GetPredictBatch_index_CheckFailed w1 _ _ n Hut Hit); [exact Hn|].
  by rewrite Index_index_func, Hf.
Qed.

Lemma GetTrainBatch_unrecognized_aborts w values lp negs n :
  SubGraphContract → IterationContract →
  NextBatch_EdgeValue (batch_ (reader w)) (line_parser_ (reader w))
    = (Some values, lp) →
  SharedSampleNegative (num_neg_ (reader w)) (Collect values dst_node)
    (Collect values dst_node) = Some negs →
  n ∈ Collect values src_node ++ Collect values dst_node ++ concat negs →
  GetNodeType n ≠ user_ns_id_ (reader w) →
  GetNodeType n ≠ item_ns_id_ (reader w) →
  (GetTrainBatch w).1 = CheckFailed.
Proof.
  intros HS HI Hnext Hs Hn Hu Hi.
  rewrite (GetTrainBatch_run _ _ _ Hnext). unfold mbind, M_bind.
  set (w0 := after_NextBatch lp w).
  rewrite (GetTrainBatch_indexed_run values negs w0) by done.
  set (w1 := GetTrainBatch_indexed_world values negs w0).
  destruct (GetTrainBatch_indexed_world_tables values negs w0 HS) as [Hut Hit].
  fold w1 in Hut, Hit.
  pose proof (unrecognized_not_consulted (reader w1)
                (users_of (user_ns_id_ (reader w0))
                   (Collect values src_node ++ Collect values dst_node ++ concat negs))
                (Collect values src_node ++ Collect values dst_node ++ concat negs)
                (item_ns_id_ (reader w0)) n HI Hu Hi) as Habs.
  assert (Hf : index_func (reader w1) n = CheckFailed).
  { rewrite (index_func_consulted _ _ _ Hut Hit).
    rewrite (Indexing_Get_absent (consulted _ _ _ _) n); [done|exact Habs]. }
  unfold GetTrainBatch_edges, mbind, M_bind, gets.
  by rewrite (flow_FillEdgeAndLabel_CheckFailed _ _ _ _ _ _ _ _ _ _ n Hut Hit Hn Hf).
Qed.

(** C3: a node whose tag is neither registered tag costs one diagnostic,
    naming the node, its tag and the two expected tags; the call of the
    classifier still completes, the node is appended to neither list, and
    the nodes before and after it are classified as if it were not there.
    The batch does not survive the node: with these two tags registered,
    a batch whose records hold it as predict node, source or destination,
    or whose sampler answers it as a negative, stops at the index check. *)
Theorem invalid_node_is_dropped (before after : list Z) (n : Z)
    (user_group item_group : Z) (user_nodes item_nodes : list Z) (w : World) :
  GetNodeType n ≠ user_group → GetNodeType n ≠ item_group →
  ParseUserAndItemFrom (before ++ n :: after) user_group item_group
    user_nodes item_nodes w
  = (Done (user_nodes ++ users_of user_group (before ++ after),
           item_nodes ++ items_of user_group item_group (before ++ after)),
     log_events (invalid_log user_group item_group before
                 ++ LogInvalidNode n (GetNodeType n) user_group item_group
                    :: invalid_log user_group item_group after) w)
  ∧ ¬ n ∈ users_of user_group (before ++ after)
  ∧ ¬ n ∈ items_of user_group item_group (before ++ after)
  ∧ (∀ r w', ParseUserAndItemFrom before user_group item_group
               user_nodes item_nodes w = (Done r, w') →
       ParseUserAndItemFrom (before ++ n :: after) user_group item_group
         user_nodes item_nodes w
       = ParseUserAndItemFrom after user_group item_group r.1 r.2
           (log_events [LogInvalidNode n (GetNodeType n) user_group item_group] w'))
  ∧ (∀ w0 values lp,
       SubGraphContract → IterationContract →
       user_ns_id_ (reader w0) = user_group →
       item_ns_id_ (reader w0) = item_group →
       NextBatch_NodeValue (batch_ (reader w0)) (line_parser_ (reader w0))
         = (Some values, lp) →
       n ∈ node <$> values →
       (GetPredictBatch w0).1 = CheckFailed)
  ∧ (∀ w0 values lp negs,
       SubGraphContract → IterationContract →
       user_ns_id_ (reader w0) = user_group →
       item_ns_id_ (reader w0) = item_group →
       NextBatch_EdgeValue (batch_ (reader w0)) (line_parser_ (reader w0))
         = (Some values, lp) →
       SharedSampleNegative (num_neg_ (reader w0)) (dst_node <$> values)
         (dst_node <$> values) = Some negs →
       n ∈ (src_node <$> values) ++ (dst_node <$> values) ++ concat negs →
       (GetTrainBatch w0).1 = CheckFailed).
Proof.
  intros Hu Hi.
  pose proof (ParseUserAndItemFrom_invalid before after n user_group item_group
                user_nodes item_nodes w Hu Hi) as Hrun.
  split; [done|]. split; [|split; [|split; [|split]]].
  - rewrite elem_of_users_of. tauto.
  - rewrite elem_of_items_of. tauto.
  - intros r w'. rewrite Hrun, !ParseUserAndItemFrom_run. intros [= <- <-]. simpl.
    rewrite users_of_app, items_of_app, !log_events_app, !app_assoc. simpl.
    by rewrite <- !app_assoc.
  - intros w0 values lp HS HI Hug Hig Hnext Hn. subst.
    by apply (GetPredictBatch_unrecognized_aborts w0 values lp n).
  - intros w0 values lp negs HS HI Hug Hig Hnext Hs Hn. subst.
    by apply (GetTrainBatch_unrecognized_aborts w0 values lp negs n).
Qed.

(** ** The member [Index] inside an inference batch

    Both tables of an inference batch are made of nodes of the batch, and a
    batch holds at most [batch_] records, an [int]: every flat index fits
    an [int], and [Index] yields what [index_func] yields. *)

Lemma size_list_to_set_le (l : list Z) :
  (size (list_to_set l : gset Z) ≤ length l)%nat.
Proof.
  induction l as [|x l IH].
  - rewrite list_to_set_nil, size_empty. done.
  - rewrite list_to_set_cons, size_union_alt, size_singleton.
    assert (Hsub : list_to_set l ∖ {[x]} ⊆ (list_to_set l : gset Z))
      by (intros y Hy; apply elem_of_difference in Hy; tauto).
    apply subseteq_size in Hsub. cbn [length]. lia.
Qed.

Lemma length_users_items ug ig (l : list Z) :
  (length (users_of ug l) + length (items_of ug ig l) ≤ length l)%nat.
Proof.
  unfold users_of, items_of. induction l as [|n l IH]; [done|].
  rewrite !filter_cons. repeat case_decide; simpl; try tauto; lia.
Qed.

Lemma Index_agrees_in_GetPredictBatch w values lp n :
  SubGraphContract → IterationContract → BatchSizeContract →
  batch_ (reader w) ≤ INT_MAX →
  NextBatch_NodeValue (batch_ (reader w)) (line_parser_ (reader w))
    = (Some values, lp) →
  Index (reader (GetPredictBatch_indexed_world values (after_NextBatch lp w))) n
  = index_func (reader (GetPredictBatch_indexed_world values (after_NextBatch lp w))) n.
Proof.
  intros HS HI HB Hbatch Hnext.
  set (w1 := GetPredictBatch_indexed_world values (after_NextBatch lp w)).
  destruct (GetPredictBatch_indexed_world_tables values (after_NextBatch lp w) HS)
    as [Hut Hit].
  fold w1 in Hut, Hit.
  set (users := users_of _ _) in Hut. set (items := items_of _ _ _) in Hit.
  pose proof (HB _ _ _ _ Hnext) as Hlen.
  pose proof (length_users_items (user_ns_id_ (reader w)) (item_ns_id_ (reader w))
                (Collect values node)) as Hsplit.
  unfold Collect in Hsplit at 3. rewrite length_fmap in Hsplit.
  pose proof (size_list_to_set_le users) as Hsu.
  pose proof (size_list_to_set_le items) as Hsi.
  assert (Hfit : Indexing_Size (CreateIndexing (list_to_set users))
                 + Indexing_Size (CreateIndexing (list_to_set items)) ≤ INT_MAX).
  { rewrite !CreateIndexing_Size by done.
    change (user_ns_id_ (reader (after_NextBatch lp w)))
      with (user_ns_id_ (reader w)) in *.
    change (item_ns_id_ (reader (after_NextBatch lp w)))
      with (item_ns_id_ (reader w)) in *.
    fold users items in Hsplit. lia. }
  rewrite Index_index_func.
  destruct (index_func (reader w1) n) as [v| |] eqn:Hv; [|done..].
  simpl. f_equal. apply to_int_fits.
  pose proof (index_func_range _ _ _ Hv) as Hr.
  rewrite (index_func_consulted _ _ _ Hut Hit) in Hv.
  destruct (0 <=? _) eqn:Hge; [|done]. injection Hv as <-.
  apply Z.leb_le, Indexing_Get_nonneg in Hge.
  unfold consulted in Hge.
  assert (0 ≤ Indexing_Size (CreateIndexing (list_to_set users)))
    by (unfold Indexing_Size; lia).
  assert (0 ≤ Indexing_Size (CreateIndexing (list_to_set items)))
    by (unfold Indexing_Size; lia).
  unfold INT_MAX in *.
  change (user_ns_id_ (reader w1)) with (user_ns_id_ (reader w)) in *.
  destruct (GetNodeType n =? user_ns_id_ (reader w)).
  - pose proof (Indexing_Get_present _ _ Hge).
    rewrite to_int_t_small by lia. lia.
  - pose proof (Indexing_Get_present _ _ Hge).
    rewrite to_int_t_small, add_u64_small by (rewrite ?to_int_t_small; lia). lia.
Qed.

End Properties.

(** * More properties *)

(** ** Configuration *)

Section ConfigurationProperties.
Context `{Collab : Collaborators} `{Config : !ConfigCollaborators}.

Lemma stoi_range v val : stoi v = Parsed val → INT_MIN ≤ val ≤ INT_MAX.
Proof.
  unfold stoi. destruct (read_sign (skip_space v)) as [negative digits].
  destruct digits as [|c digits]; [done|].
  destruct (digit_of c); [|done].
  destruct (_ && _) eqn:Hr; [|done]. intros [= <-].
  apply andb_prop in Hr as [?%Z.leb_le ?%Z.leb_le]. done.
Qed.

Lemma to_uint16_range x : 0 ≤ to_uint16 x < 2 ^ 16.
Proof. unfold to_uint16. apply Z.mod_pos_bound. lia. Qed.

Lemma to_uint16_fits x : to_uint16 x = x ↔ 0 ≤ x < 2 ^ 16.
Proof.
  split.
  - intros <-. apply to_uint16_range.
  - intros ?. by apply Z.mod_small.
Qed.

(** Every way through [InitConfigKV]. *)
Ltac through_InitConfigKV :=
  unfold InitConfigKV, accepted;
  destruct (InstanceReaderImpl_InitConfigKV _ _ _) as [[] [? ?]];
  repeat case_decide; subst;
  try (destruct (stoi _) as [val|e] eqn:Hstoi);
  try (destruct (Split_int _ _ _) as [[] ?]);
  try (destruct (_ || _) eqn:Hflag);
  try (destruct (0 <? _) eqn:Hpos);
  cbn [fst snd].

(** X1: whatever calls of [InitConfigKV] have configured a new reader, the
    number of negatives is a positive [int] and both type tags are 16-bit
    values. *)
Theorem configured_in_range (this : UnsupBipartiteInstReader) :
  configured this → config_in_range this.
Proof.
  induction 1 as [batch lp|k v this b this' log _ IH Hcall].
  - unfold config_in_range, new_reader, INT_MAX. simpl. lia.
  - destruct IH as (Hneg & Huser & Hitem). revert Hcall.
    through_InitConfigKV; intros [= <- <- <-]; try done;
      unfold config_in_range; cbn;
      repeat split; try lia; try apply to_uint16_range.
    + by apply Z.ltb_lt in Hpos.
    + apply stoi_range in Hstoi. lia.
Qed.

Lemma own_key_cases (k : string) :
  k ∈ own_keys
  ↔ k = "is_train" ∨ k = "num_neg" ∨ k = "num_neighbors" ∨ k = "use_neigh_feat"
    ∨ k = "user_ns_id" ∨ k = "item_ns_id".
Proof. unfold own_keys. rewrite !elem_of_cons, elem_of_nil. tauto. Qed.

(** X2: a call answers [false] exactly when the base class declines the
    key and the key is none of the six this reader handles; it then logs
    the unexpected pair and writes no member of its own.  The line that
    reports an accepted argument is logged exactly when the call answers
    [true]. *)
Theorem unknown_key_is_rejected (k v : string) (this : UnsupBipartiteInstReader) :
  let base := InstanceReaderImpl_InitConfigKV k v (batch_ this, line_parser_ this) in
  let unknown := base.1 = false ∧ ¬ k ∈ own_keys in
  ((InitConfigKV k v this).1.1 = Returned false ↔ unknown)
  ∧ (unknown →
     (InitConfigKV k v this).2 = [LogUnexpectedConfig k v]
     ∧ (InitConfigKV k v this).1.2
       = set_line_parser_ base.2.2 (set_batch_ base.2.1 this))
  ∧ ((InitConfigKV k v this).1.1 = Returned true
     ↔ (InitConfigKV k v this).2 = [LogInstanceReaderArgument k v]).
Proof.
  cbv zeta. split; [|split].
  - through_InitConfigKV; rewrite own_key_cases; intuition congruence.
  - through_InitConfigKV; rewrite own_key_cases; intuition congruence.
  - through_InitConfigKV; intuition congruence.
Qed.

(** X3: a call writes at most the member its key names: every other
    configuration member, and every buffer and table the batch builders
    use, is left as it was, also when the call aborts or throws. *)
Theorem InitConfigKV_frame (k v : string) (this : UnsupBipartiteInstReader) :
  let this' := (InitConfigKV k v this).1.2 in
  (k ≠ "is_train" → is_train_ this' = is_train_ this)
  ∧ (k ≠ "num_neg" → num_neg_ this' = num_neg_ this)
  ∧ (k ≠ "num_neighbors" → num_neighbors_ this' = num_neighbors_ this)
  ∧ (k ≠ "use_neigh_feat" → use_neigh_feat_ this' = use_neigh_feat_ this)
  ∧ (k ≠ "user_ns_id" → user_ns_id_ this' = user_ns_id_ this)
  ∧ (k ≠ "item_ns_id" → item_ns_id_ this' = item_ns_id_ this)
  ∧ src_nodes_ this' = src_nodes_ this
  ∧ dst_nodes_ this' = dst_nodes_ this
  ∧ neg_nodes_list_ this' = neg_nodes_list_ this
  ∧ user_indexings_ this' = user_indexings_ this
  ∧ item_indexings_ this' = item_indexings_ this.
Proof.
  cbv zeta. through_InitConfigKV; repeat split; done.
Qed.

(** X4: when the base class declines the key, the two flags are set only
    by a value that [std::stoi] reads as 0 or 1, and [num_neg] only by one
    it reads as a positive number; the call then answers [true] and the
    member holds that value.  For any other value the call never answers:
    the check aborts it, or the conversion throws. *)
Theorem checked_values (k v : string) (this : UnsupBipartiteInstReader) :
  (InstanceReaderImpl_InitConfigKV k v (batch_ this, line_parser_ this)).1 = false →
  let result := (InitConfigKV k v this).1.1 in
  let this' := (InitConfigKV k v this).1.2 in
  (k = "is_train" →
     (result = Returned true ↔ stoi v = Parsed 0 ∨ stoi v = Parsed 1)
     ∧ (result = Returned true → (is_train_ this' = true ↔ stoi v = Parsed 1))
     ∧ (result = CheckAborted ↔ ∃ val, stoi v = Parsed val ∧ val ≠ 0 ∧ val ≠ 1)
     ∧ (∀ e, result = Thrown e ↔ stoi v = Throws e))
  ∧ (k = "use_neigh_feat" →
     (result = Returned true ↔ stoi v = Parsed 0 ∨ stoi v = Parsed 1)
     ∧ (result = Returned true → (use_neigh_feat_ this' = true ↔ stoi v = Parsed 1))
     ∧ (result = CheckAborted ↔ ∃ val, stoi v = Parsed val ∧ val ≠ 0 ∧ val ≠ 1)
     ∧ (∀ e, result = Thrown e ↔ stoi v = Throws e))
  ∧ (k = "num_neg" →
     (result = Returned true ↔ ∃ val, stoi v = Parsed val ∧ 0 < val)
     ∧ (result = Returned true → stoi v = Parsed (num_neg_ this'))
     ∧ (result = CheckAborted ↔ ∃ val, stoi v = Parsed val ∧ val ≤ 0)
     ∧ (∀ e, result = Thrown e ↔ stoi v = Throws e)).
Proof.
  intros Hbase. cbv zeta. revert Hbase.
  unfold InitConfigKV, accepted.
  destruct (InstanceReaderImpl_InitConfigKV _ _ _) as [handled [batch lp]].
  cbn [fst]. intros ->.
  assert (Hex : ∀ (P : Z → Prop) val, (∃ val', Parsed val = Parsed val' ∧ P val') ↔ P val).
  { intros P val. split; [by intros (? & [= <-] & ?)|eauto]. }
  assert (Hnex : ∀ (P : Z → Prop) e, (∃ val', Throws e = Parsed val' ∧ P val') ↔ False).
  { intros P e. split; [by intros (? & [=] & ?)|done]. }
  split; [|split]; intros ->; repeat case_decide; try done;
    destruct (stoi v) as [val|e]; cbn [fst snd num_neg_ set_num_neg_];
    rewrite ?Hex, ?Hnex.
  - destruct (Z.eqb_spec val 1) as [->|N1]; [|destruct (Z.eqb_spec val 0) as [->|N0]];
      cbn; repeat split; try congruence; try (intuition congruence); try lia.
  - repeat split; intuition congruence.
  - destruct (Z.eqb_spec val 1) as [->|N1]; [|destruct (Z.eqb_spec val 0) as [->|N0]];
      cbn; repeat split; try congruence; try (intuition congruence); try lia.
  - repeat split; intuition congruence.
  - destruct (Z.ltb_spec 0 val); cbn; repeat split; try congruence; try lia;
      try (intuition congruence).
  - repeat split; intuition congruence.
Qed.

(** X5: when the base class declines the key, a type tag is stored as the
    value [std::stoi] reads, reduced modulo [2^16]: the call succeeds for
    every [int], the stored tag is a 16-bit value, and it is the value
    written in the configuration only if that value was one already. *)
Theorem type_tags_wrap (k v : string) (val : Z) (this : UnsupBipartiteInstReader) :
  (InstanceReaderImpl_InitConfigKV k v (batch_ this, line_parser_ this)).1 = false →
  stoi v = Parsed val →
  let this' := (InitConfigKV k v this).1.2 in
  (k = "user_ns_id" →
     (InitConfigKV k v this).1.1 = Returned true
     ∧ user_ns_id_ this' = val `mod` 2 ^ 16
     ∧ 0 ≤ user_ns_id_ this' < 2 ^ 16
     ∧ (user_ns_id_ this' = val ↔ 0 ≤ val < 2 ^ 16))
  ∧ (k = "item_ns_id" →
     (InitConfigKV k v this).1.1 = Returned true
     ∧ item_ns_id_ this' = val `mod` 2 ^ 16
     ∧ 0 ≤ item_ns_id_ this' < 2 ^ 16
     ∧ (item_ns_id_ this' = val ↔ 0 ≤ val < 2 ^ 16)).
Proof.
  intros Hbase Hstoi. cbv zeta. revert Hbase.
  unfold InitConfigKV, accepted.
  destruct (InstanceReaderImpl_InitConfigKV _ _ _) as [handled [batch lp]].
  cbn [fst]. intros ->. rewrite Hstoi.
  split; intros ->; repeat case_decide; try done; cbn;
    (split; [done|]); (split; [done|]);
    (split; [apply to_uint16_range | apply to_uint16_fits]).
Qed.

End ConfigurationProperties.

(** ** The classifier, on any input *)

Section ClassifierProperties.
Context `{Collab : Collaborators}.

Lemma three_way_split ug ig (nodes : list Z) :
  nodes ≡ₚ users_of ug nodes ++ items_of ug ig nodes ++ invalid_of ug ig nodes.
Proof.
  unfold users_of, items_of, invalid_of.
  induction nodes as [|n nodes IH]; [done|].
  rewrite !filter_cons. repeat case_decide; try tauto; simpl.
  - by rewrite <- IH.
  - rewrite IH at 1. by rewrite Permutation_middle.
  - rewrite IH at 1. by rewrite !Permutation_middle.
Qed.

(** X6: on any input, whatever the tags and however often a node
    repeats, every occurrence ends in exactly one place: appended to the
    user list, appended to the item list, or reported in the log.  The
    three parts are a rearrangement of the input, each keeps the input's
    order, users carry the user tag, items the item tag and not the user
    tag, and nothing already in the lists is touched. *)
Theorem classification_accounts_for_every_node (nodes : list Z)
    (user_group item_group : Z) (user_nodes item_nodes : list Z) (w : World) :
  ∃ new_users new_items invalid,
    ParseUserAndItemFrom nodes user_group item_group user_nodes item_nodes w
    = (Done (user_nodes ++ new_users, item_nodes ++ new_items),
       log_events ((λ n, LogInvalidNode n (GetNodeType n) user_group item_group)
                     <$> invalid) w)
    ∧ nodes ≡ₚ new_users ++ new_items ++ invalid
    ∧ (length new_users + length new_items + length invalid = length nodes)%nat
    ∧ new_users `sublist_of` nodes
    ∧ new_items `sublist_of` nodes
    ∧ invalid `sublist_of` nodes
    ∧ Forall (λ n, GetNodeType n = user_group) new_users
    ∧ Forall (λ n, GetNodeType n ≠ user_group ∧ GetNodeType n = item_group) new_items
    ∧ Forall (λ n, GetNodeType n ≠ user_group ∧ GetNodeType n ≠ item_group) invalid.
Proof.
  exists (users_of user_group nodes), (items_of user_group item_group nodes),
         (invalid_of user_group item_group nodes).
  pose proof (three_way_split user_group item_group nodes) as Hperm.
  split; [apply ParseUserAndItemFrom_run|]. split; [done|].
  split; [apply Permutation_length in Hperm; rewrite !length_app in Hperm; lia|].
  unfold users_of, items_of, invalid_of.
  repeat split; try apply sublist_filter;
    apply Forall_forall; intros n Hn; apply list_elem_of_filter in Hn; tauto.
Qed.

(** X7: classifying one sequence after another, into the same two lists,
    is classifying their concatenation.  So the three stages of a training
    batch (sources, destinations, every negative list in turn) give the
    lists and the log of a single pass over
    [src ++ dst ++ concat negs]. *)
Theorem classification_composes (user_group item_group : Z)
    (user_nodes item_nodes : list Z) (w : World) :
  (∀ first second,
     ParseUserAndItemFrom (first ++ second) user_group item_group
       user_nodes item_nodes w
     = ('(users, items) ← ParseUserAndItemFrom first user_group item_group
                            user_nodes item_nodes;
        ParseUserAndItemFrom second user_group item_group users items) w)
  ∧ (∀ lists,
     ParseUserAndItemFrom_each lists user_group item_group user_nodes item_nodes w
     = ParseUserAndItemFrom (concat lists) user_group item_group
         user_nodes item_nodes w)
  ∧ (∀ src dst negs,
     ('(users, items) ← ParseUserAndItemFrom src user_group item_group
                          user_nodes item_nodes;
      '(users, items) ← ParseUserAndItemFrom dst user_group item_group users items;
      ParseUserAndItemFrom_each negs user_group item_group users items) w
     = ParseUserAndItemFrom (src ++ dst ++ concat negs) user_group item_group
         user_nodes item_nodes w).
Proof.
  split; [|split].
  - intros first second. unfold mbind, M_bind.
    rewrite !ParseUserAndItemFrom_run.
    rewrite users_of_app, items_of_app, invalid_log_app, log_events_app.
    by rewrite !app_assoc.
  - intros lists. by rewrite ParseUserAndItemFrom_each_run, ParseUserAndItemFrom_run.
  - intros src dst negs. unfold mbind, M_bind.
    rewrite !ParseUserAndItemFrom_run, ParseUserAndItemFrom_each_run.
    rewrite !users_of_app, !items_of_app, !invalid_log_app, !log_events_app.
    by rewrite !app_assoc.
Qed.

(** X8: when both registered tags are the same value, the first test
    wins: every node with that tag goes to the user list and the item list
    never grows. *)
Theorem same_tag_fills_users_only (nodes : list Z) (group : Z)
    (user_nodes item_nodes : list Z) (w : World) :
  (ParseUserAndItemFrom nodes group group user_nodes item_nodes w).1
  = Done (user_nodes ++ filter (λ n, GetNodeType n = group) nodes, item_nodes).
Proof.
  rewrite ParseUserAndItemFrom_run. cbn [fst]. do 2 f_equal.
  rewrite <- (app_nil_r item_nodes) at 2. f_equal.
  unfold items_of. induction nodes as [|n nodes IH]; [done|].
  rewrite filter_cons. by case_decide; [tauto|].
Qed.

End ClassifierProperties.

(** ** The flat index space has no gaps *)

Section DenseIndex.
Context `{Collab : Collaborators}.

Lemma index_func_hits (this : UnsupBipartiteInstReader) (user0 item0 : Indexing) i :
  user_indexings_ this !! 0%nat = Some user0 →
  item_indexings_ this !! 0%nat = Some item0 →
  NoDup (index_keys user0) → NoDup (index_keys item0) →
  Indexing_Size user0 + Indexing_Size item0 ≤ 2 ^ 63 →
  (∀ n, n ∈ index_keys user0 → GetNodeType n = user_ns_id_ this) →
  (∀ n, n ∈ index_keys item0 → GetNodeType n ≠ user_ns_id_ this) →
  0 ≤ i < Indexing_Size user0 + Indexing_Size item0 →
  ∃ n, index_func this n = Done i
       ∧ (i < Indexing_Size user0 → n ∈ index_keys user0)
       ∧ (Indexing_Size user0 ≤ i → n ∈ index_keys item0).
Proof.
  intros Hu Hi Hndu Hndi Hfit Htu Hti Hrange.
  assert (0 ≤ Indexing_Size user0) by (unfold Indexing_Size; lia).
  assert (0 ≤ Indexing_Size item0) by (unfold Indexing_Size; lia).
  destruct (decide (i < Indexing_Size user0)) as [Hlow|Hhigh].
  - destruct (Indexing_Get_dense user0 i Hndu) as (n & Hn & Hget); [lia|].
    exists n. split; [|split; [done|lia]].
    rewrite (index_func_user this user0 Hu n (Htu n Hn)), Hget.
    rewrite (proj2 (Z.leb_le 0 i)) by lia. by rewrite to_int_t_small by lia.
  - destruct (Indexing_Get_dense item0 (i - Indexing_Size user0) Hndi)
      as (n & Hn & Hget); [lia|].
    exists n. split; [|split; [lia|done]].
    rewrite (index_func_item this user0 item0 Hu Hi n (Hti n Hn)), Hget.
    rewrite (proj2 (Z.leb_le 0 _)) by lia.
    rewrite to_int_t_small, add_u64_small by lia. f_equal. lia.
Qed.

(** X9: when each level-0 table holds every node once, the user table
    only nodes with the user tag and the item table none of them, every
    number below [U + I] is the flat index of some node: the numbers below
    [U] belong to nodes of the user table, the others to nodes of the item
    table. *)
Theorem unified_index_is_onto (this : UnsupBipartiteInstReader)
    (user0 item0 : Indexing) (i : Z) :
  user_indexings_ this !! 0%nat = Some user0 →
  item_indexings_ this !! 0%nat = Some item0 →
  NoDup (index_keys user0) → NoDup (index_keys item0) →
  int_indexed user0 → int_indexed item0 →
  (∀ n, n ∈ index_keys user0 → GetNodeType n = user_ns_id_ this) →
  (∀ n, n ∈ index_keys item0 → GetNodeType n ≠ user_ns_id_ this) →
  0 ≤ i < Indexing_Size user0 + Indexing_Size item0 →
  ∃ n, index_func this n = Done i
       ∧ (i < Indexing_Size user0 → n ∈ index_keys user0)
       ∧ (Indexing_Size user0 ≤ i → n ∈ index_keys item0).
Proof.
  intros Hu Hi Hndu Hndi HU HI. unfold int_indexed, INT_MAX in HU, HI.
  apply index_func_hits; try done. lia.
Qed.

(** X10: in a training batch of fewer than [2^31] nodes, once both
    encoders are filled, the flat indices are exactly the numbers below
    [U + I]: every node of the batch with a registered tag has one, and
    every such number is the index of a node of the batch. *)
Theorem train_batch_indices_are_dense (values : list EdgeValue)
    (negs : list (list Z)) (w : World) :
  SubGraphContract → IterationContract →
  SharedSampleNegative (num_neg_ (reader w)) (Collect values dst_node)
    (Collect values dst_node) = Some negs →
  let all := Collect values src_node ++ Collect values dst_node ++ concat negs in
  Z.of_nat (length all) ≤ INT_MAX →
  ∃ users items w' user0 item0,
    GetTrainBatch_indexed values w = (Done (users, items), w')
    ∧ user_indexings_ (reader w') !! 0%nat = Some user0
    ∧ item_indexings_ (reader w') !! 0%nat = Some item0
    ∧ (∀ n, n ∈ all →
         GetNodeType n = user_ns_id_ (reader w)
         ∨ GetNodeType n = item_ns_id_ (reader w) →
         ∃ i, index_func (reader w') n = Done i
              ∧ 0 ≤ i < Indexing_Size user0 + Indexing_Size item0)
    ∧ (∀ i, 0 ≤ i < Indexing_Size user0 + Indexing_Size item0 →
         ∃ n, n ∈ all ∧ index_func (reader w') n = Done i).
Proof.
  intros HS HI Hs all Hlen.
  destruct (GetTrainBatch_indexed_world_tables values negs w HS) as [Hut Hit].
  fold all in Hut, Hit.
  set (users := users_of (user_ns_id_ (reader w)) all) in *.
  set (items := items_of (user_ns_id_ (reader w)) (item_ns_id_ (reader w)) all) in *.
  set (w' := GetTrainBatch_indexed_world values negs w) in *.
  set (user0 := CreateIndexing (list_to_set users)) in *.
  set (item0 := CreateIndexing (list_to_set items)) in *.
  assert (Hku : ∀ n, n ∈ index_keys user0 ↔ n ∈ users).
  { intros n. unfold user0. by rewrite CreateIndexing_keys, elem_of_list_to_set. }
  assert (Hki : ∀ n, n ∈ index_keys item0 ↔ n ∈ items).
  { intros n. unfold item0. by rewrite CreateIndexing_keys, elem_of_list_to_set. }
  assert (Hsize : Indexing_Size user0 + Indexing_Size item0 ≤ INT_MAX).
  { unfold user0, item0. rewrite !CreateIndexing_Size by done.
    pose proof (size_list_to_set_le users). pose proof (size_list_to_set_le items).
    pose proof (length_users_items (user_ns_id_ (reader w))
                  (item_ns_id_ (reader w)) all).
    fold users items in H1. lia. }
  unfold INT_MAX in Hsize.
  assert (0 ≤ Indexing_Size user0) by (unfold Indexing_Size; lia).
  assert (0 ≤ Indexing_Size item0) by (unfold Indexing_Size; lia).
  exists users, items, w', user0, item0.
  split; [by apply GetTrainBatch_indexed_run|]. split; [done|]. split; [done|].
  split.
  - intros n Hn Htag.
    destruct (decide (GetNodeType n = user_ns_id_ (reader w))) as [Tu|Tu].
    + assert (Hin : n ∈ index_keys user0) by (by apply Hku, elem_of_users_of).
      pose proof (Indexing_Get_present _ _ Hin).
      exists (Indexing_Get user0 n). split; [|lia].
      rewrite (index_func_user _ _ Hut n Tu).
      rewrite (proj2 (Z.leb_le 0 _)) by lia. by rewrite to_int_t_small by lia.
    + assert (Hin : n ∈ index_keys item0).
      { apply Hki, elem_of_items_of. destruct Htag; [done|]. tauto. }
      pose proof (Indexing_Get_present _ _ Hin).
      exists (Indexing_Get item0 n + Indexing_Size user0). split; [|lia].
      rewrite (index_func_item _ _ _ Hut Hit n Tu).
      rewrite (proj2 (Z.leb_le 0 _)) by lia.
      by rewrite to_int_t_small, add_u64_small by lia.
  - intros i Hrange.
    destruct (index_func_hits (reader w') user0 item0 i Hut Hit)
      as (n & Hn & Hlow & Hhigh); try done.
    + by apply CreateIndexing_NoDup.
    + by apply CreateIndexing_NoDup.
    + lia.
    + intros n ?%Hku%elem_of_users_of. tauto.
    + intros n ?%Hki%elem_of_items_of. tauto.
    + exists n. split; [|done].
      destruct (decide (i < Indexing_Size user0)) as [Hi|Hi].
      * apply Hlow, Hku, elem_of_users_of in Hi. tauto.
      * assert (Hin : n ∈ index_keys item0) by (apply Hhigh; lia).
        apply Hki, elem_of_items_of in Hin. tauto.
Qed.

End DenseIndex.

(** ** The inference index tensor *)

Section IndexTensor.
Context `{Collab : Collaborators}.

Lemma for_each_length {A B} (f : A → outcome B) (l : list A) (bs : list B) :
  for_each f l = Done bs → length bs = length l.
Proof.
  revert bs. induction l as [|a l IH]; intros bs; simpl.
  - by intros [= <-].
  - destruct (f a); simpl; [|done..].
    destruct (for_each f l) as [bs'| |]; simpl; [|done..].
    intros [= <-]. simpl. by rewrite (IH bs').
Qed.

Lemma for_each_ext {A B} (f g : A → outcome B) (l : list A) :
  (∀ a, a ∈ l → f a = g a) → for_each f l = for_each g l.
Proof.
  induction l as [|a l IH]; intros Hfg; simpl; [done|].
  rewrite (Hfg a) by left. rewrite IH; [done|].
  intros b Hb. apply Hfg. by right.
Qed.

Lemma for_each_Forall2 {A B} (f : A → outcome B) (l : list A) (bs : list B) :
  for_each f l = Done bs → Forall2 (λ a b, f a = Done b) l bs.
Proof.
  revert bs. induction l as [|a l IH]; intros bs; simpl.
  - intros [= <-]. constructor.
  - destruct (f a) as [b| |] eqn:Hb; simpl; [|done..].
    destruct (for_each f l) as [bs'| |]; simpl; [|done..].
    intros [= <-]. constructor; [done|]. by apply IH.
Qed.

(** X11: when [FillIndex] returns, the slot it was given holds one row
    per node, in the order of the nodes, each row the single entry (index
    of the node, 1); what the slot held before is gone, so an empty node
    list leaves an empty tensor.  No other slot of the instance, no member
    of the reader and nothing in the log changes. *)
Theorem FillIndex_overwrites_slot (name : string) (nodes : list Z) (w w' : World) :
  FillIndex name nodes w = (Done tt, w') →
  ∃ flat,
    Forall2 (λ n i, Index (reader w) n = Done i) nodes flat
    ∧ inst_csr (inst w')
      = <[name := {| csr_rows := (λ i, [(i, 1)]) <$> flat; csr_open := [] |}]>
          (inst_csr (inst w))
    ∧ inst_vec (inst w') = inst_vec (inst w)
    ∧ inst_batch (inst w') = inst_batch (inst w)
    ∧ inst_flow (inst w') = inst_flow (inst w)
    ∧ reader w' = reader w
    ∧ trace w' = trace w.
Proof.
  intros Hrun.
  destruct (for_each (Index (reader w)) nodes) as [flat| |] eqn:Hflat.
  - rewrite (FillIndex_Done _ _ _ _ Hflat) in Hrun. injection Hrun as <-.
    exists flat. split; [by apply for_each_Forall2|]. done.
  - by rewrite FillIndex_run, Hflat in Hrun.
  - by rewrite FillIndex_run, Hflat in Hrun.
Qed.

End IndexTensor.

(** ** A batch is built whole or not at all *)

Section WholeBatches.
Context `{Collab : Collaborators}.

(** X12: an inference batch is built exactly when every node read carries
    a registered tag.  It then holds the nodes verbatim and, row for row,
    their flat indices, the batch size being the number of rows; a single
    node with another tag makes the index check fail. *)
Theorem predict_batch_all_or_nothing (w : World) (values : list NodeValue)
    (lp : LineParser) :
  SubGraphContract → IterationContract → BatchSizeContract →
  batch_ (reader w) ≤ INT_MAX →
  NextBatch_NodeValue (batch_ (reader w)) (line_parser_ (reader w))
    = (Some values, lp) →
  let registered n :=
    GetNodeType n = user_ns_id_ (reader w) ∨ GetNodeType n = item_ns_id_ (reader w) in
  ((∀ n, n ∈ node <$> values → registered n) →
     ∃ w' flat,
       GetPredictBatch w = (Done true, w')
       ∧ Forall2 (λ n i, index_func (reader w') n = Done i) (node <$> values) flat
       ∧ inst_csr (inst w') !! X_SRC_ID_NAME
         = Some {| csr_rows := (λ i, [(i, 1)]) <$> flat; csr_open := [] |}
       ∧ inst_vec (inst w') !! X_PREDICT_NODE_NAME = Some (node <$> values)
       ∧ inst_batch (inst w') = Z.of_nat (length flat))
  ∧ ((∃ n, n ∈ node <$> values ∧ ¬ registered n) →
     (GetPredictBatch w).1 = CheckFailed).
Proof.
  intros HS HI HB Hbatch Hnext registered. split.
  - intros Hreg.
    destruct (GetPredictBatch_succeeds w values lp HS HI Hnext Hreg) as [w' Hw'].
    pose proof Hw' as Hrun.
    rewrite (GetPredictBatch_run _ _ _ Hnext) in Hrun. unfold mbind, M_bind in Hrun.
    rewrite GetPredictBatch_indexed_run in Hrun.
    set (w1 := GetPredictBatch_indexed_world values (after_NextBatch lp w)) in *.
    assert (Hagree : for_each (Index (reader w1)) (src_nodes_ (reader w1))
                     = for_each (index_func (reader w1)) (src_nodes_ (reader w1))).
    { apply for_each_ext. intros n _.
      by apply Index_agrees_in_GetPredictBatch. }
    destruct (for_each (index_func (reader w1)) (src_nodes_ (reader w1)))
      as [flat| |] eqn:Hflat.
    + rewrite (GetPredictBatch_index_Done _ _ Hagree) in Hrun.
      injection Hrun as Hw1. exists w', flat. split; [exact Hw'|].
      rewrite <- Hw1. cbn [reader inst].
      change (src_nodes_ (reader w1)) with (node <$> values) in *.
      split; [by apply for_each_Forall2|].
      split; [apply lookup_insert_eq|]. split; [apply lookup_insert_eq|].
      unfold set_batch. cbn [inst_batch].
      rewrite (for_each_length _ _ _ Hflat). unfold Collect.
      pose proof (HB _ _ _ _ Hnext). apply to_int_fits. rewrite length_fmap.
      unfold INT_MAX in *. lia.
    + exfalso. apply (GetPredictBatch_index_failed w1); [|by rewrite Hrun].
      intros m. by rewrite Hagree.
    + exfalso. apply (GetPredictBatch_index_failed w1); [|by rewrite Hrun].
      intros m. by rewrite Hagree.
  - intros (n & Hn & Hbad).
    apply (GetPredictBatch_unrecognized_aborts w values lp n); try done;
      unfold registered in Hbad; tauto.
Qed.

Lemma GetTrainBatch_edges_true w w' :
  GetTrainBatch_edges w = (Done true, w') →
  reader w' = reader w
  ∧ inst_batch (inst w') = to_int (Z.of_nat (length (src_nodes_ (reader w))))
  ∧ ∃ src_index dst_index neg_index,
      Forall2 (λ n i, index_func (reader w) n = Done i) (src_nodes_ (reader w))
        src_index
      ∧ Forall2 (λ n i, index_func (reader w) n = Done i) (dst_nodes_ (reader w))
          dst_index
      ∧ Forall2 (Forall2 (λ n i, index_func (reader w) n = Done i))
          (neg_nodes_list_ (reader w)) neg_index
      ∧ inst w'
        = set_batch (to_int (Z.of_nat (length (src_nodes_ (reader w)))))
            (EdgeAndLabelLayout X_SRC_ID_NAME X_DST_ID_NAME Y_NAME src_index
               dst_index neg_index (inst w)).
Proof.
  destruct (for_each (index_func (reader w)) (src_nodes_ (reader w)))
    as [si| |] eqn:Hs;
    [destruct (for_each (index_func (reader w)) (dst_nodes_ (reader w)))
       as [di| |] eqn:Hd;
     [destruct (for_each (for_each (index_func (reader w)))
                  (neg_nodes_list_ (reader w))) as [ni| |] eqn:Hn|..]|..].
  - rewrite (GetTrainBatch_edges_Done _ _ _ _ Hs Hd Hn). intros [= <-].
    split; [done|]. split; [done|]. exists si, di, ni.
    split; [by apply for_each_Forall2|]. split; [by apply for_each_Forall2|].
    split; [|done].
    apply for_each_Forall2 in Hn.
    eapply Forall2_impl; [exact Hn|]. intros l its. apply for_each_Forall2.
  - unfold GetTrainBatch_edges, flow_FillEdgeAndLabel,
      mbind, M_bind, mret, M_ret, emit, on_inst, gets, lift. simpl.
    by rewrite Hs, Hd, Hn.
  - unfold GetTrainBatch_edges, flow_FillEdgeAndLabel,
      mbind, M_bind, mret, M_ret, emit, on_inst, gets, lift. simpl.
    by rewrite Hs, Hd, Hn.
  - unfold GetTrainBatch_edges, flow_FillEdgeAndLabel,
      mbind, M_bind, mret, M_ret, emit, on_inst, gets, lift. simpl.
    by rewrite Hs, Hd.
  - unfold GetTrainBatch_edges, flow_FillEdgeAndLabel,
      mbind, M_bind, mret, M_ret, emit, on_inst, gets, lift. simpl.
    by rewrite Hs, Hd.
  - unfold GetTrainBatch_edges, flow_FillEdgeAndLabel,
      mbind, M_bind, mret, M_ret, emit, on_inst, gets, lift. simpl.
    by rewrite Hs.
  - unfold GetTrainBatch_edges, flow_FillEdgeAndLabel,
      mbind, M_bind, mret, M_ret, emit, on_inst, gets, lift. simpl.
    by rewrite Hs.
Qed.

(** X13: whenever a training batch is built, the reader's buffers hold
    the sources and destinations of the records read, one of each per
    record and in their order, and the sampler's answer; the edge-and-label
    fill receives, position for position, the flat indices of these
    sources, destinations and negatives; and the batch size is the number
    of records converted to [int]. *)
Theorem train_batch_follows_records (w w' : World) :
  GetTrainBatch w = (Done true, w') →
  ∃ values lp negs src_index dst_index neg_index,
    NextBatch_EdgeValue (batch_ (reader w)) (line_parser_ (reader w))
      = (Some values, lp)
    ∧ SharedSampleNegative (num_neg_ (reader w)) (dst_node <$> values)
        (dst_node <$> values) = Some negs
    ∧ src_nodes_ (reader w') = src_node <$> values
    ∧ dst_nodes_ (reader w') = dst_node <$> values
    ∧ neg_nodes_list_ (reader w') = negs
    ∧ line_parser_ (reader w') = lp
    ∧ Forall2 (λ n i, index_func (reader w') n = Done i) (src_node <$> values)
        src_index
    ∧ Forall2 (λ n i, index_func (reader w') n = Done i) (dst_node <$> values)
        dst_index
    ∧ Forall2 (Forall2 (λ n i, index_func (reader w') n = Done i)) negs neg_index
    ∧ inst w'
      = set_batch (to_int (Z.of_nat (length values)))
          (EdgeAndLabelLayout X_SRC_ID_NAME X_DST_ID_NAME Y_NAME src_index
             dst_index neg_index
             (inst (GetTrainBatch_indexed_world values negs (after_NextBatch lp w))))
    ∧ inst_batch (inst w') = to_int (Z.of_nat (length values)).
Proof.
  intros Hrun.
  destruct (NextBatch_EdgeValue (batch_ (reader w)) (line_parser_ (reader w)))
    as [[values|] lp] eqn:Hnext.
  2:{ by rewrite (GetTrainBatch_end _ _ Hnext) in Hrun. }
  rewrite (GetTrainBatch_run _ _ _ Hnext) in Hrun. unfold mbind, M_bind in Hrun.
  set (w0 := after_NextBatch lp w) in *.
  destruct (SharedSampleNegative (num_neg_ (reader w)) (dst_node <$> values)
              (dst_node <$> values)) as [negs|] eqn:Hs.
  2:{ by rewrite (GetTrainBatch_indexed_no_samples values w0 Hs) in Hrun. }
  rewrite (GetTrainBatch_indexed_run values negs w0 Hs) in Hrun.
  set (w1 := GetTrainBatch_indexed_world values negs w0) in *.
  destruct (GetTrainBatch_edges_true _ _ Hrun)
    as (Hr & Hb & si & di & ni & Hsi & Hdi & Hni & Hinst).
  exists values, lp, negs, si, di, ni. rewrite Hr.
  change (src_nodes_ (reader w1)) with (src_node <$> values) in *.
  change (dst_nodes_ (reader w1)) with (dst_node <$> values) in *.
  change (neg_nodes_list_ (reader w1)) with negs in *.
  rewrite length_fmap in Hb, Hinst.
  repeat (split; [done|]). done.
Qed.

Lemma registered_index_Done (this : UnsupBipartiteInstReader) (all : list Z) n :
  IterationContract →
  user_indexings_ this !! 0%nat
    = Some (CreateIndexing (list_to_set (users_of (user_ns_id_ this) all))) →
  item_indexings_ this !! 0%nat
    = Some (CreateIndexing
              (list_to_set (items_of (user_ns_id_ this) (item_ns_id_ this) all))) →
  n ∈ all →
  GetNodeType n = user_ns_id_ this ∨ GetNodeType n = item_ns_id_ this →
  ∃ i, index_func this n = Done i.
Proof.
  intros HI Hut Hit Hn Htag.
  rewrite (index_func_consulted _ _ _ Hut Hit).
  set (user0 := CreateIndexing (list_to_set (users_of _ _))) in *.
  set (item0 := CreateIndexing (list_to_set (items_of _ _ _))) in *.
  assert (Hin : n ∈ index_keys (consulted this user0 item0 n)).
  { unfold consulted, user0, item0.
    destruct (Z.eqb_spec (GetNodeType n) (user_ns_id_ this)) as [Hu|Hu];
      rewrite CreateIndexing_keys, elem_of_list_to_set by done.
    - by apply elem_of_users_of.
    - apply elem_of_items_of. tauto. }
  apply Indexing_Get_nonneg, Z.leb_le in Hin. rewrite Hin. eauto.
Qed.

Lemma GetTrainBatch_succeeds w values lp negs :
  SubGraphContract → IterationContract →
  NextBatch_EdgeValue (batch_ (reader w)) (line_parser_ (reader w))
    = (Some values, lp) →
  SharedSampleNegative (num_neg_ (reader w)) (Collect values dst_node)
    (Collect values dst_node) = Some negs →
  (∀ n, n ∈ Collect values src_node ++ Collect values dst_node ++ concat negs →
     GetNodeType n = user_ns_id_ (reader w) ∨ GetNodeType n = item_ns_id_ (reader w)) →
  ∃ w', GetTrainBatch w = (Done true, w').
Proof.
  intros HS HI Hnext Hs Hreg.
  set (all := Collect values src_node ++ Collect values dst_node ++ concat negs) in *.
  rewrite (GetTrainBatch_run _ _ _ Hnext). unfold mbind, M_bind.
  set (w0 := after_NextBatch lp w).
  rewrite (GetTrainBatch_indexed_run values negs w0 Hs).
  destruct (GetTrainBatch_indexed_world_tables values negs w0 HS) as [Hut Hit].
  set (w1 := GetTrainBatch_indexed_world values negs w0) in *.
  assert (Hidx : ∀ n, n ∈ all → ∃ i, index_func (reader w1) n = Done i).
  { intros n Hn. apply (registered_index_Done (reader w1) all n HI); try done.
    by apply Hreg. }
  destruct (for_each_total (index_func (reader w1)) (src_nodes_ (reader w1)))
    as [si Hsi].
  { intros n Hn. apply Hidx, elem_of_app. by left. }
  destruct (for_each_total (index_func (reader w1)) (dst_nodes_ (reader w1)))
    as [di Hdi].
  { intros n Hn. apply Hidx, elem_of_app. right. apply elem_of_app. by left. }
  destruct (for_each_total (for_each (index_func (reader w1)))
              (neg_nodes_list_ (reader w1))) as [ni Hni].
  { intros l Hl. apply for_each_total. intros n Hn.
    apply Hidx, elem_of_app. right. apply elem_of_app. right.
    apply elem_of_concat. by exists l. }
  eexists. by apply (GetTrainBatch_edges_Done w1 si di ni).
Qed.

(** X14: once a training batch of records is read, the call either builds
    the whole batch or aborts.  It aborts when the negative sampler reports
    failure, and when the sampler answers but some source, destination or
    negative carries a tag other than the two registered ones; it builds
    the batch when the sampler answers and every such node carries a
    registered tag. *)
Theorem train_batch_all_or_nothing (w : World) (values : list EdgeValue)
    (lp : LineParser) :
  SubGraphContract → IterationContract →
  NextBatch_EdgeValue (batch_ (reader w)) (line_parser_ (reader w))
    = (Some values, lp) →
  let registered n :=
    GetNodeType n = user_ns_id_ (reader w) ∨ GetNodeType n = item_ns_id_ (reader w) in
  let sampled :=
    SharedSampleNegative (num_neg_ (reader w)) (dst_node <$> values)
      (dst_node <$> values) in
  (sampled = None → (GetTrainBatch w).1 = CheckFailed)
  ∧ (∀ negs, sampled = Some negs →
       let all := (src_node <$> values) ++ (dst_node <$> values) ++ concat negs in
       ((∀ n, n ∈ all → registered n) → ∃ w', GetTrainBatch w = (Done true, w'))
       ∧ ((∃ n, n ∈ all ∧ ¬ registered n) → (GetTrainBatch w).1 = CheckFailed)).
Proof.
  intros HS HI Hnext registered sampled. split.
  - intros Hs. rewrite (GetTrainBatch_run _ _ _ Hnext). unfold mbind, M_bind.
    by rewrite (GetTrainBatch_indexed_no_samples values (after_NextBatch lp w) Hs).
  - intros negs Hs all. split.
    + intros Hreg. by apply (GetTrainBatch_succeeds w values lp negs).
    + intros (n & Hn & Hbad).
      apply (GetTrainBatch_unrecognized_aborts w values lp negs n); try done;
        unfold registered in Hbad; tauto.
Qed.

End WholeBatches.

(** ** What a batch depends on, and what it asks for *)

Section BatchDependencies.
Context `{Collab : Collaborators}.

Lemma GetPredictBatch_indexed_world_trace values w :
  trace (GetPredictBatch_indexed_world values w)
  = trace w
    ++ invalid_log (user_ns_id_ (reader w)) (item_ns_id_ (reader w))
         (Collect values node)
    ++ FillInstance_events USER_ENCODER_NAME
         (users_of (user_ns_id_ (reader w)) (Collect values node))
         (num_neighbors_ (reader w)) (use_neigh_feat_ (reader w))
    ++ FillInstance_events ITEM_ENCODER_NAME
         (items_of (user_ns_id_ (reader w)) (item_ns_id_ (reader w))
            (Collect values node))
         (num_neighbors_ (reader w)) (use_neigh_feat_ (reader w)).
Proof.
  unfold GetPredictBatch_indexed_world, FillInstance_world.
  cbn [trace reader]. rewrite <- !app_assoc. reflexivity.
Qed.

Lemma FillInstance_events_no_training enc nodes nn b e :
  e ∈ FillInstance_events enc nodes nn b → is_training_request e = false.
Proof.
  unfold FillInstance_events. destruct b; simpl;
    rewrite ?elem_of_cons, elem_of_nil; intros H; by destruct_or!; subst.
Qed.

(** X16: in inference mode [GetBatch] first asks the record source for a
    batch, and never asks for negatives or for an edge-and-label fill.
    When records are read, what follows is the log of the nodes with an
    unregistered tag, then the requests that fill the user encoder, then
    those that fill the item encoder, whether or not the index check then
    lets the batch through. *)
Theorem inference_makes_no_training_request (w : World) :
  is_train_ (reader w) = false →
  ∃ later,
    trace (GetBatch w).2 = trace w ++ CallNextBatch (batch_ (reader w)) :: later
    ∧ (∀ e, e ∈ later → is_training_request e = false)
    ∧ (∀ values lp,
         NextBatch_NodeValue (batch_ (reader w)) (line_parser_ (reader w))
           = (Some values, lp) →
         let user_group := user_ns_id_ (reader w) in
         let item_group := item_ns_id_ (reader w) in
         later
         = invalid_log user_group item_group (node <$> values)
           ++ FillInstance_events USER_ENCODER_NAME
                (users_of user_group (node <$> values))
                (num_neighbors_ (reader w)) (use_neigh_feat_ (reader w))
           ++ FillInstance_events ITEM_ENCODER_NAME
                (items_of user_group item_group (node <$> values))
                (num_neighbors_ (reader w)) (use_neigh_feat_ (reader w))).
Proof.
  intros Htrain. unfold GetBatch, mbind, M_bind, gets. rewrite Htrain.
  destruct (NextBatch_NodeValue (batch_ (reader w)) (line_parser_ (reader w)))
    as [[values|] lp] eqn:Hnext.
  - rewrite (GetPredictBatch_run w values lp Hnext).
    unfold mbind, M_bind. rewrite GetPredictBatch_indexed_run.
    set (w1 := GetPredictBatch_indexed_world values (after_NextBatch lp w)).
    eexists. split; [|split].
    + assert (Htrace : trace (GetPredictBatch_index w1).2 = trace w1).
      { rewrite GetPredictBatch_index_cases. by destruct (for_each _ _). }
      rewrite Htrace. unfold w1. rewrite GetPredictBatch_indexed_world_trace.
      cbn [after_NextBatch trace reader]. rewrite <- app_assoc. reflexivity.
    + intros e. rewrite !elem_of_app. intros [He|[He|He]].
      * unfold invalid_log in He. by apply list_elem_of_fmap in He as (n & -> & _).
      * by apply FillInstance_events_no_training in He.
      * by apply FillInstance_events_no_training in He.
    + intros values' lp' [= <- <-]. reflexivity.
  - rewrite (GetPredictBatch_end w lp Hnext). exists [CallClose].
    split; [done|]. split; [|done].
    intros e ->%list_elem_of_singleton. done.
Qed.
End BatchDependencies.

(** * The properties at work on the examples *)

Section Examples.
Import Demo.
#[local] Existing Instance pool.

Lemma demo_iteration sampler : @IterationContract (collaborators sampler).
Proof. intros s. reflexivity. Qed.

Lemma demo_subgraph sampler : @SubGraphContract (collaborators sampler).
Proof. intros nodes num_neighbors. reflexivity. Qed.

Lemma demo_pool : @NegativePoolContract pool.
Proof.
  intros count nodes p negs [= <-] l n (x & -> & _)%list_elem_of_fmap Hn.
  by eapply (subseteq_take (Z.to_nat count) p).
Qed.

Lemma demo_batch_size sampler : @BatchSizeContract (collaborators sampler).
Proof.
  intros batch lp values lp'. cbn. unfold next_nodes.
  destruct (take (Z.to_nat batch) (pending_nodes lp)) as [|v vs] eqn:Ht; [done|].
  intros [= <- _]. rewrite <- Ht, length_take.
  assert (0 < batch)%Z; [|lia].
  destruct (Z.to_nat batch) eqn:Hb; [done|lia].
Qed.

Lemma unified_index_disjoint_witness :
  (∀ n, node_type n = 0 → n ∈ [U2; U1] →
     index_func indexed_reader n = Done (Indexing_Get {| index_keys := [U2; U1] |} n))
  ∧ (∀ n, node_type n ≠ 0 → n ∈ [I1] →
     index_func indexed_reader n = Done (Indexing_Get {| index_keys := [I1] |} n + 2))
  ∧ (∀ n v, node_type n = 0 → index_func indexed_reader n = Done v → 0 ≤ v < 2)
  ∧ (∀ n v, node_type n ≠ 0 → index_func indexed_reader n = Done v → 2 ≤ v < 2 + 1)
  ∧ (∀ n1 n2 v1 v2, n1 ≠ n2 →
     index_func indexed_reader n1 = Done v1 → index_func indexed_reader n2 = Done v2 →
     v1 ≠ v2)
  ∧ (2 + 1 ≤ INT_MAX + 1 → ∀ n, Index indexed_reader n = index_func indexed_reader n).
Proof.
  apply (unified_index_disjoint indexed_reader
           {| index_keys := [U2; U1] |} {| index_keys := [I1] |});
    [reflexivity | reflexivity | by vm_compute | by vm_compute].
Defined.

Lemma classification_partitions_witness :
  ∃ new_users new_items,
    ParseUserAndItemFrom [I5; U3; I1; U1] 0 1 [] [] indexed_world
    = (Done ([] ++ new_users, [] ++ new_items), indexed_world)
    ∧ (length new_users + length new_items = length [I5; U3; I1; U1])%nat
    ∧ Interleave new_users new_items [I5; U3; I1; U1]
    ∧ new_users = filter (λ n, node_type n = 0) [I5; U3; I1; U1]
    ∧ new_items = filter (λ n, ¬ node_type n = 0) [I5; U3; I1; U1]
    ∧ (∀ n, n ∈ [I5; U3; I1; U1] → (n ∈ new_users ∧ ¬ n ∈ new_items)
                                    ∨ (¬ n ∈ new_users ∧ n ∈ new_items)).
Proof.
  apply (classification_partitions (Collab := pool)).
  intros n Hn. rewrite !elem_of_cons, elem_of_nil in Hn.
  destruct_or!; subst; vm_compute; auto.
Defined.

Lemma invalid_node_is_dropped_witness :
  ParseUserAndItemFrom ([U1] ++ X9 :: [I1]) 0 1 [] [] indexed_world
  = (Done ([] ++ users_of 0 ([U1] ++ [I1]), [] ++ items_of 0 1 ([U1] ++ [I1])),
     log_events (invalid_log 0 1 [U1] ++ LogInvalidNode X9 (node_type X9) 0 1
                                         :: invalid_log 0 1 [I1]) indexed_world)
  ∧ ¬ X9 ∈ users_of 0 ([U1] ++ [I1])
  ∧ ¬ X9 ∈ items_of 0 1 ([U1] ++ [I1])
  ∧ (GetPredictBatch (world from_pool false 32 [] [U3; X9; I5] 1)).1 = CheckFailed
  ∧ (GetTrainBatch (world from_pool true 32 [(X9, I1)] [] 1)).1 = CheckFailed.
Proof.
  destruct (invalid_node_is_dropped (Collab := pool) [U1] [I1] X9 0 1 [] []
              indexed_world)
    as (Hrun & Hu & Hi & _ & Hpredict & Htrain); [by vm_compute..|].
  split; [exact Hrun|]. split; [exact Hu|]. split; [exact Hi|]. split.
  - apply (Hpredict (world from_pool false 32 [] [U3; X9; I5] 1)
             [{| node := U3 |}; {| node := X9 |}; {| node := I5 |}] (source [] []));
      [apply demo_subgraph | apply demo_iteration | reflexivity..|].
    change (X9 ∈ [U3; X9; I5]). rewrite !elem_of_cons. auto.
  - apply (Htrain (world from_pool true 32 [(X9, I1)] [] 1)
             [{| src_node := X9; dst_node := I1 |}] (source [] []) [[I1]]);
      [apply demo_subgraph | apply demo_iteration | reflexivity..|].
    change (X9 ∈ [X9; I1; I1]). rewrite !elem_of_cons. auto.
Defined.

(** The batch of predict nodes [U3; X9; I5] is aborted because of [X9],
    whose tag is not registered: the classifier logs it and goes on, the
    index check then stops the batch; without [X9] the batch is built. *)
Lemma invalid_node_is_dropped_counterexample :
  (ParseUserAndItemFrom [U3; X9; I5] 0 1 [] []
     (world from_pool false 32 [] [U3; X9; I5] 1)).1 = Done ([U3], [I5])
  ∧ (GetPredictBatch (world from_pool false 32 [] [U3; X9; I5] 1)).1 = CheckFailed
  ∧ ∃ w', GetPredictBatch (world from_pool false 32 [] [U3; I5] 1) = (Done true, w').
Proof.
  split; [by vm_compute|]. split.
  - apply (GetPredictBatch_unrecognized_aborts (Collab := pool)
             (world from_pool false 32 [] [U3; X9; I5] 1)
             [{| node := U3 |}; {| node := X9 |}; {| node := I5 |}] (source [] []) X9);
      [apply demo_subgraph | apply demo_iteration | reflexivity | |
       by vm_compute | by vm_compute].
    change (X9 ∈ [U3; X9; I5]). rewrite !elem_of_cons. auto.
  - apply (GetPredictBatch_succeeds (Collab := pool)
             (world from_pool false 32 [] [U3; I5] 1)
             [{| node := U3 |}; {| node := I5 |}] (source [] []));
      [apply demo_subgraph | apply demo_iteration | reflexivity |].
    intros n Hn. change (n ∈ [U3; I5]) in Hn.
    rewrite !elem_of_cons, elem_of_nil in Hn.
    destruct_or!; subst; vm_compute; auto.
Qed.

Lemma absent_node_aborts_witness :
  Indexing_Get {| index_keys := [I1] |} I5 < 0
  ∧ index_func indexed_reader I5 = CheckFailed
  ∧ Index indexed_reader I5 = CheckFailed
  ∧ (∀ v, index_func indexed_reader I5 ≠ Done v ∧ Index indexed_reader I5 ≠ Done v)
  ∧ (∀ w name nodes, reader w = indexed_reader → I5 ∈ nodes →
       (FillIndex name nodes w).1 = CheckFailed)
  ∧ (∀ w name before after flat, reader w = indexed_reader →
       for_each (Index indexed_reader) before = Done flat →
       FillIndex name (before ++ I5 :: after) w
       = (CheckFailed,
          {| reader := indexed_reader;
             inst := put_csr name
                       {| csr_rows := (λ i, [(i, 1)]) <$> flat; csr_open := [] |}
                       (inst w);
             trace := trace w |}))
  ∧ (∀ w, reader w = indexed_reader → I5 ∈ src_nodes_ indexed_reader →
       (GetPredictBatch_index w).1 = CheckFailed)
  ∧ (∀ w src_name dst_name y_name src dst negs,
       I5 ∈ src ++ dst ++ concat negs →
       (flow_FillEdgeAndLabel src_name dst_name y_name src dst negs
          (index_func indexed_reader) (index_func indexed_reader) w).1
       = CheckFailed)
  ∧ (∀ w, reader w = indexed_reader →
       I5 ∈ src_nodes_ indexed_reader ++ dst_nodes_ indexed_reader
            ++ concat (neg_nodes_list_ indexed_reader) →
       (GetTrainBatch_edges w).1 = CheckFailed).
Proof.
  apply (absent_node_aborts indexed_reader
           {| index_keys := [U2; U1] |} {| index_keys := [I1] |} I5);
    [reflexivity | reflexivity |].
  by intros ?%list_elem_of_singleton.
Defined.

Lemma negatives_requested_from_destinations_witness :
  ∃ later,
    trace (GetTrainBatch (world from_pool true 32 [(U1, I1); (U2, I1)] [] 1)).2
    = [] ++ [CallNextBatch 32; CallSharedSampleNegative 1 [I1; I1] [I1; I1]] ++ later
    ∧ (∀ e, e ∈ later → is_negative_request e = false)
    ∧ dst_nodes_
        (reader (GetTrainBatch (world from_pool true 32 [(U1, I1); (U2, I1)] [] 1)).2)
      = [I1; I1]
    ∧ (∀ negs, from_pool 1 [I1; I1] [I1; I1] = Some negs →
         neg_nodes_list_
           (reader (GetTrainBatch (world from_pool true 32 [(U1, I1); (U2, I1)] [] 1)).2)
         = negs
         ∧ (@NegativePoolContract pool → ∀ l n, l ∈ negs → n ∈ l → n ∈ [I1; I1]))
    ∧ (from_pool 1 [I1; I1] [I1; I1] = None →
         (GetTrainBatch (world from_pool true 32 [(U1, I1); (U2, I1)] [] 1)).1
         = CheckFailed).
Proof.
  apply (negatives_requested_from_destinations
           (world from_pool true 32 [(U1, I1); (U2, I1)] [] 1)
           train_edges (source [] [])).
  reflexivity.
Defined.

Lemma unrecognized_negative_not_indexed_witness :
  ∃ user_nodes item_nodes w' user0 item0,
    GetTrainBatch_indexed train_edges
      (world (from_corpus X9) true 32 [] [] 1)
    = (Done (user_nodes, item_nodes), w')
    ∧ ¬ X9 ∈ user_nodes
    ∧ ¬ X9 ∈ item_nodes
    ∧ X9 ∈ concat (neg_nodes_list_ (reader w'))
    ∧ user_indexings_ (reader w') !! 0%nat = Some user0
    ∧ item_indexings_ (reader w') !! 0%nat = Some item0
    ∧ ¬ X9 ∈ index_keys user0
    ∧ ¬ X9 ∈ index_keys item0
    ∧ Indexing_Get user0 X9 < 0
    ∧ Indexing_Get item0 X9 < 0
    ∧ index_func (reader w') X9 = CheckFailed.
Proof.
  apply (unrecognized_negative_not_indexed (Collab := corpus) train_edges
           [[X9]; [X9]] (world (from_corpus X9) true 32 [] [] 1) X9).
  - apply demo_subgraph.
  - apply demo_iteration.
  - reflexivity.
  - vm_compute. by left.
  - by vm_compute.
  - by vm_compute.
Defined.

Lemma two_users_one_item_scenario_witness :
  ∃ w' user0 item0 i1 i2,
    GetTrainBatch (world from_pool true 32 [(U1, I1); (U2, I1)] [] 1)
    = (Done true, w')
    ∧ user_indexings_ (reader w') !! 0%nat = Some user0
    ∧ item_indexings_ (reader w') !! 0%nat = Some item0
    ∧ Indexing_Size user0 = 2
    ∧ Indexing_Size item0 = 1
    ∧ Indexing_Get user0 U1 = i1
    ∧ Indexing_Get user0 U2 = i2
    ∧ 0 ≤ i1 < 2 ∧ 0 ≤ i2 < 2 ∧ i1 ≠ i2
    ∧ Indexing_Get item0 I1 = 0
    ∧ index_func (reader w') U1 = Done i1
    ∧ index_func (reader w') U2 = Done i2
    ∧ index_func (reader w') I1 = Done 2
    ∧ inst w'
      = set_batch 2
          (edge_layout "X_SRC_ID" "X_DST_ID" "Y" [i1; i2] [2; 2]
             ((λ l : list Z, (λ _, 2) <$> l) <$> [[I1]; [I1]])
             (inst (GetTrainBatch_indexed_world train_edges [[I1]; [I1]]
                      (after_NextBatch (source [] [])
                         (world from_pool true 32 [(U1, I1); (U2, I1)] [] 1)))))
    ∧ inst_batch (inst w') = 2.
Proof.
  apply (two_users_one_item_scenario (Collab := pool)
           (world from_pool true 32 [(U1, I1); (U2, I1)] [] 1) U1 U2 I1
           (source [] []) [[I1]; [I1]]).
  - apply demo_subgraph.
  - apply demo_iteration.
  - apply demo_pool.
  - reflexivity.
  - reflexivity.
  - reflexivity.
  - done.
  - reflexivity.
  - reflexivity.
  - reflexivity.
  - reflexivity.
  - reflexivity.
Defined.

Lemma predict_nodes_verbatim_witness :
  ∃ w', GetPredictBatch (world from_pool false 32 [] [I5; U3] 1) = (Done true, w')
    ∧ inst_vec (inst w') !! "X_PREDICT_NODE" = Some [I5; U3]
    ∧ src_nodes_ (reader w') = [I5; U3]
    ∧ inst_batch (inst w') = 2.
Proof.
  destruct (GetPredictBatch_succeeds (Collab := pool)
              (world from_pool false 32 [] [I5; U3] 1)
              [{| node := I5 |}; {| node := U3 |}] (source [] []))
    as [w' Hw'].
  - apply demo_subgraph.
  - apply demo_iteration.
  - reflexivity.
  - intros n Hn. change (n ∈ [I5; U3]) in Hn.
    rewrite !elem_of_cons, elem_of_nil in Hn.
    destruct_or!; subst; vm_compute; auto.
  - exists w'. split; [exact Hw'|].
    destruct (predict_nodes_verbatim (Collab := pool)
                (world from_pool false 32 [] [I5; U3] 1) w')
      as (values & lp & Hnext & Hvec & Hsrc & Hbatch).
    + apply demo_batch_size.
    + by vm_compute.
    + exact Hw'.
    + vm_compute in Hnext. injection Hnext as <- <-.
      split; [exact Hvec|]. split; [exact Hsrc|exact Hbatch].
Defined.

Lemma end_of_stream_closes_and_clears_witness :
  GetTrainBatch (world from_pool true 32 [] [] 1)
  = (Done false, end_of_stream (source [] []) (world from_pool true 32 [] [] 1))
  ∧ GetPredictBatch (world from_pool false 32 [] [] 1)
    = (Done false, end_of_stream (source [] []) (world from_pool false 32 [] [] 1)).
Proof.
  split.
  - apply (proj1 (end_of_stream_closes_and_clears (Collab := pool)
                    (world from_pool true 32 [] [] 1) (source [] []))).
    reflexivity.
  - apply (proj1 (proj2 (end_of_stream_closes_and_clears (Collab := pool)
                           (world from_pool false 32 [] [] 1) (source [] [])))).
    reflexivity.
Defined.

(** With the full user table the flat index of [I1] is [2^31]: the
    training-path function yields it, the member [Index] yields [-2^31],
    and [-2^31] is the column that [FillIndex] writes. *)
Lemma Index_narrows_to_int_witness :
  index_func full_reader I1 = Done (2 ^ 31)
  ∧ Index full_reader I1 = Done (- 2 ^ 31)
  ∧ FillIndex X_SRC_ID_NAME [I1] full_world
    = (Done tt,
       {| reader := full_reader;
          inst := put_csr X_SRC_ID_NAME
                    {| csr_rows := [[(- 2 ^ 31, 1)]]; csr_open := [] |}
                    empty_instance;
          trace := [] |}).
Proof.
  assert (Hsize : Indexing_Size full_users = 2 ^ 31).
  { unfold Indexing_Size, full_users. cbn [index_keys].
    rewrite length_seqZ. by rewrite Z2Nat.id. }
  destruct (Index_narrows_to_int full_reader I1) as (_ & _ & Hitem & Hfill & _).
  destruct (Hitem {| index_keys := [I1] |} full_users) as [Hf HI];
    [change (node_type I1 ≠ 0); by vm_compute | reflexivity | reflexivity
    | by vm_compute |].
  change (Indexing_Get {| index_keys := [I1] |} I1) with 0 in Hf, HI.
  rewrite Hsize in Hf, HI. split; [exact Hf|]. split; [exact HI|].
  apply (Hfill X_SRC_ID_NAME [I1] [2 ^ 31] full_world); [reflexivity|].
  cbn [for_each]. by rewrite Hf.
Defined.

End Examples.

(** * More examples *)

Section MoreExamples.
Import Demo DemoConfig.
#[local] Existing Instance pool.
#[local] Existing Instance config.

Lemma configured_in_range_witness :
  config_in_range (InitConfigKV "item_ns_id" "-1" new).1.2.
Proof.
  apply configured_in_range.
  eapply (configured_step "item_ns_id" "-1" new true _
            [LogInstanceReaderArgument "item_ns_id" "-1"]).
  - apply configured_new.
  - reflexivity.
Defined.

Lemma checked_values_witness :
  (InitConfigKV "num_neg" "0" new).1.1 = CheckAborted
  ∧ (InitConfigKV "is_train" "0" new).1.1 = Returned true
  ∧ is_train_ (InitConfigKV "is_train" "0" new).1.2 ≠ true.
Proof.
  split; [|split].
  - destruct (checked_values "num_neg" "0" new) as (_ & _ & Hneg); [reflexivity|].
    destruct (Hneg eq_refl) as (_ & _ & Habort & _).
    apply Habort. exists 0. by vm_compute.
  - destruct (checked_values "is_train" "0" new) as (Hflag & _); [reflexivity|].
    destruct (Hflag eq_refl) as (Htrue & _).
    apply Htrue. by left.
  - destruct (checked_values "is_train" "0" new) as (Hflag & _); [reflexivity|].
    destruct (Hflag eq_refl) as (Htrue & Hvalue & _).
    intros Hset. apply Hvalue in Hset; [by vm_compute in Hset|].
    apply Htrue. by left.
Defined.

Lemma type_tags_wrap_witness :
  user_ns_id_ (InitConfigKV "user_ns_id" "65537" new).1.2 = 65537 `mod` 2 ^ 16
  ∧ item_ns_id_ (InitConfigKV "item_ns_id" "-1" new).1.2 = (-1) `mod` 2 ^ 16.
Proof.
  split.
  - destruct (type_tags_wrap "user_ns_id" "65537" 65537 new) as (Huser & _);
      [reflexivity | reflexivity |].
    by destruct (Huser eq_refl) as (_ & ? & _).
  - destruct (type_tags_wrap "item_ns_id" "-1" (-1) new) as (_ & Hitem);
      [reflexivity | reflexivity |].
    by destruct (Hitem eq_refl) as (_ & ? & _).
Defined.

Lemma unified_index_is_onto_witness :
  ∃ n, index_func indexed_reader n = Done 2 ∧ n ∈ [I1].
Proof.
  destruct (unified_index_is_onto (Collab := pool) indexed_reader
              {| index_keys := [U2; U1] |} {| index_keys := [I1] |} 2)
    as (n & Hn & _ & Hitem).
  - reflexivity.
  - reflexivity.
  - apply (bool_decide_unpack _). by vm_compute.
  - apply (bool_decide_unpack _). by vm_compute.
  - by vm_compute.
  - by vm_compute.
  - intros n Hn. change (n ∈ [U2; U1]) in Hn.
    rewrite !elem_of_cons, elem_of_nil in Hn.
    destruct_or!; subst; by vm_compute.
  - intros n Hn. change (n ∈ [I1]) in Hn.
    rewrite !elem_of_cons, elem_of_nil in Hn.
    destruct_or!; subst; by vm_compute.
  - split; by vm_compute.
  - exists n. split; [exact Hn|]. apply Hitem. by vm_compute.
Defined.

Lemma train_batch_indices_are_dense_witness :
  ∃ w' user0 item0,
    user_indexings_ (reader w') !! 0%nat = Some user0
    ∧ item_indexings_ (reader w') !! 0%nat = Some item0
    ∧ (∀ i, 0 ≤ i < Indexing_Size user0 + Indexing_Size item0 →
         ∃ n, n ∈ [U1; U2; I1; I1; I1; I1] ∧ index_func (reader w') n = Done i).
Proof.
  destruct (train_batch_indices_are_dense (Collab := pool) train_edges
              [[I1]; [I1]]
              (@after_NextBatch pool (source [] [])
                 (world from_pool true 32 [(U1, I1); (U2, I1)] [] 1)))
    as (users & items & w' & user0 & item0 & _ & Hu & Hi & _ & Honto).
  - apply demo_subgraph.
  - apply demo_iteration.
  - reflexivity.
  - by vm_compute.
  - exists w', user0, item0. split; [exact Hu|]. split; [exact Hi|exact Honto].
Defined.

Lemma FillIndex_overwrites_slot_witness :
  ∃ w' flat,
    FillIndex X_SRC_ID_NAME [U1; I1] indexed_world = (Done tt, w')
    ∧ Forall2 (λ n i, Index indexed_reader n = Done i) [U1; I1] flat
    ∧ inst_csr (inst w')
      = <[X_SRC_ID_NAME := {| csr_rows := (λ i, [(i, 1)]) <$> flat; csr_open := [] |}]>
          (inst_csr (inst indexed_world))
    ∧ reader w' = indexed_reader.
Proof.
  assert (Hflat : for_each (Index (reader indexed_world)) [U1; I1] = Done [1; 2])
    by (by vm_compute).
  pose proof (FillIndex_Done (Collab := pool) X_SRC_ID_NAME [U1; I1]
                indexed_world [1; 2] Hflat) as Hrun.
  destruct (FillIndex_overwrites_slot (Collab := pool) X_SRC_ID_NAME [U1; I1]
              indexed_world _ Hrun)
    as (flat & Hidx & Hcsr & _ & _ & _ & Hreader & _).
  eexists _, flat. split; [exact Hrun|]. split; [exact Hidx|].
  split; [exact Hcsr|exact Hreader].
Defined.

Lemma predict_batch_all_or_nothing_witness :
  ∃ w' flat,
    GetPredictBatch (world from_pool false 32 [] [I5; U3] 1) = (Done true, w')
    ∧ Forall2 (λ n i, index_func (reader w') n = Done i) [I5; U3] flat
    ∧ inst_vec (inst w') !! X_PREDICT_NODE_NAME = Some [I5; U3]
    ∧ inst_batch (inst w') = Z.of_nat (length flat).
Proof.
  destruct (predict_batch_all_or_nothing (Collab := pool)
              (world from_pool false 32 [] [I5; U3] 1)
              [{| node := I5 |}; {| node := U3 |}] (source [] []))
    as [Hok _].
  - apply demo_subgraph.
  - apply demo_iteration.
  - apply demo_batch_size.
  - by vm_compute.
  - reflexivity.
  - destruct Hok as (w' & flat & Hrun & Hidx & _ & Hvec & Hb).
    + intros n Hn. change (n ∈ [I5; U3]) in Hn.
      rewrite !elem_of_cons, elem_of_nil in Hn.
      destruct_or!; subst; vm_compute; auto.
    + exists w', flat. split; [exact Hrun|]. split; [exact Hidx|].
      split; [exact Hvec|exact Hb].
Defined.

Lemma train_batch_follows_records_witness :
  ∃ w',
    GetTrainBatch (world from_pool true 32 [(U1, I1); (U2, I1)] [] 1)
    = (Done true, w')
    ∧ src_nodes_ (reader w') = [U1; U2]
    ∧ dst_nodes_ (reader w') = [I1; I1]
    ∧ inst_batch (inst w') = 2.
Proof.
  destruct (GetTrainBatch_succeeds (Collab := pool)
              (world from_pool true 32 [(U1, I1); (U2, I1)] [] 1)
              train_edges (source [] []) [[I1]; [I1]])
    as [w' Hw'].
  - apply demo_subgraph.
  - apply demo_iteration.
  - reflexivity.
  - reflexivity.
  - intros n Hn. change (n ∈ [U1; U2; I1; I1; I1; I1]) in Hn.
    rewrite !elem_of_cons, elem_of_nil in Hn.
    destruct_or!; subst; vm_compute; auto.
  - exists w'. split; [exact Hw'|].
    destruct (train_batch_follows_records (Collab := pool) _ _ Hw')
      as (values & lp & negs & si & di & ni & Hnext & _ & Hsrc & Hdst & _ & _
          & _ & _ & _ & _ & Hb).
    vm_compute in Hnext. injection Hnext as <- <-.
    split; [exact Hsrc|]. split; [exact Hdst|exact Hb].
Defined.

Lemma train_batch_all_or_nothing_witness :
  ∃ w',
    GetTrainBatch (world from_pool true 32 [(U1, I1); (U2, I1)] [] 1)
    = (Done true, w').
Proof.
  destruct (train_batch_all_or_nothing (Collab := pool)
              (world from_pool true 32 [(U1, I1); (U2, I1)] [] 1)
              train_edges (source [] []))
    as [_ Hsome].
  - apply demo_subgraph.
  - apply demo_iteration.
  - reflexivity.
  - destruct (Hsome [[I1]; [I1]]) as [Hok _]; [reflexivity|].
    apply Hok. intros n Hn. change (n ∈ [U1; U2; I1; I1; I1; I1]) in Hn.
    rewrite !elem_of_cons, elem_of_nil in Hn.
    destruct_or!; subst; vm_compute; auto.
Defined.

Lemma inference_makes_no_training_request_witness :
  ∃ later,
    trace (GetBatch (world from_pool false 32 [] [I5; U3] 1)).2
    = trace (world from_pool false 32 [] [I5; U3] 1)
      ++ CallNextBatch (batch_ (reader (world from_pool false 32 [] [I5; U3] 1)))
         :: later
    ∧ (∀ e, e ∈ later → is_training_request e = false).
Proof.
  destruct (inference_makes_no_training_request (Collab := pool)
              (world from_pool false 32 [] [I5; U3] 1))
    as (later & Htrace & Hquiet & _).
  - reflexivity.
  - exists later. split; [exact Htrace|exact Hquiet].
Defined.

End MoreExamples.
